(** * SurfaceOverlay: scalar overlays bound to a surface mesh

    A shallow embedding of [freeview/SurfaceOverlay.cpp].  Every member
    function of the class is a computation over an explicit [World]: the
    overlay objects, the property objects and correlation volumes they share
    by pointer, the diagnostic stream and the trace of notifications.  A
    computation yields [None] where the C++ program has no defined result
    (a null or dangling pointer is dereferenced, a copy runs past a buffer,
    [new] is given a negative length). *)

From Stdlib Require Import ZArith Floats Lia.
From stdpp Require Import gmap strings list.

Local Open Scope Z_scope.

(** ** Machine integers *)

Module CInt.

Definition INT_MAX : Z := 2147483647.
Definition INT_MIN : Z := -2147483648.

Definition in_range (x : Z) : Prop := INT_MIN <= x <= INT_MAX.

(** The value an [int] computation keeps: two's complement wrap-around. *)
Definition wrap (x : Z) : Z := (x + 2147483648) mod 4294967296 - 2147483648.

Definition mul (a b : Z) : Z := wrap (a * b).
Definition add (a b : Z) : Z := wrap (a + b).

End CInt.

(** ** Floating-point values

    The buffers hold C [float]s and the cached range is a pair of [double]s.
    Widening a [float] to a [double] is exact, so both are modelled by the
    binary64 values of [PrimFloat]; the code only copies and compares them. *)

Abbreviation float := PrimFloat.float.

(** C's [x > y] on doubles. *)
Definition gtb (x y : float) : bool := PrimFloat.ltb y x.

(** ** Heap buffers of floats

    A pointer to a [float] array is [None] when null, and otherwise the
    array from the pointed element to the end of the allocation.  An
    operation yields [None] where the access is undefined in C++: through a
    null pointer, or outside the allocation. *)

Definition buffer : Type := option (list float).

(** [p + off]. *)
Definition ptr_add (p : buffer) (off : Z) : buffer :=
  match p with
  | Some l =>
      if (0 <=? off) && (off <=? Z.of_nat (length l))
      then Some (drop (Z.to_nat off) l) else None
  | None => None
  end.

(** [memcpy(dst, src, sizeof(float)*n)]: the new contents of [dst]. *)
Definition memcpy (dst src : buffer) (n : Z) : buffer :=
  match dst, src with
  | Some d, Some s =>
      if (0 <=? n) && (n <=? Z.of_nat (length d)) && (n <=? Z.of_nat (length s))
      then Some (take (Z.to_nat n) s ++ drop (Z.to_nat n) d) else None
  | _, _ => None
  end.

(** [p[i]]. *)
Definition read (p : buffer) (i : Z) : option float :=
  match p with
  | Some l => if 0 <=? i then l !! Z.to_nat i else None
  | None => None
  end.

(** [p[i] = x]: the new contents of [p]. *)
Definition write (p : buffer) (i : Z) (x : float) : buffer :=
  match p with
  | Some l =>
      if (0 <=? i) && (i <? Z.of_nat (length l))
      then Some (<[Z.to_nat i := x]> l) else None
  | None => None
  end.

(** ** The running minimum and maximum

    The loop shared by [InitializeData], [UpdateCorrelationAtVertex] and
    [SetActiveFrame]; the pair is [(m_dMaxValue, m_dMinValue)]. *)

Definition update_range (x : float) (r : float * float) : float * float :=
  if PrimFloat.ltb (fst r) x then (x, snd r)
  else if gtb (snd r) x then (fst r, x)
  else r.

Fixpoint range_loop (data : buffer) (i : Z) (n : nat) (r : float * float)
  : option (float * float) :=
  match n with
  | O => Some r
  | S n' =>
      match read data i with
      | Some x => range_loop data (i + 1) n' (update_range x r)
      | None => None
      end
  end.

(** The loop that fills [data] from a source of values while it tracks the
    range: [data[i] = src(i)] followed by the range update on [data[i]]. *)
Fixpoint fill_loop (src : Z -> option float) (i : Z) (n : nat) (data : buffer)
    (r : float * float) : option (buffer * (float * float)) :=
  match n with
  | O => Some (data, r)
  | S n' =>
      match src i with
      | Some x =>
          match write data i x with
          | Some d => fill_loop src (i + 1) n' (Some d) (update_range x r)
          | None => None
          end
      | None => None
      end
  end.

(** ** Collaborating objects *)

Definition ptr : Type := positive.

(** What the overlay uses of its [LayerSurface]: the hemisphere index and
    the per-vertex [val] field of the source [MRIS]. *)
Record LayerSurface := {
  GetHemisphere : Z;
  mris_nvertices : Z;
  mris_vertices_val : list float
}.

(** What the overlay uses of a [LayerMRI]: its frame count and the values of
    all frames at the voxel under the volume's current slice position (the
    result of [GetSlicePosition], [TargetToRAS], [RASToOriginalIndex] and
    [GetVoxelValueByOriginalIndexAllFrames]). *)
Record LayerMRI := {
  GetNumberOfFrames : Z;
  cursor_voxel_frame : Z -> float
}.

(** An [MRI] volume of floats. *)
Record MRI := {
  width : Z;
  height : Z;
  depth : Z;
  nframes : Z;
  voxels : Z -> Z -> Z -> Z -> float
}.

(** [MRIFseq_vox(mri, x, y, z, f)]. *)
Definition MRIFseq_vox (mri : MRI) (x y z f : Z) : option float :=
  if (0 <=? x) && (x <? width mri) && (0 <=? y) && (y <? height mri)
     && (0 <=? z) && (z <? depth mri) && (0 <=? f) && (f <? nframes mri)
  then Some (voxels mri x y z f) else None.

(** What the overlay reads of its [SurfaceOverlayProperty]. *)
Record SurfaceOverlayProperty := {
  GetSmooth : bool;
  GetSmoothSteps : Z
}.

(** [vol->GetVoxelValueByOriginalIndexAllFrames(n[0], n[1], n[2], buffer)] at
    the voxel under the cursor: [buffer[f]] receives the value of frame [f]. *)
Fixpoint fetch_frames (vol : LayerMRI) (f : Z) (n : nat) (buf : buffer) : option buffer :=
  match n with
  | O => Some buf
  | S n' =>
      match write buf f (cursor_voxel_frame vol f) with
      | Some b => fetch_frames vol (f + 1) n' (Some b)
      | None => None
      end
  end.

(** The inner loop of [UpdateCorrelationCoefficient]:
    [buf[j] = raw[i + j*size]] for [j] from the given start. *)
Fixpoint gather_loop (raw : buffer) (size i j : Z) (n : nat) (buf : buffer)
  : option buffer :=
  match n with
  | O => Some buf
  | S n' =>
      match read raw (CInt.add i (CInt.mul j size)) with
      | Some x =>
          match write buf j x with
          | Some b => gather_loop raw size i (j + 1) n' (Some b)
          | None => None
          end
      | None => None
      end
  end.

(** The elements a callee can read through a pointer. *)
Definition contents (p : buffer) : list float :=
  match p with
  | Some l => l
  | None => []
  end.

(** The outer loop: [data[i] = coefficient(source, buf, frames)]. *)
Fixpoint coefficient_loop (coefficient : list float -> list float -> Z -> float)
    (raw source : buffer) (size frames i : Z) (n : nat) (buf data : buffer)
  : option (buffer * buffer) :=
  match n with
  | O => Some (buf, data)
  | S n' =>
      match gather_loop raw size i 0 (Z.to_nat frames) buf with
      | Some b =>
          match write data i (coefficient (contents source) (contents b) frames) with
          | Some d =>
              coefficient_loop coefficient raw source size frames (i + 1) n' b (Some d)
          | None => None
          end
      | None => None
      end
  end.

(** ** The overlay object *)

Record SurfaceOverlay := {
  m_fData : buffer;
  m_fDataRaw : buffer;
  m_fDataUnsmoothed : buffer;
  m_dMaxValue : float;
  m_dMinValue : float;
  m_nDataSize : Z;
  m_surface : option LayerSurface;
  m_property : ptr;
  m_bCorrelationData : bool;
  m_bCorrelationDataReady : bool;
  m_mriCorrelation : option ptr;
  m_overlayPaired : option ptr;
  m_nActiveFrame : Z;
  m_nNumOfFrames : Z;
  m_bComputeCorrelation : bool;
  m_volumeCorrelationSource : option LayerMRI;
  m_fCorrelationSourceData : buffer;
  m_fCorrelationDataBuffer : buffer;
  (** [QObject]'s flag behind [blockSignals] *)
  signalsBlocked : bool
}.

Definition set_m_fData v (o : SurfaceOverlay) : SurfaceOverlay :=
  {| m_fData := v; m_fDataRaw := m_fDataRaw o;
     m_fDataUnsmoothed := m_fDataUnsmoothed o; m_dMaxValue := m_dMaxValue o;
     m_dMinValue := m_dMinValue o; m_nDataSize := m_nDataSize o;
     m_surface := m_surface o; m_property := m_property o;
     m_bCorrelationData := m_bCorrelationData o;
     m_bCorrelationDataReady := m_bCorrelationDataReady o;
     m_mriCorrelation := m_mriCorrelation o; m_overlayPaired := m_overlayPaired o;
     m_nActiveFrame := m_nActiveFrame o; m_nNumOfFrames := m_nNumOfFrames o;
     m_bComputeCorrelation := m_bComputeCorrelation o;
     m_volumeCorrelationSource := m_volumeCorrelationSource o;
     m_fCorrelationSourceData := m_fCorrelationSourceData o;
     m_fCorrelationDataBuffer := m_fCorrelationDataBuffer o;
     signalsBlocked := signalsBlocked o |}.

Definition set_m_fDataRaw v (o : SurfaceOverlay) : SurfaceOverlay :=
  {| m_fData := m_fData o; m_fDataRaw := v; m_fDataUnsmoothed := m_fDataUnsmoothed o;
     m_dMaxValue := m_dMaxValue o; m_dMinValue := m_dMinValue o;
     m_nDataSize := m_nDataSize o; m_surface := m_surface o;
     m_property := m_property o; m_bCorrelationData := m_bCorrelationData o;
     m_bCorrelationDataReady := m_bCorrelationDataReady o;
     m_mriCorrelation := m_mriCorrelation o; m_overlayPaired := m_overlayPaired o;
     m_nActiveFrame := m_nActiveFrame o; m_nNumOfFrames := m_nNumOfFrames o;
     m_bComputeCorrelation := m_bComputeCorrelation o;
     m_volumeCorrelationSource := m_volumeCorrelationSource o;
     m_fCorrelationSourceData := m_fCorrelationSourceData o;
     m_fCorrelationDataBuffer := m_fCorrelationDataBuffer o;
     signalsBlocked := signalsBlocked o |}.

Definition set_m_fDataUnsmoothed v (o : SurfaceOverlay) : SurfaceOverlay :=
  {| m_fData := m_fData o; m_fDataRaw := m_fDataRaw o; m_fDataUnsmoothed := v;
     m_dMaxValue := m_dMaxValue o; m_dMinValue := m_dMinValue o;
     m_nDataSize := m_nDataSize o; m_surface := m_surface o;
     m_property := m_property o; m_bCorrelationData := m_bCorrelationData o;
     m_bCorrelationDataReady := m_bCorrelationDataReady o;
     m_mriCorrelation := m_mriCorrelation o; m_overlayPaired := m_overlayPaired o;
     m_nActiveFrame := m_nActiveFrame o; m_nNumOfFrames := m_nNumOfFrames o;
     m_bComputeCorrelation := m_bComputeCorrelation o;
     m_volumeCorrelationSource := m_volumeCorrelationSource o;
     m_fCorrelationSourceData := m_fCorrelationSourceData o;
     m_fCorrelationDataBuffer := m_fCorrelationDataBuffer o;
     signalsBlocked := signalsBlocked o |}.

Definition set_m_dMaxValue v (o : SurfaceOverlay) : SurfaceOverlay :=
  {| m_fData := m_fData o; m_fDataRaw := m_fDataRaw o;
     m_fDataUnsmoothed := m_fDataUnsmoothed o; m_dMaxValue := v;
     m_dMinValue := m_dMinValue o; m_nDataSize := m_nDataSize o;
     m_surface := m_surface o; m_property := m_property o;
     m_bCorrelationData := m_bCorrelationData o;
     m_bCorrelationDataReady := m_bCorrelationDataReady o;
     m_mriCorrelation := m_mriCorrelation o; m_overlayPaired := m_overlayPaired o;
     m_nActiveFrame := m_nActiveFrame o; m_nNumOfFrames := m_nNumOfFrames o;
     m_bComputeCorrelation := m_bComputeCorrelation o;
     m_volumeCorrelationSource := m_volumeCorrelationSource o;
     m_fCorrelationSourceData := m_fCorrelationSourceData o;
     m_fCorrelationDataBuffer := m_fCorrelationDataBuffer o;
     signalsBlocked := signalsBlocked o |}.

Definition set_m_dMinValue v (o : SurfaceOverlay) : SurfaceOverlay :=
  {| m_fData := m_fData o; m_fDataRaw := m_fDataRaw o;
     m_fDataUnsmoothed := m_fDataUnsmoothed o; m_dMaxValue := m_dMaxValue o;
     m_dMinValue := v; m_nDataSize := m_nDataSize o; m_surface := m_surface o;
     m_property := m_property o; m_bCorrelationData := m_bCorrelationData o;
     m_bCorrelationDataReady := m_bCorrelationDataReady o;
     m_mriCorrelation := m_mriCorrelation o; m_overlayPaired := m_overlayPaired o;
     m_nActiveFrame := m_nActiveFrame o; m_nNumOfFrames := m_nNumOfFrames o;
     m_bComputeCorrelation := m_bComputeCorrelation o;
     m_volumeCorrelationSource := m_volumeCorrelationSource o;
     m_fCorrelationSourceData := m_fCorrelationSourceData o;
     m_fCorrelationDataBuffer := m_fCorrelationDataBuffer o;
     signalsBlocked := signalsBlocked o |}.

Definition set_m_nDataSize v (o : SurfaceOverlay) : SurfaceOverlay :=
  {| m_fData := m_fData o; m_fDataRaw := m_fDataRaw o;
     m_fDataUnsmoothed := m_fDataUnsmoothed o; m_dMaxValue := m_dMaxValue o;
     m_dMinValue := m_dMinValue o; m_nDataSize := v; m_surface := m_surface o;
     m_property := m_property o; m_bCorrelationData := m_bCorrelationData o;
     m_bCorrelationDataReady := m_bCorrelationDataReady o;
     m_mriCorrelation := m_mriCorrelation o; m_overlayPaired := m_overlayPaired o;
     m_nActiveFrame := m_nActiveFrame o; m_nNumOfFrames := m_nNumOfFrames o;
     m_bComputeCorrelation := m_bComputeCorrelation o;
     m_volumeCorrelationSource := m_volumeCorrelationSource o;
     m_fCorrelationSourceData := m_fCorrelationSourceData o;
     m_fCorrelationDataBuffer := m_fCorrelationDataBuffer o;
     signalsBlocked := signalsBlocked o |}.

Definition set_m_property v (o : SurfaceOverlay) : SurfaceOverlay :=
  {| m_fData := m_fData o; m_fDataRaw := m_fDataRaw o;
     m_fDataUnsmoothed := m_fDataUnsmoothed o; m_dMaxValue := m_dMaxValue o;
     m_dMinValue := m_dMinValue o; m_nDataSize := m_nDataSize o;
     m_surface := m_surface o; m_property := v;
     m_bCorrelationData := m_bCorrelationData o;
     m_bCorrelationDataReady := m_bCorrelationDataReady o;
     m_mriCorrelation := m_mriCorrelation o; m_overlayPaired := m_overlayPaired o;
     m_nActiveFrame := m_nActiveFrame o; m_nNumOfFrames := m_nNumOfFrames o;
     m_bComputeCorrelation := m_bComputeCorrelation o;
     m_volumeCorrelationSource := m_volumeCorrelationSource o;
     m_fCorrelationSourceData := m_fCorrelationSourceData o;
     m_fCorrelationDataBuffer := m_fCorrelationDataBuffer o;
     signalsBlocked := signalsBlocked o |}.

Definition set_m_bCorrelationData v (o : SurfaceOverlay) : SurfaceOverlay :=
  {| m_fData := m_fData o; m_fDataRaw := m_fDataRaw o;
     m_fDataUnsmoothed := m_fDataUnsmoothed o; m_dMaxValue := m_dMaxValue o;
     m_dMinValue := m_dMinValue o; m_nDataSize := m_nDataSize o;
     m_surface := m_surface o; m_property := m_property o; m_bCorrelationData := v;
     m_bCorrelationDataReady := m_bCorrelationDataReady o;
     m_mriCorrelation := m_mriCorrelation o; m_overlayPaired := m_overlayPaired o;
     m_nActiveFrame := m_nActiveFrame o; m_nNumOfFrames := m_nNumOfFrames o;
     m_bComputeCorrelation := m_bComputeCorrelation o;
     m_volumeCorrelationSource := m_volumeCorrelationSource o;
     m_fCorrelationSourceData := m_fCorrelationSourceData o;
     m_fCorrelationDataBuffer := m_fCorrelationDataBuffer o;
     signalsBlocked := signalsBlocked o |}.

Definition set_m_bCorrelationDataReady v (o : SurfaceOverlay) : SurfaceOverlay :=
  {| m_fData := m_fData o; m_fDataRaw := m_fDataRaw o;
     m_fDataUnsmoothed := m_fDataUnsmoothed o; m_dMaxValue := m_dMaxValue o;
     m_dMinValue := m_dMinValue o; m_nDataSize := m_nDataSize o;
     m_surface := m_surface o; m_property := m_property o;
     m_bCorrelationData := m_bCorrelationData o; m_bCorrelationDataReady := v;
     m_mriCorrelation := m_mriCorrelation o; m_overlayPaired := m_overlayPaired o;
     m_nActiveFrame := m_nActiveFrame o; m_nNumOfFrames := m_nNumOfFrames o;
     m_bComputeCorrelation := m_bComputeCorrelation o;
     m_volumeCorrelationSource := m_volumeCorrelationSource o;
     m_fCorrelationSourceData := m_fCorrelationSourceData o;
     m_fCorrelationDataBuffer := m_fCorrelationDataBuffer o;
     signalsBlocked := signalsBlocked o |}.

Definition set_m_mriCorrelation v (o : SurfaceOverlay) : SurfaceOverlay :=
  {| m_fData := m_fData o; m_fDataRaw := m_fDataRaw o;
     m_fDataUnsmoothed := m_fDataUnsmoothed o; m_dMaxValue := m_dMaxValue o;
     m_dMinValue := m_dMinValue o; m_nDataSize := m_nDataSize o;
     m_surface := m_surface o; m_property := m_property o;
     m_bCorrelationData := m_bCorrelationData o;
     m_bCorrelationDataReady := m_bCorrelationDataReady o; m_mriCorrelation := v;
     m_overlayPaired := m_overlayPaired o; m_nActiveFrame := m_nActiveFrame o;
     m_nNumOfFrames := m_nNumOfFrames o;
     m_bComputeCorrelation := m_bComputeCorrelation o;
     m_volumeCorrelationSource := m_volumeCorrelationSource o;
     m_fCorrelationSourceData := m_fCorrelationSourceData o;
     m_fCorrelationDataBuffer := m_fCorrelationDataBuffer o;
     signalsBlocked := signalsBlocked o |}.

Definition set_m_overlayPaired v (o : SurfaceOverlay) : SurfaceOverlay :=
  {| m_fData := m_fData o; m_fDataRaw := m_fDataRaw o;
     m_fDataUnsmoothed := m_fDataUnsmoothed o; m_dMaxValue := m_dMaxValue o;
     m_dMinValue := m_dMinValue o; m_nDataSize := m_nDataSize o;
     m_surface := m_surface o; m_property := m_property o;
     m_bCorrelationData := m_bCorrelationData o;
     m_bCorrelationDataReady := m_bCorrelationDataReady o;
     m_mriCorrelation := m_mriCorrelation o; m_overlayPaired := v;
     m_nActiveFrame := m_nActiveFrame o; m_nNumOfFrames := m_nNumOfFrames o;
     m_bComputeCorrelation := m_bComputeCorrelation o;
     m_volumeCorrelationSource := m_volumeCorrelationSource o;
     m_fCorrelationSourceData := m_fCorrelationSourceData o;
     m_fCorrelationDataBuffer := m_fCorrelationDataBuffer o;
     signalsBlocked := signalsBlocked o |}.

Definition set_m_nActiveFrame v (o : SurfaceOverlay) : SurfaceOverlay :=
  {| m_fData := m_fData o; m_fDataRaw := m_fDataRaw o;
     m_fDataUnsmoothed := m_fDataUnsmoothed o; m_dMaxValue := m_dMaxValue o;
     m_dMinValue := m_dMinValue o; m_nDataSize := m_nDataSize o;
     m_surface := m_surface o; m_property := m_property o;
     m_bCorrelationData := m_bCorrelationData o;
     m_bCorrelationDataReady := m_bCorrelationDataReady o;
     m_mriCorrelation := m_mriCorrelation o; m_overlayPaired := m_overlayPaired o;
     m_nActiveFrame := v; m_nNumOfFrames := m_nNumOfFrames o;
     m_bComputeCorrelation := m_bComputeCorrelation o;
     m_volumeCorrelationSource := m_volumeCorrelationSource o;
     m_fCorrelationSourceData := m_fCorrelationSourceData o;
     m_fCorrelationDataBuffer := m_fCorrelationDataBuffer o;
     signalsBlocked := signalsBlocked o |}.

Definition set_m_nNumOfFrames v (o : SurfaceOverlay) : SurfaceOverlay :=
  {| m_fData := m_fData o; m_fDataRaw := m_fDataRaw o;
     m_fDataUnsmoothed := m_fDataUnsmoothed o; m_dMaxValue := m_dMaxValue o;
     m_dMinValue := m_dMinValue o; m_nDataSize := m_nDataSize o;
     m_surface := m_surface o; m_property := m_property o;
     m_bCorrelationData := m_bCorrelationData o;
     m_bCorrelationDataReady := m_bCorrelationDataReady o;
     m_mriCorrelation := m_mriCorrelation o; m_overlayPaired := m_overlayPaired o;
     m_nActiveFrame := m_nActiveFrame o; m_nNumOfFrames := v;
     m_bComputeCorrelation := m_bComputeCorrelation o;
     m_volumeCorrelationSource := m_volumeCorrelationSource o;
     m_fCorrelationSourceData := m_fCorrelationSourceData o;
     m_fCorrelationDataBuffer := m_fCorrelationDataBuffer o;
     signalsBlocked := signalsBlocked o |}.

Definition set_m_bComputeCorrelation v (o : SurfaceOverlay) : SurfaceOverlay :=
  {| m_fData := m_fData o; m_fDataRaw := m_fDataRaw o;
     m_fDataUnsmoothed := m_fDataUnsmoothed o; m_dMaxValue := m_dMaxValue o;
     m_dMinValue := m_dMinValue o; m_nDataSize := m_nDataSize o;
     m_surface := m_surface o; m_property := m_property o;
     m_bCorrelationData := m_bCorrelationData o;
     m_bCorrelationDataReady := m_bCorrelationDataReady o;
     m_mriCorrelation := m_mriCorrelation o; m_overlayPaired := m_overlayPaired o;
     m_nActiveFrame := m_nActiveFrame o; m_nNumOfFrames := m_nNumOfFrames o;
     m_bComputeCorrelation := v;
     m_volumeCorrelationSource := m_volumeCorrelationSource o;
     m_fCorrelationSourceData := m_fCorrelationSourceData o;
     m_fCorrelationDataBuffer := m_fCorrelationDataBuffer o;
     signalsBlocked := signalsBlocked o |}.

Definition set_m_volumeCorrelationSource v (o : SurfaceOverlay) : SurfaceOverlay :=
  {| m_fData := m_fData o; m_fDataRaw := m_fDataRaw o;
     m_fDataUnsmoothed := m_fDataUnsmoothed o; m_dMaxValue := m_dMaxValue o;
     m_dMinValue := m_dMinValue o; m_nDataSize := m_nDataSize o;
     m_surface := m_surface o; m_property := m_property o;
     m_bCorrelationData := m_bCorrelationData o;
     m_bCorrelationDataReady := m_bCorrelationDataReady o;
     m_mriCorrelation := m_mriCorrelation o; m_overlayPaired := m_overlayPaired o;
     m_nActiveFrame := m_nActiveFrame o; m_nNumOfFrames := m_nNumOfFrames o;
     m_bComputeCorrelation := m_bComputeCorrelation o; m_volumeCorrelationSource := v;
     m_fCorrelationSourceData := m_fCorrelationSourceData o;
     m_fCorrelationDataBuffer := m_fCorrelationDataBuffer o;
     signalsBlocked := signalsBlocked o |}.

Definition set_m_fCorrelationSourceData v (o : SurfaceOverlay) : SurfaceOverlay :=
  {| m_fData := m_fData o; m_fDataRaw := m_fDataRaw o;
     m_fDataUnsmoothed := m_fDataUnsmoothed o; m_dMaxValue := m_dMaxValue o;
     m_dMinValue := m_dMinValue o; m_nDataSize := m_nDataSize o;
     m_surface := m_surface o; m_property := m_property o;
     m_bCorrelationData := m_bCorrelationData o;
     m_bCorrelationDataReady := m_bCorrelationDataReady o;
     m_mriCorrelation := m_mriCorrelation o; m_overlayPaired := m_overlayPaired o;
     m_nActiveFrame := m_nActiveFrame o; m_nNumOfFrames := m_nNumOfFrames o;
     m_bComputeCorrelation := m_bComputeCorrelation o;
     m_volumeCorrelationSource := m_volumeCorrelationSource o;
     m_fCorrelationSourceData := v;
     m_fCorrelationDataBuffer := m_fCorrelationDataBuffer o;
     signalsBlocked := signalsBlocked o |}.

Definition set_m_fCorrelationDataBuffer v (o : SurfaceOverlay) : SurfaceOverlay :=
  {| m_fData := m_fData o; m_fDataRaw := m_fDataRaw o;
     m_fDataUnsmoothed := m_fDataUnsmoothed o; m_dMaxValue := m_dMaxValue o;
     m_dMinValue := m_dMinValue o; m_nDataSize := m_nDataSize o;
     m_surface := m_surface o; m_property := m_property o;
     m_bCorrelationData := m_bCorrelationData o;
     m_bCorrelationDataReady := m_bCorrelationDataReady o;
     m_mriCorrelation := m_mriCorrelation o; m_overlayPaired := m_overlayPaired o;
     m_nActiveFrame := m_nActiveFrame o; m_nNumOfFrames := m_nNumOfFrames o;
     m_bComputeCorrelation := m_bComputeCorrelation o;
     m_volumeCorrelationSource := m_volumeCorrelationSource o;
     m_fCorrelationSourceData := m_fCorrelationSourceData o;
     m_fCorrelationDataBuffer := v; signalsBlocked := signalsBlocked o |}.

Definition set_signalsBlocked v (o : SurfaceOverlay) : SurfaceOverlay :=
  {| m_fData := m_fData o; m_fDataRaw := m_fDataRaw o;
     m_fDataUnsmoothed := m_fDataUnsmoothed o; m_dMaxValue := m_dMaxValue o;
     m_dMinValue := m_dMinValue o; m_nDataSize := m_nDataSize o;
     m_surface := m_surface o; m_property := m_property o;
     m_bCorrelationData := m_bCorrelationData o;
     m_bCorrelationDataReady := m_bCorrelationDataReady o;
     m_mriCorrelation := m_mriCorrelation o; m_overlayPaired := m_overlayPaired o;
     m_nActiveFrame := m_nActiveFrame o; m_nNumOfFrames := m_nNumOfFrames o;
     m_bComputeCorrelation := m_bComputeCorrelation o;
     m_volumeCorrelationSource := m_volumeCorrelationSource o;
     m_fCorrelationSourceData := m_fCorrelationSourceData o;
     m_fCorrelationDataBuffer := m_fCorrelationDataBuffer o; signalsBlocked := v |}.

(** ** The world *)

Inductive Notification :=
| DataUpdated (sender : ptr)          (** [emit DataUpdated()] delivered *)
| SurfaceUpdateOverlay (caller : ptr) (** [m_surface->UpdateOverlay(true)] *).

Inductive HeapObject :=
| PropertyObject (p : ptr)
| VolumeObject (p : ptr).

Record World := {
  overlays : gmap ptr SurfaceOverlay;
  properties : gmap ptr SurfaceOverlayProperty;
  volumes : gmap ptr MRI;
  (** objects released by [delete] and [MRIfree], most recent first *)
  released : list HeapObject;
  (** lines written to [cerr], most recent first *)
  cerr : list string;
  (** notifications, most recent first *)
  notifications : list Notification;
  (** the address the next allocated object gets *)
  next_object : ptr
}.

Definition set_overlays v (w : World) : World :=
  {| overlays := v; properties := properties w; volumes := volumes w;
     released := released w; cerr := cerr w; notifications := notifications w;
     next_object := next_object w |}.

Definition set_properties v (w : World) : World :=
  {| overlays := overlays w; properties := v; volumes := volumes w;
     released := released w; cerr := cerr w; notifications := notifications w;
     next_object := next_object w |}.

Definition set_volumes v (w : World) : World :=
  {| overlays := overlays w; properties := properties w; volumes := v;
     released := released w; cerr := cerr w; notifications := notifications w;
     next_object := next_object w |}.

Definition set_released v (w : World) : World :=
  {| overlays := overlays w; properties := properties w; volumes := volumes w;
     released := v; cerr := cerr w; notifications := notifications w;
     next_object := next_object w |}.

Definition set_cerr v (w : World) : World :=
  {| overlays := overlays w; properties := properties w; volumes := volumes w;
     released := released w; cerr := v; notifications := notifications w;
     next_object := next_object w |}.

Definition set_notifications v (w : World) : World :=
  {| overlays := overlays w; properties := properties w; volumes := volumes w;
     released := released w; cerr := cerr w; notifications := v;
     next_object := next_object w |}.

Definition set_next_object v (w : World) : World :=
  {| overlays := overlays w; properties := properties w; volumes := volumes w;
     released := released w; cerr := cerr w; notifications := notifications w;
     next_object := v |}.

(** ** Computations *)

Definition M (A : Type) : Type := World -> option (A * World).

Definition ret {A} (a : A) : M A := fun w => Some (a, w).

Definition bind {A B} (m : M A) (k : A -> M B) : M B :=
  fun w => match m w with
           | Some (a, w') => k a w'
           | None => None
           end.

Definition lift {A} (o : option A) : M A :=
  fun w => match o with
           | Some a => Some (a, w)
           | None => None
           end.

Notation "'let*' x ':=' m 'in' k" := (bind m (fun x => k))
  (at level 10, x binder, m at level 100, k at level 200).
Notation "m ';;;' k" := (bind m (fun _ => k))
  (at level 100, k at level 200, right associativity).

(** [*this] *)
Definition deref (this : ptr) : M SurfaceOverlay :=
  fun w => match overlays w !! this with
           | Some o => Some (o, w)
           | None => None
           end.

(** Assignment to a member of [*this]. *)
Definition assign (this : ptr) (upd : SurfaceOverlay -> SurfaceOverlay) : M unit :=
  fun w => match overlays w !! this with
           | Some o => Some (tt, set_overlays (<[this := upd o]> (overlays w)) w)
           | None => None
           end.

(** [*GetProperty()] *)
Definition GetProperty (this : ptr) : M SurfaceOverlayProperty :=
  let* o := deref this in
  fun w => match properties w !! m_property o with
           | Some p => Some (p, w)
           | None => None
           end.

Definition cerr_print (line : string) : M unit :=
  fun w => Some (tt, set_cerr (line :: cerr w) w).

Definition notify (n : Notification) : M unit :=
  fun w => Some (tt, set_notifications (n :: notifications w) w).

(** [emit DataUpdated()]: dropped while the sender's signals are blocked. *)
Definition emit_DataUpdated (this : ptr) : M unit :=
  let* o := deref this in
  if signalsBlocked o then ret tt else notify (DataUpdated this).

(** [m_surface->UpdateOverlay(true)] *)
Definition surface_UpdateOverlay (this : ptr) : M unit :=
  let* o := deref this in
  match m_surface o with
  | Some _ => notify (SurfaceUpdateOverlay this)
  | None => lift None
  end.

(** [obj->blockSignals(b)] *)
Definition blockSignals (obj : ptr) (b : bool) : M unit :=
  assign obj (set_signalsBlocked b).

(** ** External collaborators

    Functions of the imaging library and of the application that the file
    calls but does not define. *)

Record Externals := {
  (** the contents of a fresh [new float[n]] array *)
  uninitialized : nat -> float;
  (** whether [MRIallocSequence(width, 1, 1, MRI_FLOAT, 1)] returns a volume *)
  MRIallocSequence : Z -> bool;
  (** [MRISsmoothMRI(mris, src, nSteps, NULL, NULL)]: the value at each vertex
      of the smoothed volume, or [None] when it returns [NULL] *)
  MRISsmoothMRI : LayerSurface -> list float -> Z -> option (nat -> float);
  (** [MRIreadHeader(filename, -1)] *)
  MRIreadHeader : string -> option MRI;
  (** [MRIread(filename)] *)
  MRIread : string -> option MRI;
  (** [MyUtils::CalculateCorrelationCoefficient(x, y, n)], as the [float]
      that is stored in the working buffer *)
  CalculateCorrelationCoefficient : list float -> list float -> Z -> float;
  (** [SurfaceOverlayProperty::Reset()], given the overlay's cached maximum
      and minimum *)
  Reset : SurfaceOverlayProperty -> float -> float -> SurfaceOverlayProperty;
  (** the state of a [new SurfaceOverlayProperty(overlay)] *)
  new_SurfaceOverlayProperty : SurfaceOverlayProperty;
  (** the value of a member the constructor leaves uninitialized *)
  uninitialized_bool : bool;
  uninitialized_int : Z
}.

(** A member of [*this], read. *)
Definition observe {A} (this : ptr) (f : SurfaceOverlay -> A) : M A :=
  fun w => match overlays w !! this with
           | Some o => Some (f o, w)
           | None => None
           end.

(** The notifications so far. *)
Definition trace : M (list Notification) :=
  fun w => Some (notifications w, w).

(** The value a computation returns from a world. *)
Definition result {A} (m : M A) (w : World) : option A :=
  match m w with
  | Some (a, _) => Some a
  | None => None
  end.

(** ** Allocation and release *)

(** [new float[n]].  It throws rather than return null, so the
    [if (!p) return;] tests that follow it in the source never fire. *)
Definition new_float (garbage : nat -> float) (n : Z) : M (list float) :=
  if 0 <=? n then ret (map garbage (seq 0 (Z.to_nat n))) else lift None.

Definition allocate_address : M ptr :=
  fun w => Some (next_object w, set_next_object (Pos.succ (next_object w)) w).

Definition new_property (p : SurfaceOverlayProperty) : M ptr :=
  let* a := allocate_address in
  fun w => Some (a, set_properties (<[a := p]> (properties w)) w).

Definition new_volume (mri : MRI) : M ptr :=
  let* a := allocate_address in
  fun w => Some (a, set_volumes (<[a := mri]> (volumes w)) w).

(** [delete property] *)
Definition delete_property (p : ptr) : M unit :=
  fun w => match properties w !! p with
           | Some _ =>
               Some (tt, set_released (PropertyObject p :: released w)
                           (set_properties (delete p (properties w)) w))
           | None => None
           end.

(** [MRIfree(&mri)] *)
Definition MRIfree (p : ptr) : M unit :=
  fun w => match volumes w !! p with
           | Some _ =>
               Some (tt, set_released (VolumeObject p :: released w)
                           (set_volumes (delete p (volumes w)) w))
           | None => None
           end.

(** [*mri] *)
Definition volume (p : option ptr) : M MRI :=
  fun w => match p with
           | Some a => match volumes w !! a with
                       | Some mri => Some (mri, w)
                       | None => None
                       end
           | None => None
           end.

(** [m_property->Reset()] called by [this] *)
Definition property_Reset (reset : SurfaceOverlayProperty -> float -> float ->
                                   SurfaceOverlayProperty) (this : ptr) : M unit :=
  let* o := deref this in
  let* p := GetProperty this in
  fun w => Some (tt, set_properties
                       (<[m_property o := reset p (m_dMaxValue o) (m_dMinValue o)]>
                          (properties w)) w).

(** ** The member functions *)

Section Methods.

Variable ext : Externals.

(** [SmoothData(nSteps_in, data_out)]; the result is the contents of
    [data_out] on return. *)
Definition SmoothData (this : ptr) (nSteps_in : Z) (data_out : buffer) : M buffer :=
  let* o := deref this in
  if negb (MRIallocSequence ext (m_nDataSize o)) then
    cerr_print "Can not allocate mri" ;;; ret data_out
  else
    let* mri := lift (memcpy (Some (repeat 0%float (Z.to_nat (m_nDataSize o))))
                        (m_fDataUnsmoothed o) (m_nDataSize o)) in
    let* nSteps := (if nSteps_in <? 1
                    then let* prop := GetProperty this in ret (GetSmoothSteps prop)
                    else ret nSteps_in) in
    let* surf := lift (m_surface o) in
    match MRISsmoothMRI ext surf mri nSteps with
    | Some smoothed =>
        let mri_smoothed := Some (map smoothed (seq 0 (Z.to_nat (m_nDataSize o)))) in
        match data_out with
        | Some _ =>
            let* out := lift (memcpy data_out mri_smoothed (m_nDataSize o)) in
            ret (Some out)
        | None =>
            let* d := lift (memcpy (m_fData o) mri_smoothed (m_nDataSize o)) in
            assign this (set_m_fData (Some d)) ;;; ret None
        end
    | None =>
        cerr_print "Can not allocate mri" ;;; ret data_out
    end.

(** [SmoothData()] with its default arguments, which the class declaration
    gives: a step count below 1, so that the property's count is taken, and
    no output buffer, so that the working buffer receives the result. *)
Definition SmoothData_default (this : ptr) : M unit :=
  SmoothData this (-1) None ;;; ret tt.

Definition SetActiveFrame (this : ptr) (nFrame : Z) : M unit :=
  let* o := deref this in
  let nFrame := if nFrame >=? m_nNumOfFrames o then 0 else nFrame in
  assign this (set_m_nActiveFrame nFrame) ;;;
  let* o := deref this in
  let* d := lift (memcpy (m_fData o)
                    (ptr_add (m_fDataRaw o) (CInt.mul (m_nActiveFrame o) (m_nDataSize o)))
                    (m_nDataSize o)) in
  assign this (set_m_fData (Some d)) ;;;
  let* o := deref this in
  let* u := lift (memcpy (m_fDataUnsmoothed o) (m_fData o) (m_nDataSize o)) in
  assign this (set_m_fDataUnsmoothed (Some u)) ;;;
  let* o := deref this in
  let* x0 := lift (read (m_fData o) 0) in
  let* r := lift (range_loop (m_fData o) 0 (Z.to_nat (m_nDataSize o)) (x0, x0)) in
  assign this (set_m_dMaxValue (fst r)) ;;;
  assign this (set_m_dMinValue (snd r)) ;;;
  let* prop := GetProperty this in
  if GetSmooth prop then SmoothData_default this else ret tt.

Definition GetRange (this : ptr) : M (float * float) :=
  let* o := deref this in
  if m_bComputeCorrelation o then ret ((-1)%float, 1%float)
  else ret (m_dMinValue o, m_dMaxValue o).

(** [InitializeData(data_buffer_in, nvertices, nframes)] *)
Definition InitializeData (this : ptr) (data_buffer_in : buffer)
    (nvertices nframes : Z) : M unit :=
  let* o := deref this in
  match m_surface o with
  | None => ret tt
  | Some _ =>
      assign this (set_m_nDataSize nvertices) ;;;
      assign this (set_m_nNumOfFrames nframes) ;;;
      assign this (set_m_fDataRaw data_buffer_in) ;;;
      match data_buffer_in with
      | None => ret tt
      | Some _ =>
          let* d := new_float (uninitialized ext) nvertices in
          assign this (set_m_fData (Some d)) ;;;
          let* u := new_float (uninitialized ext) nvertices in
          assign this (set_m_fDataUnsmoothed (Some u)) ;;;
          SetActiveFrame this 0 ;;;
          property_Reset (Reset ext) this ;;;
          (if 0 <=? nframes then ret tt else lift None) ;;;
          assign this (set_m_fCorrelationSourceData
                         (Some (repeat 0%float (Z.to_nat nframes)))) ;;;
          let* b := new_float (uninitialized ext) nframes in
          assign this (set_m_fCorrelationDataBuffer (Some b))
      end
  end.

(** [InitializeData()]: the data is the [val] field of the mesh vertices. *)
Definition InitializeData_from_surface (this : ptr) : M unit :=
  let* o := deref this in
  match m_surface o with
  | None => ret tt
  | Some surf =>
      assign this (set_m_nDataSize (mris_nvertices surf)) ;;;
      let* raw := new_float (uninitialized ext) (mris_nvertices surf) in
      assign this (set_m_fDataRaw (Some raw)) ;;;
      let* d := new_float (uninitialized ext) (mris_nvertices surf) in
      assign this (set_m_fData (Some d)) ;;;
      let* u := new_float (uninitialized ext) (mris_nvertices surf) in
      assign this (set_m_fDataUnsmoothed (Some u)) ;;;
      let vals := Some (mris_vertices_val surf) in
      let* v0 := lift (read vals 0) in
      let* o := deref this in
      let* dr := lift (fill_loop (read vals) 0 (Z.to_nat (m_nDataSize o))
                         (m_fData o) (v0, v0)) in
      assign this (set_m_fData (fst dr)) ;;;
      assign this (set_m_dMaxValue (fst (snd dr))) ;;;
      assign this (set_m_dMinValue (snd (snd dr))) ;;;
      let* o := deref this in
      let* raw := lift (memcpy (m_fDataRaw o) (m_fData o) (m_nDataSize o)) in
      assign this (set_m_fDataRaw (Some raw))
  end.

(** The constructor, run at the address [this] of the new object.
    [m_property] has no initializer and is assigned after [InitializeData()],
    which does not read it; the record carries a placeholder until then. *)
Definition new_SurfaceOverlay (this : ptr) (surf : option LayerSurface) : M unit :=
  (fun w => match overlays w !! this with
            | None =>
                Some (tt, set_overlays
                            (<[this :=
                               {| m_fData := None; m_fDataRaw := None;
                                  m_fDataUnsmoothed := None;
                                  m_dMaxValue := 0%float; m_dMinValue := 0%float;
                                  m_nDataSize := uninitialized_int ext;
                                  m_surface := surf; m_property := 1%positive;
                                  m_bCorrelationData := false;
                                  m_bCorrelationDataReady := uninitialized_bool ext;
                                  m_mriCorrelation := None; m_overlayPaired := None;
                                  m_nActiveFrame := 0; m_nNumOfFrames := 1;
                                  m_bComputeCorrelation := false;
                                  m_volumeCorrelationSource := None;
                                  m_fCorrelationSourceData := None;
                                  m_fCorrelationDataBuffer := None;
                                  signalsBlocked := false |}]> (overlays w)) w)
            | Some _ => None
            end) ;;;
  InitializeData_from_surface this ;;;
  let* p := new_property (new_SurfaceOverlayProperty ext) in
  assign this (set_m_property p).

(** The destructor.  The float arrays live in the object and go with it. *)
Definition delete_SurfaceOverlay (this : ptr) : M unit :=
  let* o := deref this in
  match m_overlayPaired o with
  | Some paired => assign paired (set_m_overlayPaired None)
  | None =>
      delete_property (m_property o) ;;;
      match m_mriCorrelation o with
      | Some mri => MRIfree mri
      | None => ret tt
      end
  end ;;;
  fun w => Some (tt, set_overlays (delete this (overlays w)) w).

Definition HasCorrelationData (this : ptr) : M bool :=
  let* o := deref this in ret (m_bCorrelationData o).

Definition CopyCorrelationData (this overlay : ptr) : M unit :=
  let* has := HasCorrelationData overlay in
  if negb has then ret tt
  else
    let* o := deref this in
    delete_property (m_property o) ;;;
    let* src := deref overlay in
    assign this (set_m_property (m_property src)) ;;;
    let* src := deref overlay in
    assign this (set_m_mriCorrelation (m_mriCorrelation src)) ;;;
    assign this (set_m_overlayPaired (Some overlay)) ;;;
    assign overlay (set_m_overlayPaired (Some this)) ;;;
    assign this (set_m_bCorrelationData true).

Definition LoadCorrelationData (this : ptr) (filename : string) : M bool :=
  match MRIreadHeader ext filename with
  | None =>
      cerr_print ("MRIread failed: unable to read from " ++ filename) ;;; ret false
  | Some mri =>
      let* o := deref this in
      if negb (width mri =? CInt.mul (m_nDataSize o) 2)
         || (negb (height mri =? 1)
             && negb (height mri =? CInt.mul (m_nDataSize o) 2))
         || (negb (nframes mri =? 1)
             && negb (nframes mri =? CInt.mul (m_nDataSize o) 2))
      then
        cerr_print "Correlation data does not match with surface" ;;; ret false
      else
        match MRIread ext filename with
        | None =>
            cerr_print ("MRIread failed: Unable to read from " ++ filename) ;;;
            ret false
        | Some mri =>
            let* a := new_volume mri in
            assign this (set_m_mriCorrelation (Some a)) ;;;
            assign this (set_m_bCorrelationData true) ;;;
            assign this (set_m_bCorrelationDataReady false) ;;;
            ret true
        end
  end.

(** [UpdateCorrelationAtVertex(nVertex, nHemisphere)].  The function calls
    itself on the paired overlay; [fuel] bounds the depth of these calls. *)
Fixpoint UpdateCorrelationAtVertex (fuel : nat) (this : ptr)
    (nVertex nHemisphere : Z) : M unit :=
  match fuel with
  | O => lift None
  | S fuel' =>
      let* o := deref this in
      let* surf := lift (m_surface o) in
      let nHemisphere :=
        if nHemisphere =? -1 then GetHemisphere surf else nHemisphere in
      let nVertexOffset := CInt.mul nHemisphere (m_nDataSize o) in
      let nDataOffset := CInt.mul (GetHemisphere surf) (m_nDataSize o) in
      let old_range := (m_dMaxValue o - m_dMinValue o)%float in
      let* mri := volume (m_mriCorrelation o) in
      let* x0 := lift (if 1 <? height mri
                       then MRIFseq_vox mri (CInt.add nVertex nVertexOffset)
                              nDataOffset 0 0
                       else MRIFseq_vox mri (CInt.add nVertex nVertexOffset)
                              0 0 nDataOffset) in
      let* dr := lift (fill_loop
                         (fun i =>
                            if 1 <? height mri
                            then MRIFseq_vox mri (CInt.add nVertex nVertexOffset)
                                   (CInt.add i nDataOffset) 0 0
                            else MRIFseq_vox mri (CInt.add nVertex nVertexOffset)
                                   0 0 (CInt.add i nDataOffset))
                         0 (Z.to_nat (m_nDataSize o)) (m_fData o) (x0, x0)) in
      assign this (set_m_fData (fst dr)) ;;;
      assign this (set_m_dMaxValue (fst (snd dr))) ;;;
      assign this (set_m_dMinValue (snd (snd dr))) ;;;
      let* o := deref this in
      let* raw := lift (memcpy (m_fDataRaw o) (m_fData o) (m_nDataSize o)) in
      assign this (set_m_fDataRaw (Some raw)) ;;;
      let* u := lift (memcpy (m_fDataUnsmoothed o) (m_fData o) (m_nDataSize o)) in
      assign this (set_m_fDataUnsmoothed (Some u)) ;;;
      let* prop := GetProperty this in
      (if GetSmooth prop then SmoothData_default this else ret tt) ;;;
      assign this (set_m_bCorrelationDataReady true) ;;;
      (if (old_range <=? 0)%float then property_Reset (Reset ext) this else ret tt) ;;;
      let* o := deref this in
      match m_overlayPaired o with
      | Some paired =>
          if nHemisphere =? GetHemisphere surf then
            blockSignals paired true ;;;
            UpdateCorrelationAtVertex fuel' paired nVertex nHemisphere ;;;
            blockSignals paired false
          else ret tt
      | None => ret tt
      end ;;;
      surface_UpdateOverlay this ;;;
      emit_DataUpdated this
  end.

Definition GetDataAtVertex (this : ptr) (nVertex : Z) : M float :=
  let* o := deref this in lift (read (m_fData o) nVertex).

(** [UpdateSmooth(false)]: the call made on a paired overlay, which goes no
    further. *)
Definition UpdateSmooth_untriggered (this : ptr) : M unit :=
  let* prop := GetProperty this in
  (if GetSmooth prop then SmoothData_default this
   else
     let* o := deref this in
     let* d := lift (memcpy (m_fData o) (m_fDataUnsmoothed o) (m_nDataSize o)) in
     assign this (set_m_fData (Some d))) ;;;
  surface_UpdateOverlay this ;;;
  emit_DataUpdated this.

Definition UpdateSmooth (this : ptr) (trigger_paired : bool) : M unit :=
  UpdateSmooth_untriggered this ;;;
  let* o := deref this in
  match m_overlayPaired o with
  | Some paired =>
      if trigger_paired then UpdateSmooth_untriggered paired else ret tt
  | None => ret tt
  end.

Definition UpdateCorrelationCoefficient (this : ptr) : M unit :=
  let* o := deref this in
  match m_volumeCorrelationSource o with
  | Some vol =>
      if m_bComputeCorrelation o && (GetNumberOfFrames vol =? m_nNumOfFrames o)
      then
        let* src := lift (fetch_frames vol 0 (Z.to_nat (GetNumberOfFrames vol))
                            (m_fCorrelationSourceData o)) in
        assign this (set_m_fCorrelationSourceData src) ;;;
        let* o := deref this in
        let* bd := lift (coefficient_loop (CalculateCorrelationCoefficient ext)
                           (m_fDataRaw o) (m_fCorrelationSourceData o)
                           (m_nDataSize o) (m_nNumOfFrames o)
                           0 (Z.to_nat (m_nDataSize o))
                           (m_fCorrelationDataBuffer o) (m_fData o)) in
        assign this (set_m_fCorrelationDataBuffer (fst bd)) ;;;
        assign this (set_m_fData (snd bd)) ;;;
        let* o := deref this in
        let* u := lift (memcpy (m_fDataUnsmoothed o) (m_fData o) (m_nDataSize o)) in
        assign this (set_m_fDataUnsmoothed (Some u)) ;;;
        let* prop := GetProperty this in
        (if GetSmooth prop then SmoothData_default this else ret tt) ;;;
        surface_UpdateOverlay this ;;;
        emit_DataUpdated this
      else ret tt
  | None => ret tt
  end.

Definition SetComputeCorrelation (this : ptr) (flag : bool) : M unit :=
  assign this (set_m_bComputeCorrelation flag) ;;;
  if flag then UpdateCorrelationCoefficient this
  else
    let* o := deref this in
    SetActiveFrame this (m_nActiveFrame o).

Definition SetCorrelationSourceVolume (this : ptr) (vol : LayerMRI) : M unit :=
  assign this (set_m_volumeCorrelationSource (Some vol)) ;;;
  UpdateCorrelationCoefficient this.

End Methods.

(** [MapOverlay(colordata)].  [MapOverlayColor] is the property object's
    [MapOverlayColor(data, colordata, n)], another function the file calls
    but does not define: it is given the property, the working buffer and
    the vertex count, and yields the new contents of [colordata]. *)
Definition MapOverlay
    (MapOverlayColor : SurfaceOverlayProperty -> buffer -> list Byte.byte -> Z ->
                       list Byte.byte)
    (this : ptr) (colordata : list Byte.byte) : M (list Byte.byte) :=
  let* o := deref this in
  if negb (m_bCorrelationData o) || m_bCorrelationDataReady o then
    let* prop := GetProperty this in
    ret (MapOverlayColor prop (m_fData o) colordata (m_nDataSize o))
  else ret colordata.

(** * Specification vocabulary *)

(** ** The order on floats

    [PrimFloat]'s comparisons are specified on [spec_float].  Away from NaN
    they order the values as the lexicographic order on a key made of the
    sign class, the exponent and the mantissa. *)

Definition float_key (x : spec_float) : Z * Z * Z :=
  match x with
  | S754_nan => (0, 0, 0)
  | S754_infinity true => (-2, 0, 0)
  | S754_infinity false => (2, 0, 0)
  | S754_zero _ => (0, 0, 0)
  | S754_finite true m e => (-1, - e, - Zpos m)
  | S754_finite false m e => (1, e, Zpos m)
  end.

Definition key_le (a b : Z * Z * Z) : Prop :=
  a.1.1 < b.1.1
  \/ (a.1.1 = b.1.1 /\ (a.1.2 < b.1.2 \/ (a.1.2 = b.1.2 /\ a.2 <= b.2))).

(** ** Frames and smoothing outcomes *)

(** Frame [k] of a frame-major buffer whose frames hold [N] values. *)
Definition frame_slice (raw : list float) (N k : Z) : list float :=
  take (Z.to_nat N) (drop (Z.to_nat (k * N)) raw).

(** The range the loop leaves when run over a whole buffer. *)
Definition range_of (l : list float) : float * float :=
  match l with
  | [] => (0%float, 0%float)
  | x0 :: _ => foldl (fun r x => update_range x r) (x0, x0) l
  end.

(** The property object an overlay points to. *)
Definition property_of (w : World) (this : ptr) : option SurfaceOverlayProperty :=
  match overlays w !! this with
  | Some o => properties w !! m_property o
  | None => None
  end.

(** The world in which the smoothing option of the overlay's property object
    has been switched to [b]. *)
Definition with_smoothing (b : bool) (this : ptr) (w : World) : World :=
  match overlays w !! this with
  | Some o =>
      match properties w !! m_property o with
      | Some p =>
          set_properties
            (<[m_property o := {| GetSmooth := b; GetSmoothSteps := GetSmoothSteps p |}]>
               (properties w)) w
      | None => w
      end
  | None => w
  end.

(** The user switches the smoothing option. *)
Definition switch_smoothing (b : bool) (this : ptr) : M unit :=
  fun w => Some (tt, with_smoothing b this w).

(** The reference signal: the frames of the source volume at its cursor. *)
Definition source_signal (vol : LayerMRI) (F : Z) : list float :=
  map (fun f => cursor_voxel_frame vol (Z.of_nat f)) (seq 0 (Z.to_nat F)).

(** The signal of vertex [i]: its value in every frame of [raw]. *)
Definition vertex_signal (raw : list float) (N F : Z) (i : nat) : list float :=
  map (fun j => default 0%float (raw !! (i + j * Z.to_nat N)%nat)) (seq 0 (Z.to_nat F)).

(** The coefficient of every vertex against the reference signal. *)
Definition correlation_values (ext : Externals) (vol : LayerMRI) (raw : list float)
    (N F : Z) : list float :=
  map (fun i => CalculateCorrelationCoefficient ext (source_signal vol F)
                  (vertex_signal raw N F i) F)
    (seq 0 (Z.to_nat N)).

(** The values [UpdateCorrelationAtVertex] reads for an overlay of [N]
    vertices on hemisphere [ownHemi], for the seed [nVertex] on hemisphere
    [seedHemi]: one line of the correlation volume, along its height when it
    has one and along its frames otherwise. *)
Definition correlation_row (mri : MRI) (N nVertex seedHemi ownHemi : Z) : list float :=
  map (fun i =>
         if 1 <? height mri
         then voxels mri (nVertex + seedHemi * N) (Z.of_nat i + ownHemi * N) 0 0
         else voxels mri (nVertex + seedHemi * N) 0 0 (Z.of_nat i + ownHemi * N))
    (seq 0 (Z.to_nat N)).

(** That line lies inside the volume, and its indices are [int]s. *)
Definition row_in_volume (mri : MRI) (N nVertex seedHemi ownHemi : Z) : Prop :=
  CInt.in_range (seedHemi * N)
  /\ 0 <= nVertex + seedHemi * N < width mri /\ width mri <= CInt.INT_MAX
  /\ 0 <= ownHemi * N /\ ownHemi * N + N <= CInt.INT_MAX
  /\ 0 < depth mri
  /\ (if 1 <? height mri
      then ownHemi * N + N <= height mri /\ 0 < nframes mri
      else height mri = 1 /\ ownHemi * N + N <= nframes mri).

(** The step count a call [SmoothData(nSteps_in, ...)] works with. *)
Definition requested_steps (w : World) (this : ptr) (nSteps_in : Z) : option Z :=
  if nSteps_in <? 1 then
    match property_of w this with
    | Some prop => Some (GetSmoothSteps prop)
    | None => None
    end
  else Some nSteps_in.

(** The dimensions of a volume fit a surface of [N] vertices. *)
Definition dimensions_match (mri : MRI) (N : Z) : Prop :=
  width mri = 2 * N
  /\ (height mri = 1 \/ height mri = 2 * N)
  /\ (nframes mri = 1 \/ nframes mri = 2 * N).

(** What the two external calls of [SmoothData] deliver for an unsmoothed
    buffer [u] of [N] values: the smoothed values, or [None] when either the
    intermediate volume or the smoothed volume is not obtained. *)
Definition smoothing_outcome (ext : Externals) (surf : LayerSurface)
    (u : list float) (N steps : Z) : option (list float) :=
  if MRIallocSequence ext N then
    match MRISsmoothMRI ext surf u steps with
    | Some smoothed => Some (map smoothed (seq 0 (Z.to_nat N)))
    | None => None
    end
  else None.

(** An overlay whose working and unsmoothed buffers have one value per
    vertex and whose mesh and property object are there. *)
Definition ready (w : World) (this : ptr) : Prop :=
  exists o d u surf prop,
    overlays w !! this = Some o
    /\ m_fData o = Some d /\ m_fDataUnsmoothed o = Some u
    /\ Z.of_nat (length d) = m_nDataSize o /\ Z.of_nat (length u) = m_nDataSize o
    /\ m_surface o = Some surf /\ properties w !! m_property o = Some prop.

(** The overlay paired with [o], if any, is another, ready overlay. *)
Definition paired_ready (w : World) (this : ptr) (o : SurfaceOverlay) : Prop :=
  match m_overlayPaired o with
  | Some paired => paired <> this /\ ready w paired
  | None => True
  end.

(** An overlay that holds loaded data: [raw] is its raw buffer, the working
    and unsmoothed buffers have one value per vertex, and the mesh and the
    property object are there. *)
Definition loaded (w : World) (this : ptr) (raw : list float) (N F : Z) : Prop :=
  exists o d u surf prop,
    overlays w !! this = Some o
    /\ m_fDataRaw o = Some raw /\ m_fData o = Some d /\ m_fDataUnsmoothed o = Some u
    /\ Z.of_nat (length d) = N /\ Z.of_nat (length u) = N
    /\ m_nDataSize o = N /\ m_nNumOfFrames o = F
    /\ m_surface o = Some surf /\ properties w !! m_property o = Some prop.

(** ** Minimum and maximum of a buffer

    The comparisons are those of the code; a NaN compares with nothing, so
    the bounds are over the values that are not NaN. *)

Definition is_minimum (m : float) (l : list float) : Prop :=
  m ∈ l /\ forall x, x ∈ l -> PrimFloat.is_nan x = false -> PrimFloat.leb m x = true.

Definition is_maximum (m : float) (l : list float) : Prop :=
  m ∈ l /\ forall x, x ∈ l -> PrimFloat.is_nan x = false -> PrimFloat.leb x m = true.

(** ** Examples

    A tetrahedral mesh: every vertex is a neighbour of the other three, so a
    step of neighbour averaging gives each vertex the mean of all values. *)

Definition tetrahedron (hemi : Z) : LayerSurface :=
  {| GetHemisphere := hemi; mris_nvertices := 4;
     mris_vertices_val := [0%float; 0%float; 0%float; 0%float] |}.

(** The same mesh with a value stored at each vertex. *)
Definition mesh_with_values : LayerSurface :=
  {| GetHemisphere := 0; mris_nvertices := 4;
     mris_vertices_val := [1%float; 2%float; 3%float; 4%float] |}.

Definition mean (u : list float) : float :=
  (foldl PrimFloat.add 0 u / PrimFloat.of_uint63 (Uint63.of_Z (Z.of_nat (length u))))%float.

Definition example_ext : Externals :=
  {| uninitialized := fun _ => 0%float;
     MRIallocSequence := fun _ => true;
     MRISsmoothMRI := fun _ u _ => Some (fun _ => mean u);
     MRIreadHeader := fun _ => None;
     MRIread := fun _ => None;
     CalculateCorrelationCoefficient := fun _ _ _ => 0%float;
     Reset := fun p _ _ => p;
     new_SurfaceOverlayProperty := {| GetSmooth := false; GetSmoothSteps := 1 |};
     uninitialized_bool := false;
     uninitialized_int := 0 |}.

Definition empty_world : World :=
  {| overlays := ∅; properties := ∅; volumes := ∅; released := [];
     cerr := []; notifications := []; next_object := 1%positive |}.

(** An overlay on the left hemisphere, as its constructor leaves it, at
    address [1], with its property object at address [1]. *)
Definition example_overlay : SurfaceOverlay :=
  {| m_fData := Some [0%float; 0%float; 0%float; 0%float];
     m_fDataRaw := Some [0%float; 0%float; 0%float; 0%float];
     m_fDataUnsmoothed := Some [0%float; 0%float; 0%float; 0%float];
     m_dMaxValue := 0%float; m_dMinValue := 0%float;
     m_nDataSize := 4;
     m_surface := Some (tetrahedron 0); m_property := 1%positive;
     m_bCorrelationData := false; m_bCorrelationDataReady := false;
     m_mriCorrelation := None; m_overlayPaired := None;
     m_nActiveFrame := 0; m_nNumOfFrames := 1;
     m_bComputeCorrelation := false;
     m_volumeCorrelationSource := None;
     m_fCorrelationSourceData := None;
     m_fCorrelationDataBuffer := None;
     signalsBlocked := false |}.

Definition example_world : World :=
  {| overlays := {[1%positive := example_overlay]};
     properties := {[1%positive := {| GetSmooth := false; GetSmoothSteps := 1 |}]};
     volumes := ∅; released := []; cerr := []; notifications := [];
     next_object := 2%positive |}.

(** The example overlay after [InitializeData] has loaded one frame. *)
Definition loaded_overlay : SurfaceOverlay :=
  {| m_fData := Some [0%float; 0%float; 0%float; 4%float];
     m_fDataRaw := Some [0%float; 0%float; 0%float; 4%float];
     m_fDataUnsmoothed := Some [0%float; 0%float; 0%float; 4%float];
     m_dMaxValue := 4%float; m_dMinValue := 0%float;
     m_nDataSize := 4;
     m_surface := Some (tetrahedron 0); m_property := 1%positive;
     m_bCorrelationData := false; m_bCorrelationDataReady := false;
     m_mriCorrelation := None; m_overlayPaired := None;
     m_nActiveFrame := 0; m_nNumOfFrames := 1;
     m_bComputeCorrelation := false;
     m_volumeCorrelationSource := None;
     m_fCorrelationSourceData := Some [0%float];
     m_fCorrelationDataBuffer := Some [0%float];
     signalsBlocked := false |}.

Definition loaded_world : World :=
  {| overlays := {[1%positive := loaded_overlay]};
     properties := {[1%positive := {| GetSmooth := false; GetSmoothSteps := 1 |}]};
     volumes := ∅; released := []; cerr := []; notifications := [];
     next_object := 2%positive |}.

(** Externals under which no intermediate volume can be allocated. *)
Definition out_of_memory_ext : Externals :=
  {| uninitialized := uninitialized example_ext;
     MRIallocSequence := fun _ => false;
     MRISsmoothMRI := MRISsmoothMRI example_ext;
     MRIreadHeader := MRIreadHeader example_ext;
     MRIread := MRIread example_ext;
     CalculateCorrelationCoefficient := CalculateCorrelationCoefficient example_ext;
     Reset := Reset example_ext;
     new_SurfaceOverlayProperty := new_SurfaceOverlayProperty example_ext;
     uninitialized_bool := false;
     uninitialized_int := 0 |}.

(** A file system with one volume file, of 5 x 1 x 1 voxels. *)
Definition one_file_ext : Externals :=
  {| uninitialized := uninitialized example_ext;
     MRIallocSequence := MRIallocSequence example_ext;
     MRISsmoothMRI := MRISsmoothMRI example_ext;
     MRIreadHeader := fun name =>
       if String.eqb name "overlay.mgh"
       then Some {| width := 5; height := 1; depth := 1; nframes := 1;
                    voxels := fun _ _ _ _ => 0%float |}
       else None;
     MRIread := fun name =>
       if String.eqb name "overlay.mgh"
       then Some {| width := 5; height := 1; depth := 1; nframes := 1;
                    voxels := fun x _ _ _ => PrimFloat.of_uint63 (Uint63.of_Z x) |}
       else None;
     CalculateCorrelationCoefficient := CalculateCorrelationCoefficient example_ext;
     Reset := Reset example_ext;
     new_SurfaceOverlayProperty := new_SurfaceOverlayProperty example_ext;
     uninitialized_bool := false;
     uninitialized_int := 0 |}.

(** Two hemispheres of four vertices each and their 8 x 8 correlation
    matrix; the value for a pair of vertices halves with each step between
    their indices. *)
Definition correlation_matrix : MRI :=
  {| width := 8; height := 8; depth := 1; nframes := 1;
     voxels := fun x y _ _ => Z.ldexp 1 (- Z.abs (x - y)) |}.

Definition correlation_ext : Externals :=
  {| uninitialized := uninitialized example_ext;
     MRIallocSequence := MRIallocSequence example_ext;
     MRISsmoothMRI := MRISsmoothMRI example_ext;
     MRIreadHeader := fun name =>
       if String.eqb name "correlation.mgh" then Some correlation_matrix else None;
     MRIread := fun name =>
       if String.eqb name "correlation.mgh" then Some correlation_matrix else None;
     CalculateCorrelationCoefficient := CalculateCorrelationCoefficient example_ext;
     Reset := Reset example_ext;
     new_SurfaceOverlayProperty := new_SurfaceOverlayProperty example_ext;
     uninitialized_bool := false;
     uninitialized_int := 0 |}.

(** The overlay [A] at address [1] on the left hemisphere has loaded the
    matrix; the overlay [B] at address [2] on the right hemisphere has copied
    the correlation data from [A]. *)
Definition paired_A : SurfaceOverlay :=
  {| m_fData := Some [0%float; 0%float; 0%float; 0%float];
     m_fDataRaw := Some [0%float; 0%float; 0%float; 0%float];
     m_fDataUnsmoothed := Some [0%float; 0%float; 0%float; 0%float];
     m_dMaxValue := 0%float; m_dMinValue := 0%float;
     m_nDataSize := 4;
     m_surface := Some (tetrahedron 0); m_property := 1%positive;
     m_bCorrelationData := true; m_bCorrelationDataReady := false;
     m_mriCorrelation := Some 3%positive; m_overlayPaired := Some 2%positive;
     m_nActiveFrame := 0; m_nNumOfFrames := 1;
     m_bComputeCorrelation := false;
     m_volumeCorrelationSource := None;
     m_fCorrelationSourceData := None;
     m_fCorrelationDataBuffer := None;
     signalsBlocked := false |}.

Definition paired_B : SurfaceOverlay :=
  {| m_fData := Some [0%float; 0%float; 0%float; 0%float];
     m_fDataRaw := Some [0%float; 0%float; 0%float; 0%float];
     m_fDataUnsmoothed := Some [0%float; 0%float; 0%float; 0%float];
     m_dMaxValue := 0%float; m_dMinValue := 0%float;
     m_nDataSize := 4;
     m_surface := Some (tetrahedron 1); m_property := 1%positive;
     m_bCorrelationData := true; m_bCorrelationDataReady := false;
     m_mriCorrelation := Some 3%positive; m_overlayPaired := Some 1%positive;
     m_nActiveFrame := 0; m_nNumOfFrames := 1;
     m_bComputeCorrelation := false;
     m_volumeCorrelationSource := None;
     m_fCorrelationSourceData := None;
     m_fCorrelationDataBuffer := None;
     signalsBlocked := false |}.

Definition paired_world : World :=
  {| overlays := {[1%positive := paired_A; 2%positive := paired_B]};
     properties := {[1%positive := {| GetSmooth := false; GetSmoothSteps := 1 |}]};
     volumes := {[3%positive := correlation_matrix]};
     released := [PropertyObject 2%positive]; cerr := []; notifications := [];
     next_object := 4%positive |}.


(** ** More vocabulary and examples *)

(** The overlay [SetActiveFrame k] leaves, before smoothing is applied. *)
Definition frame_selected (raw : list float) (N k : Z) (o : SurfaceOverlay)
  : SurfaceOverlay :=
  let slice := frame_slice raw N k in
  set_m_dMinValue (snd (range_of slice))
    (set_m_dMaxValue (fst (range_of slice))
       (set_m_fDataUnsmoothed (Some slice)
          (set_m_fData (Some slice) (set_m_nActiveFrame k o)))).

(** The overlay after the smoothing that follows an update: with the option
    on its working buffer holds the smoothed version of [u], or stays as it
    was when the smoother delivers nothing; with the option off the overlay
    is as it was. *)
Definition smoothed_or (ext : Externals) (surf : LayerSurface) (prop : SurfaceOverlayProperty)
    (u : list float) (N : Z) (o : SurfaceOverlay) : SurfaceOverlay :=
  if GetSmooth prop then
    match smoothing_outcome ext surf u N (GetSmoothSteps prop) with
    | Some d' => set_m_fData (Some d') o
    | None => o
    end
  else o.

(** The two overlays of [paired_world] before [B] copies the correlation
    data of [A]: [A] has loaded the matrix, and [B] still has its own
    property object, at address [2]. *)
Definition unpaired_A : SurfaceOverlay := set_m_overlayPaired None paired_A.

Definition unpaired_B : SurfaceOverlay :=
  set_m_bCorrelationData false
    (set_m_mriCorrelation None
       (set_m_property 2%positive (set_m_overlayPaired None paired_B))).

Definition unpaired_world : World :=
  {| overlays := {[1%positive := unpaired_A; 2%positive := unpaired_B]};
     properties := {[1%positive := {| GetSmooth := false; GetSmoothSteps := 1 |};
                     2%positive := {| GetSmooth := false; GetSmoothSteps := 1 |}]};
     volumes := {[3%positive := correlation_matrix]};
     released := []; cerr := []; notifications := [];
     next_object := 4%positive |}.

(** An overlay that holds two frames of four values and shows the first. *)
Definition two_frame_overlay : SurfaceOverlay :=
  {| m_fData := Some [1%float; 3%float; 2%float; 0%float];
     m_fDataRaw := Some [1%float; 3%float; 2%float; 0%float;
                         5%float; 4%float; 7%float; 6%float];
     m_fDataUnsmoothed := Some [1%float; 3%float; 2%float; 0%float];
     m_dMaxValue := 3%float; m_dMinValue := 0%float;
     m_nDataSize := 4;
     m_surface := Some (tetrahedron 0); m_property := 1%positive;
     m_bCorrelationData := false; m_bCorrelationDataReady := false;
     m_mriCorrelation := None; m_overlayPaired := None;
     m_nActiveFrame := 0; m_nNumOfFrames := 2;
     m_bComputeCorrelation := false;
     m_volumeCorrelationSource := None;
     m_fCorrelationSourceData := Some [0%float; 0%float];
     m_fCorrelationDataBuffer := Some [0%float; 0%float];
     signalsBlocked := false |}.

Definition two_frame_world (smooth : bool) : World :=
  {| overlays := {[1%positive := two_frame_overlay]};
     properties := {[1%positive := {| GetSmooth := smooth; GetSmoothSteps := 1 |}]};
     volumes := ∅; released := []; cerr := []; notifications := [];
     next_object := 2%positive |}.

(** A source volume of two frames whose signal under the cursor is constant,
    and the two-frame overlay with this volume as its correlation source. *)
Definition constant_volume : LayerMRI :=
  {| GetNumberOfFrames := 2; cursor_voxel_frame := fun _ => 1%float |}.

Definition sourced_overlay : SurfaceOverlay :=
  set_m_volumeCorrelationSource (Some constant_volume) two_frame_overlay.

Definition sourced_world : World :=
  set_overlays {[1%positive := sourced_overlay]} (two_frame_world false).

(** Externals whose coefficient is the sum of the products of the two
    signals, so that different vertices get different values. *)
Definition product_ext : Externals :=
  {| uninitialized := uninitialized example_ext;
     MRIallocSequence := MRIallocSequence example_ext;
     MRISsmoothMRI := MRISsmoothMRI example_ext;
     MRIreadHeader := MRIreadHeader example_ext;
     MRIread := MRIread example_ext;
     CalculateCorrelationCoefficient := fun x y _ =>
       foldl PrimFloat.add 0%float (zip_with PrimFloat.mul x y);
     Reset := Reset example_ext;
     new_SurfaceOverlayProperty := new_SurfaceOverlayProperty example_ext;
     uninitialized_bool := false;
     uninitialized_int := 0 |}.

(** The sourced overlay after compute-correlation mode has been enabled
    under [product_ext]: the buffers hold the coefficients, the cached range
    is still that of frame 0, and the redraw and [DataUpdated] have been
    announced. *)
Definition correlating_overlay : SurfaceOverlay :=
  {| m_fData := Some [6%float; 7%float; 9%float; 6%float];
     m_fDataRaw := Some [1%float; 3%float; 2%float; 0%float;
                         5%float; 4%float; 7%float; 6%float];
     m_fDataUnsmoothed := Some [6%float; 7%float; 9%float; 6%float];
     m_dMaxValue := 3%float; m_dMinValue := 0%float;
     m_nDataSize := 4;
     m_surface := Some (tetrahedron 0); m_property := 1%positive;
     m_bCorrelationData := false; m_bCorrelationDataReady := false;
     m_mriCorrelation := None; m_overlayPaired := None;
     m_nActiveFrame := 0; m_nNumOfFrames := 2;
     m_bComputeCorrelation := true;
     m_volumeCorrelationSource := Some constant_volume;
     m_fCorrelationSourceData := Some [1%float; 1%float];
     m_fCorrelationDataBuffer := Some [0%float; 6%float];
     signalsBlocked := false |}.

Definition correlating_world : World :=
  {| overlays := {[1%positive := correlating_overlay]};
     properties := {[1%positive := {| GetSmooth := false; GetSmoothSteps := 1 |}]};
     volumes := ∅; released := []; cerr := [];
     notifications := [DataUpdated 1%positive; SurfaceUpdateOverlay 1%positive];
     next_object := 2%positive |}.
(** * Properties *)

(** ** Machine integers *)

Lemma wrap_in_range x : CInt.in_range x -> CInt.wrap x = x.
Proof.
  unfold CInt.in_range, CInt.INT_MIN, CInt.INT_MAX, CInt.wrap. intros H.
  rewrite Z.mod_small; lia.
Qed.

(** ** The order on floats *)

Module FloatOrder.

Ltac compare_cases :=
  repeat match goal with
    | |- context [Z.compare ?a ?b] => destruct (Z.compare_spec a b)
    | |- context [Pos.compare_cont Eq ?a ?b] =>
        change (Pos.compare_cont Eq a b) with (Pos.compare a b);
        destruct (Pos.compare_spec a b)
    end.

Ltac by_cases x y :=
  let mx := fresh "m" in let ex := fresh "e" in
  let my := fresh "m" in let ey := fresh "e" in
  destruct x as [[]|[]| |[] mx ex], y as [[]|[]| |[] my ey]; simpl; try congruence.

Lemma SFleb_key x y :
  x <> S754_nan -> y <> S754_nan ->
  SFleb x y = true <-> key_le (float_key x) (float_key y).
Proof.
  intros Hx Hy. unfold SFleb, SFcompare, key_le.
  by_cases x y; compare_cases; simpl;
    (split; [intros ?; try discriminate; lia | intros ?; try reflexivity; lia]).
Qed.

Lemma SFltb_key x y :
  x <> S754_nan -> y <> S754_nan ->
  SFltb x y = false <-> key_le (float_key y) (float_key x).
Proof.
  intros Hx Hy. unfold SFltb, SFcompare, key_le.
  by_cases x y; compare_cases; simpl;
    (split; [intros ?; try discriminate; lia | intros ?; try reflexivity; lia]).
Qed.

Lemma SFleb_not_nan x y : SFleb x y = true -> x <> S754_nan /\ y <> S754_nan.
Proof.
  unfold SFleb, SFcompare.
  by_cases x y; try discriminate; intros _; split; discriminate.
Qed.

Lemma SFltb_SFleb x y : SFltb x y = true -> SFleb x y = true.
Proof. unfold SFltb, SFleb. destruct (SFcompare x y) as [[]|]; congruence. Qed.

Lemma is_nan_spec x : PrimFloat.is_nan x = false <-> Prim2SF x <> S754_nan.
Proof.
  unfold PrimFloat.is_nan. rewrite FloatAxioms.eqb_spec. unfold SFeqb, SFcompare.
  destruct (Prim2SF x) as [[]|[]| |[] m e]; simpl;
    try (split; [discriminate | reflexivity]); try (split; congruence).
  all: rewrite Z.compare_refl;
    change (Pos.compare_cont Eq m m) with (Pos.compare m m);
    rewrite Pos.compare_refl; simpl; split; congruence.
Qed.

Lemma leb_not_nan x y :
  PrimFloat.leb x y = true -> PrimFloat.is_nan x = false /\ PrimFloat.is_nan y = false.
Proof.
  rewrite leb_spec, !is_nan_spec. apply SFleb_not_nan.
Qed.

Lemma ltb_leb x y : PrimFloat.ltb x y = true -> PrimFloat.leb x y = true.
Proof. rewrite ltb_spec, leb_spec. apply SFltb_SFleb. Qed.

Lemma not_ltb_leb x y :
  PrimFloat.is_nan x = false -> PrimFloat.is_nan y = false ->
  PrimFloat.ltb x y = false -> PrimFloat.leb y x = true.
Proof.
  rewrite !is_nan_spec, ltb_spec, leb_spec. intros Hx Hy H.
  apply SFleb_key; [done..|]. by apply SFltb_key.
Qed.

Lemma leb_refl x : PrimFloat.is_nan x = false -> PrimFloat.leb x x = true.
Proof.
  rewrite is_nan_spec, leb_spec. intros Hx.
  apply SFleb_key; [done..|]. unfold key_le. lia.
Qed.

Lemma leb_trans x y z :
  PrimFloat.leb x y = true -> PrimFloat.leb y z = true -> PrimFloat.leb x z = true.
Proof.
  rewrite !leb_spec. intros Hxy Hyz.
  destruct (SFleb_not_nan _ _ Hxy) as [Hx Hy].
  destruct (SFleb_not_nan _ _ Hyz) as [_ Hz].
  apply SFleb_key in Hxy; [|done..]. apply SFleb_key in Hyz; [|done..].
  apply SFleb_key; [done..|]. unfold key_le in *. lia.
Qed.

End FloatOrder.


(** ** Buffers *)

Lemma memcpy_whole (d s : list float) (n : Z) :
  Z.of_nat (length d) = n -> n <= Z.of_nat (length s) ->
  memcpy (Some d) (Some s) n = Some (take (Z.to_nat n) s).
Proof.
  intros Hd Hs. unfold memcpy.
  replace ((0 <=? n) && (n <=? Z.of_nat (length d)) && (n <=? Z.of_nat (length s)))
    with true by (symmetry; rewrite !andb_true_iff, !Z.leb_le; lia).
  rewrite drop_ge by lia. by rewrite app_nil_r.
Qed.

Lemma memcpy_same_length (d s : list float) (n : Z) :
  Z.of_nat (length d) = n -> Z.of_nat (length s) = n ->
  memcpy (Some d) (Some s) n = Some s.
Proof.
  intros Hd Hs. rewrite memcpy_whole by lia. by rewrite take_ge by lia.
Qed.

Lemma ptr_add_in_bounds (l : list float) (off : Z) :
  0 <= off <= Z.of_nat (length l) ->
  ptr_add (Some l) off = Some (drop (Z.to_nat off) l).
Proof.
  intros H. unfold ptr_add.
  by replace ((0 <=? off) && (off <=? Z.of_nat (length l)))
    with true by (symmetry; rewrite andb_true_iff, !Z.leb_le; lia).
Qed.

Lemma read_nat (l : list float) (i : nat) : read (Some l) (Z.of_nat i) = l !! i.
Proof.
  unfold read. replace (0 <=? Z.of_nat i) with true by (symmetry; apply Z.leb_le; lia).
  by rewrite Nat2Z.id.
Qed.

(** ** The range loop *)

Lemma range_loop_foldl (l : list float) (n i : nat) (r : float * float) :
  (i + n <= length l)%nat ->
  range_loop (Some l) (Z.of_nat i) n r
  = Some (foldl (fun r x => update_range x r) r (take n (drop i l))).
Proof.
  revert i r. induction n as [|n IH]; intros i r Hlen.
  - reflexivity.
  - cbn [range_loop]. rewrite read_nat.
    destruct (lookup_lt_is_Some_2 l i) as [x Hx]; [lia|].
    rewrite Hx. rewrite (drop_S _ _ _ Hx). cbn [take foldl].
    replace (Z.of_nat i + 1) with (Z.of_nat (S i)) by lia.
    apply IH. lia.
Qed.

Lemma update_range_cases (x : float) (r : float * float) :
  PrimFloat.is_nan (fst r) = false -> PrimFloat.is_nan (snd r) = false ->
  PrimFloat.leb (snd r) (fst r) = true ->
  let r' := update_range x r in
  PrimFloat.is_nan (fst r') = false /\ PrimFloat.is_nan (snd r') = false
  /\ PrimFloat.leb (snd r') (fst r') = true
  /\ PrimFloat.leb (snd r') (snd r) = true /\ PrimFloat.leb (fst r) (fst r') = true
  /\ (fst r' = fst r \/ fst r' = x) /\ (snd r' = snd r \/ snd r' = x)
  /\ (PrimFloat.is_nan x = false ->
      PrimFloat.leb (snd r') x = true /\ PrimFloat.leb x (fst r') = true).
Proof.
  destruct r as [mx mn]. cbn [fst snd]. intros Hmx Hmn Hle.
  unfold update_range, gtb. cbn [fst snd].
  destruct (PrimFloat.ltb mx x) eqn:H1.
  - apply FloatOrder.ltb_leb in H1. destruct (FloatOrder.leb_not_nan _ _ H1) as [_ Hx].
    cbn [fst snd]. repeat split; eauto using FloatOrder.leb_refl, FloatOrder.leb_trans.
  - destruct (PrimFloat.ltb x mn) eqn:H2.
    + apply FloatOrder.ltb_leb in H2. destruct (FloatOrder.leb_not_nan _ _ H2) as [Hx _].
      cbn [fst snd].
      repeat split; eauto using FloatOrder.leb_refl, FloatOrder.leb_trans.
    + cbn [fst snd].
      repeat split; eauto using FloatOrder.leb_refl, FloatOrder.not_ltb_leb.
Qed.

Lemma update_range_foldl (xs : list float) (r : float * float) :
  PrimFloat.is_nan (fst r) = false -> PrimFloat.is_nan (snd r) = false ->
  PrimFloat.leb (snd r) (fst r) = true ->
  let r' := foldl (fun r x => update_range x r) r xs in
  PrimFloat.leb (snd r') (snd r) = true /\ PrimFloat.leb (fst r) (fst r') = true
  /\ (fst r' = fst r \/ fst r' ∈ xs) /\ (snd r' = snd r \/ snd r' ∈ xs)
  /\ (forall x, x ∈ xs -> PrimFloat.is_nan x = false ->
      PrimFloat.leb (snd r') x = true /\ PrimFloat.leb x (fst r') = true).
Proof.
  revert r. induction xs as [|x xs IH]; intros r Hmx Hmn Hle; cbn [foldl].
  - split; [by apply FloatOrder.leb_refl|]. split; [by apply FloatOrder.leb_refl|].
    split; [by left|]. split; [by left|].
    intros y Hy. by apply elem_of_nil in Hy.
  - destruct (update_range_cases x r Hmx Hmn Hle)
      as (Hmx1 & Hmn1 & Hle1 & Hdn & Hup & Hfst & Hsnd & Hx).
    destruct (IH _ Hmx1 Hmn1 Hle1) as (Hdn' & Hup' & Hfst' & Hsnd' & Hall).
    split; [eauto using FloatOrder.leb_trans|].
    split; [eauto using FloatOrder.leb_trans|].
    split.
    { destruct Hfst' as [-> | ?]; [|right; apply elem_of_cons; by right].
      destruct Hfst as [-> | ->]; [by left | right; apply elem_of_cons; by left]. }
    split.
    { destruct Hsnd' as [-> | ?]; [|right; apply elem_of_cons; by right].
      destruct Hsnd as [-> | ->]; [by left | right; apply elem_of_cons; by left]. }
    intros y Hy Hnan. apply elem_of_cons in Hy as [-> | Hy]; [|by apply Hall].
    destruct (Hx Hnan). eauto using FloatOrder.leb_trans.
Qed.

(** Started at a first element that is not NaN, the loop leaves the maximum
    and the minimum of the values. *)
Lemma range_of_slice (x0 : float) (xs : list float) :
  PrimFloat.is_nan x0 = false ->
  let r := foldl (fun r x => update_range x r) (x0, x0) (x0 :: xs) in
  is_maximum (fst r) (x0 :: xs) /\ is_minimum (snd r) (x0 :: xs).
Proof.
  intros Hx0.
  destruct (update_range_foldl (x0 :: xs) (x0, x0)) as (_ & _ & Hfst & Hsnd & Hall);
    [done | done | by apply FloatOrder.leb_refl |].
  cbn [fst snd] in *. split; split.
  - destruct Hfst as [-> | ?]; [apply elem_of_cons; by left | done].
  - intros x Hx Hnan. by apply Hall.
  - destruct Hsnd as [-> | ?]; [apply elem_of_cons; by left | done].
  - intros x Hx Hnan. by apply Hall.
Qed.

(** ** Running computations *)

Lemma bind_deref {B} this o (k : SurfaceOverlay -> M B) w :
  overlays w !! this = Some o -> bind (deref this) k w = k o w.
Proof. intros H. unfold bind, deref. by rewrite H. Qed.

Lemma bind_assign {B} this f o (k : unit -> M B) w :
  overlays w !! this = Some o ->
  bind (assign this f) k w = k tt (set_overlays (<[this := f o]> (overlays w)) w).
Proof. intros H. unfold bind, assign. by rewrite H. Qed.

Lemma bind_GetProperty {B} this o p (k : SurfaceOverlayProperty -> M B) w :
  overlays w !! this = Some o -> properties w !! m_property o = Some p ->
  bind (GetProperty this) k w = k p w.
Proof. intros Ho Hp. unfold GetProperty, bind, deref. by rewrite Ho, Hp. Qed.

Lemma bind_lift_Some {A B} (a : A) (k : A -> M B) w : bind (lift (Some a)) k w = k a w.
Proof. reflexivity. Qed.

Lemma bind_ret {A B} (a : A) (k : A -> M B) w : bind (ret a) k w = k a w.
Proof. reflexivity. Qed.

Lemma bind_bind {A B C} (m : M A) (k : A -> M B) (k' : B -> M C) w :
  bind (bind m k) k' w = bind m (fun a => bind (k a) k') w.
Proof. unfold bind. by destruct (m w) as [[]|]. Qed.

Lemma bind_run {A B} (m : M A) (k : A -> M B) w a w' :
  m w = Some (a, w') -> bind m k w = k a w'.
Proof. intros H. unfold bind. by rewrite H. Qed.

Lemma bind_notify {B} n (k : unit -> M B) w :
  bind (notify n) k w = k tt (set_notifications (n :: notifications w) w).
Proof. reflexivity. Qed.

Lemma bind_cerr_print {B} line (k : unit -> M B) w :
  bind (cerr_print line) k w = k tt (set_cerr (line :: cerr w) w).
Proof. reflexivity. Qed.

Lemma bind_observe {A B} this (f : SurfaceOverlay -> A) o (k : A -> M B) w :
  overlays w !! this = Some o -> bind (observe this f) k w = k (f o) w.
Proof. intros H. unfold bind, observe. by rewrite H. Qed.

Lemma bind_switch_smoothing {B} b this (k : unit -> M B) w :
  bind (switch_smoothing b this) k w = k tt (with_smoothing b this w).
Proof. reflexivity. Qed.

Lemma set_overlays_twice m m' w : set_overlays m (set_overlays m' w) = set_overlays m w.
Proof. reflexivity. Qed.

Lemma set_overlays_id w this o :
  overlays w !! this = Some o -> set_overlays (<[this := o]> (overlays w)) w = w.
Proof. intros H. rewrite insert_id by done. by destruct w. Qed.

Ltac lookup_solver :=
  cbn [overlays properties volumes set_overlays set_properties set_volumes
       set_released set_cerr set_notifications set_next_object];
  first [ eassumption
        | apply lookup_insert_eq
        | rewrite lookup_insert_ne by done; eassumption ].

Ltac step_lemmas :=
  first [ rewrite bind_bind
        | rewrite bind_ret
        | rewrite bind_lift_Some
        | rewrite bind_notify
        | rewrite bind_cerr_print
        | erewrite bind_GetProperty; [|solve [lookup_solver]..]
        | erewrite bind_deref; [|solve [lookup_solver]]
        | erewrite bind_assign; [|solve [lookup_solver]] ].

(** One statement of a member function is run; calls of other member
    functions are left folded. *)
Ltac step :=
  with_strategy opaque
    [GetProperty emit_DataUpdated surface_UpdateOverlay blockSignals property_Reset
     new_float new_property new_volume delete_property MRIfree volume
     SmoothData SmoothData_default SetActiveFrame GetRange InitializeData
     InitializeData_from_surface HasCorrelationData CopyCorrelationData
     LoadCorrelationData UpdateCorrelationAtVertex GetDataAtVertex
     UpdateSmooth_untriggered UpdateSmooth UpdateCorrelationCoefficient
     SetComputeCorrelation SetCorrelationSourceVolume observe switch_smoothing]
    step_lemmas.

Ltac fields :=
  cbn [m_fData m_fDataRaw m_fDataUnsmoothed m_dMaxValue m_dMinValue m_nDataSize
       m_surface m_property m_bCorrelationData m_bCorrelationDataReady m_mriCorrelation
       m_overlayPaired m_nActiveFrame m_nNumOfFrames m_bComputeCorrelation
       m_volumeCorrelationSource m_fCorrelationSourceData m_fCorrelationDataBuffer
       signalsBlocked set_m_fData set_m_fDataRaw set_m_fDataUnsmoothed set_m_dMaxValue
       set_m_dMinValue set_m_nDataSize set_m_property set_m_bCorrelationData
       set_m_bCorrelationDataReady set_m_mriCorrelation set_m_overlayPaired
       set_m_nActiveFrame set_m_nNumOfFrames set_m_bComputeCorrelation
       set_m_volumeCorrelationSource set_m_fCorrelationSourceData
       set_m_fCorrelationDataBuffer set_signalsBlocked] in *.

Ltac collapse :=
  cbn [overlays properties volumes released cerr notifications next_object
       set_overlays set_properties set_volumes set_released set_cerr
       set_notifications set_next_object];
  rewrite ?set_overlays_twice, ?insert_insert_eq.

(** ** SmoothData *)

Section SmoothDataFacts.

Variable ext : Externals.

Lemma SmoothData_default_run w this o d u surf prop :
  overlays w !! this = Some o ->
  m_fData o = Some d -> m_fDataUnsmoothed o = Some u ->
  Z.of_nat (length d) = m_nDataSize o -> Z.of_nat (length u) = m_nDataSize o ->
  m_surface o = Some surf -> properties w !! m_property o = Some prop ->
  SmoothData_default ext this w
  = Some (tt, match smoothing_outcome ext surf u (m_nDataSize o) (GetSmoothSteps prop) with
              | Some d' => set_overlays (<[this := set_m_fData (Some d') o]> (overlays w)) w
              | None => set_cerr ("Can not allocate mri" :: cerr w) w
              end).
Proof.
  intros Ho Hd Hu Hld Hlu Hs Hp.
  unfold SmoothData_default, SmoothData, smoothing_outcome.
  do 2 step. rewrite Hs, Hd, Hu.
  destruct (MRIallocSequence ext (m_nDataSize o)); cbn [negb]; [|reflexivity].
  rewrite memcpy_same_length by (rewrite ?repeat_length; lia).
  cbn [Z.ltb Z.compare]. repeat step.
  destruct (MRISsmoothMRI ext surf u (GetSmoothSteps prop)) as [f|]; [|reflexivity].
  rewrite memcpy_same_length by (rewrite ?length_map, ?length_seq; lia).
  repeat step. reflexivity.
Qed.

End SmoothDataFacts.

(** ** SetActiveFrame *)

Section SetActiveFrameFacts.

Variable ext : Externals.

Lemma frame_slice_length (raw : list float) (N k : Z) :
  0 <= N -> 0 <= k -> k * N + N <= Z.of_nat (length raw) ->
  Z.of_nat (length (frame_slice raw N k)) = N.
Proof.
  intros HN Hk Hlen. unfold frame_slice. rewrite length_take, length_drop. nia.
Qed.

Lemma range_loop_whole (l : list float) (x0 : float) :
  l !! 0%nat = Some x0 ->
  range_loop (Some l) 0 (length l) (x0, x0) = Some (range_of l).
Proof.
  intros H0. change 0 with (Z.of_nat 0). rewrite range_loop_foldl by (simpl; lia).
  rewrite drop_0, firstn_all. destruct l; [done|]. by injection H0 as ->.
Qed.

(** The frame selected by [SetActiveFrame k]. *)
Lemma SetActiveFrame_run w this o raw d u surf prop k :
  overlays w !! this = Some o ->
  m_fDataRaw o = Some raw -> m_fData o = Some d -> m_fDataUnsmoothed o = Some u ->
  Z.of_nat (length d) = m_nDataSize o -> Z.of_nat (length u) = m_nDataSize o ->
  m_surface o = Some surf -> properties w !! m_property o = Some prop ->
  0 < m_nDataSize o ->
  let k' := if k >=? m_nNumOfFrames o then 0 else k in
  0 <= k' -> k' * m_nDataSize o + m_nDataSize o <= Z.of_nat (length raw) ->
  k' * m_nDataSize o <= CInt.INT_MAX ->
  let slice := frame_slice raw (m_nDataSize o) k' in
  let o' := set_m_dMinValue (snd (range_of slice))
              (set_m_dMaxValue (fst (range_of slice))
                 (set_m_fDataUnsmoothed (Some slice)
                    (set_m_fData (Some slice) (set_m_nActiveFrame k' o)))) in
  SetActiveFrame ext this k w
  = Some (tt,
          if GetSmooth prop then
            match smoothing_outcome ext surf slice (m_nDataSize o)
                    (GetSmoothSteps prop) with
            | Some d' =>
                set_overlays (<[this := set_m_fData (Some d') o']> (overlays w)) w
            | None =>
                set_cerr ("Can not allocate mri" :: cerr w)
                  (set_overlays (<[this := o']> (overlays w)) w)
            end
          else set_overlays (<[this := o']> (overlays w)) w).
Proof.
  intros Ho Hraw Hd Hu Hld Hlu Hs Hp HN k' Hk Hlen Hint slice o'.
  assert (Hsl : Z.of_nat (length slice) = m_nDataSize o)
    by (apply frame_slice_length; lia).
  unfold SetActiveFrame. do 3 step. fold k'. fields.
  rewrite Hraw, Hd. unfold CInt.mul.
  rewrite wrap_in_range by (unfold CInt.in_range, CInt.INT_MIN; nia).
  rewrite ptr_add_in_bounds by nia.
  rewrite memcpy_whole by (rewrite ?length_drop; nia).
  fold (frame_slice raw (m_nDataSize o) k'). fold slice.
  do 3 step. fields. rewrite Hu, memcpy_same_length by lia.
  do 3 step. fields.
  destruct (lookup_lt_is_Some_2 slice 0%nat) as [x0 Hx0]; [lia|].
  change 0 with (Z.of_nat 0) at 1. rewrite read_nat, Hx0. step.
  replace (Z.to_nat (m_nDataSize o)) with (length slice) by lia.
  rewrite (range_loop_whole _ _ Hx0).
  do 3 step. collapse. fold o'.
  erewrite bind_GetProperty; [|lookup_solver|fields; lookup_solver].
  destruct (GetSmooth prop); [|reflexivity].
  rewrite (SmoothData_default_run ext _ this o' slice slice surf prop);
    [|first [lookup_solver | unfold o'; fields; first [reflexivity | lia | eassumption]]..].
  replace (m_nDataSize o') with (m_nDataSize o) by reflexivity.
  by destruct (smoothing_outcome _ _ _ _ _); collapse.
Qed.

End SetActiveFrameFacts.

(** ** InitializeData *)

Section InitializeDataFacts.

Variable ext : Externals.

Lemma bind_property_Reset {B} reset this o p (k : unit -> M B) w :
  overlays w !! this = Some o -> properties w !! m_property o = Some p ->
  bind (property_Reset reset this) k w
  = k tt (set_properties
            (<[m_property o := reset p (m_dMaxValue o) (m_dMinValue o)]> (properties w))
            w).
Proof.
  intros Ho Hp. unfold property_Reset. repeat step. reflexivity.
Qed.

Lemma smoothing_outcome_length surf u N steps d :
  smoothing_outcome ext surf u N steps = Some d -> 0 <= N -> Z.of_nat (length d) = N.
Proof.
  unfold smoothing_outcome. intros H HN.
  destruct (MRIallocSequence ext N); [|done].
  destruct (MRISsmoothMRI ext surf u steps); [|done].
  injection H as <-. rewrite length_map, length_seq. lia.
Qed.

Lemma bind_new_float {B} garbage n (k : list float -> M B) w :
  0 <= n -> bind (new_float garbage n) k w = k (map garbage (seq 0 (Z.to_nat n))) w.
Proof.
  intros Hn. unfold new_float.
  by replace (0 <=? n) with true by (symmetry; apply Z.leb_le; lia).
Qed.

Lemma InitializeData_loads w this o surf prop raw N F :
  overlays w !! this = Some o ->
  m_surface o = Some surf -> properties w !! m_property o = Some prop ->
  0 < N -> 0 <= F -> N <= Z.of_nat (length raw) ->
  exists w1, InitializeData ext this (Some raw) N F w = Some (tt, w1)
             /\ loaded w1 this raw N F.
Proof.
  intros Ho Hs Hp HN HF Hlen. unfold InitializeData.
  step. rewrite Hs. cbv beta iota.
  repeat first [step | rewrite bind_new_float by lia]. collapse.
  set (garbage := map (uninitialized ext) (seq 0 (Z.to_nat N))).
  assert (Hg : Z.of_nat (length garbage) = N)
    by (unfold garbage; rewrite length_map, length_seq; lia).
  match goal with
  | |- context [<[this := ?x]> (overlays w)] => set (o0 := x)
  end.
  erewrite bind_run; cycle 1.
  { apply (SetActiveFrame_run ext _ this o0 raw garbage garbage surf prop 0);
      try first [ lookup_solver
                | unfold o0; fields; first [reflexivity | lia | eassumption] ].
    all: unfold o0, CInt.INT_MAX; fields; destruct (0 >=? F); lia. }
  replace (0 <=? F) with true by (symmetry; apply Z.leb_le; lia).
  replace (m_nDataSize o0) with N by reflexivity.
  replace (if 0 >=? m_nNumOfFrames o0 then 0 else 0) with 0
    by (by destruct (0 >=? m_nNumOfFrames o0)).
  assert (Hsl : Z.of_nat (length (frame_slice raw N 0)) = N)
    by (apply frame_slice_length; lia).
  set (slice := frame_slice raw N 0) in *.
  destruct (GetSmooth prop);
    [destruct (smoothing_outcome ext surf slice N (GetSmoothSteps prop)) as [sm|] eqn:Hsm|].
  all: erewrite bind_property_Reset;
    [|lookup_solver|unfold o0; fields; lookup_solver].
  all: repeat first [step | rewrite bind_new_float by lia].
  all: unfold assign; collapse; rewrite lookup_insert_eq.
  all: eexists; split; [reflexivity|].
  all: unfold loaded; collapse; rewrite lookup_insert_eq.
  all: do 5 eexists; split; [reflexivity|]; unfold o0; fields.
  all: rewrite lookup_insert_eq.
  all: repeat split; try reflexivity; try lia; try eassumption.
  eapply smoothing_outcome_length; [exact Hsm | lia].
Qed.

End InitializeDataFacts.

(** ** Frame selection *)

(** C1 (amended).  After [InitializeData] has loaded raw data of [N]x[F]
    values ([N > 0], [F >= 1], the product within [int]) and [SetActiveFrame k]
    is called with [0 <= k < F] while smoothing is disabled, the working buffer
    is the slice [raw[k*N .. k*N+N)], the unsmoothed buffer equals the working
    buffer, and, provided the first value of the slice is not NaN, the cached
    minimum and maximum are the minimum and the maximum of the slice's values
    that are not NaN. *)
Theorem SetActiveFrame_selects_frame ext w this o surf prop raw N F k :
  overlays w !! this = Some o ->
  m_surface o = Some surf -> properties w !! m_property o = Some prop ->
  0 < N -> 1 <= F -> Z.of_nat (length raw) = N * F -> N * F <= CInt.INT_MAX ->
  0 <= k < F ->
  exists w1 prop1,
    InitializeData ext this (Some raw) N F w = Some (tt, w1)
    /\ property_of w1 this = Some prop1
    /\ (GetSmooth prop1 = false ->
        exists w2 o2,
          SetActiveFrame ext this k w1 = Some (tt, w2)
          /\ overlays w2 !! this = Some o2
          /\ m_fDataRaw o2 = Some raw
          /\ m_fData o2 = Some (frame_slice raw N k)
          /\ m_fDataUnsmoothed o2 = m_fData o2
          /\ (forall x0, frame_slice raw N k !! 0%nat = Some x0 ->
                         PrimFloat.is_nan x0 = false ->
               is_minimum (m_dMinValue o2) (frame_slice raw N k)
               /\ is_maximum (m_dMaxValue o2) (frame_slice raw N k))).
Proof.
  intros Ho Hs Hp HN HF Hlen Hint Hk.
  destruct (InitializeData_loads ext w this o surf prop raw N F) as (w1 & Hrun & Hld);
    [done | done | done | lia | lia | nia |].
  destruct Hld as (o1 & d & u & surf1 & prop1 & Ho1 & Hraw & Hd & Hu & Hdl & Hul
                   & HN1 & HF1 & Hs1 & Hp1).
  exists w1, prop1. split; [done|]. split; [unfold property_of; by rewrite Ho1|].
  intros Hsmooth.
  assert (Hclamp : (if k >=? m_nNumOfFrames o1 then 0 else k) = k).
  { rewrite HF1. destruct (k >=? F) eqn:E; [|done]. apply Z.geb_le in E. lia. }
  pose proof (SetActiveFrame_run ext w1 this o1 raw d u surf1 prop1 k
                Ho1 Hraw Hd Hu) as Hrun2.
  rewrite Hclamp, HN1, Hsmooth in Hrun2. cbv zeta in Hrun2.
  rewrite Hrun2 by first [done | lia | nia].
  eexists _, _. split; [reflexivity|]. split; [collapse; apply lookup_insert_eq|].
  fields. split; [done|]. split; [done|]. split; [done|].
  intros x0 Hx0 Hnan. destruct (frame_slice raw N k) as [|y ys]; [done|].
  injection Hx0 as ->. destruct (range_of_slice x0 ys Hnan). by split.
Qed.

Lemma SetActiveFrame_selects_frame_witness :
  exists w1 prop1,
    InitializeData example_ext 1%positive
      (Some [1; 3; 2; 0; 5; 4; 7; 6]%float) 4 2 example_world = Some (tt, w1)
    /\ property_of w1 1%positive = Some prop1
    /\ (GetSmooth prop1 = false ->
        exists w2 o2,
          SetActiveFrame example_ext 1%positive 1 w1 = Some (tt, w2)
          /\ overlays w2 !! 1%positive = Some o2
          /\ m_fDataRaw o2 = Some [1; 3; 2; 0; 5; 4; 7; 6]%float
          /\ m_fData o2 = Some (frame_slice [1; 3; 2; 0; 5; 4; 7; 6]%float 4 1)
          /\ m_fDataUnsmoothed o2 = m_fData o2
          /\ (forall x0,
                frame_slice [1; 3; 2; 0; 5; 4; 7; 6]%float 4 1 !! 0%nat = Some x0 ->
                PrimFloat.is_nan x0 = false ->
               is_minimum (m_dMinValue o2) (frame_slice [1; 3; 2; 0; 5; 4; 7; 6]%float 4 1)
               /\ is_maximum (m_dMaxValue o2)
                    (frame_slice [1; 3; 2; 0; 5; 4; 7; 6]%float 4 1))).
Proof.
  eapply (SetActiveFrame_selects_frame example_ext example_world 1%positive).
  - vm_compute; reflexivity.
  - vm_compute; reflexivity.
  - vm_compute; reflexivity.
  - lia.
  - lia.
  - reflexivity.
  - vm_compute; discriminate.
  - lia.
Defined.

(** A slice that starts with a NaN: both cached bounds stay NaN, which is
    below no value and above none.  A NaN further on is passed over instead:
    the bounds of [1, NaN, 2] are 1 and 2. *)
Lemma SetActiveFrame_range_first_nan :
  result (InitializeData example_ext 1%positive (Some [nan; 1; 2]%float) 3 1 ;;;
          let* prop := GetProperty 1%positive in
          SetActiveFrame example_ext 1%positive 0 ;;;
          let* o := deref 1%positive in
          ret (GetSmooth prop, m_fData o, m_dMinValue o, m_dMaxValue o))
    example_world
  = Some (false, Some (frame_slice [nan; 1; 2]%float 3 0), nan, nan)
  /\ ~ is_minimum nan (frame_slice [nan; 1; 2]%float 3 0)
  /\ ~ is_maximum nan (frame_slice [nan; 1; 2]%float 3 0)
  /\ result (InitializeData example_ext 1%positive (Some [1; nan; 2]%float) 3 1 ;;;
             let* prop := GetProperty 1%positive in
             SetActiveFrame example_ext 1%positive 0 ;;;
             let* o := deref 1%positive in
             ret (GetSmooth prop, m_fData o, m_dMinValue o, m_dMaxValue o))
       example_world
     = Some (false, Some (frame_slice [1; nan; 2]%float 3 0), 1%float, 2%float).
Proof.
  split; [vm_compute; reflexivity|].
  split; [|split; [|vm_compute; reflexivity]].
  all: intros [_ Hb]; specialize (Hb 1%float).
  all: assert (Hin : 1%float ∈ frame_slice [nan; 1; 2]%float 3 0)
    by (apply elem_of_cons; right; apply elem_of_cons; by left).
  all: specialize (Hb Hin eq_refl); vm_compute in Hb; discriminate.
Qed.

(** C6 (amended).  For every frame index [k >= F], [SetActiveFrame k] behaves
    exactly as [SetActiveFrame 0]: on an overlay with loaded data it returns
    normally with frame 0 active and the buffers holding frame 0.  (Negative
    indices are not clamped.) *)
Theorem SetActiveFrame_clamps_to_zero ext w this o raw N F k :
  overlays w !! this = Some o -> m_nNumOfFrames o <= k ->
  SetActiveFrame ext this k w = SetActiveFrame ext this 0 w
  /\ (loaded w this raw N F -> 0 < N -> N <= Z.of_nat (length raw) ->
      exists w' o',
        SetActiveFrame ext this k w = Some (tt, w')
        /\ overlays w' !! this = Some o'
        /\ m_nActiveFrame o' = 0
        /\ m_fDataUnsmoothed o' = Some (frame_slice raw N 0)).
Proof.
  intros Ho Hk.
  assert (Heq : SetActiveFrame ext this k w = SetActiveFrame ext this 0 w).
  { unfold SetActiveFrame. rewrite !(bind_deref _ _ _ _ Ho).
    replace (k >=? m_nNumOfFrames o) with true by (symmetry; apply Z.geb_le; lia).
    by destruct (0 >=? m_nNumOfFrames o). }
  split; [done|].
  intros (o1 & d & u & surf & prop & Ho1 & Hraw & Hd & Hu & Hdl & Hul & HN1 & HF1
          & Hs & Hp) HN Hlen.
  rewrite Ho in Ho1. injection Ho1 as <-.
  pose proof (SetActiveFrame_run ext w this o raw d u surf prop 0 Ho Hraw Hd Hu) as Hrun.
  replace (if 0 >=? m_nNumOfFrames o then 0 else 0) with 0 in Hrun
    by (by destruct (0 >=? m_nNumOfFrames o)).
  rewrite HN1 in Hrun. cbv zeta in Hrun.
  rewrite Heq, Hrun by first [done | unfold CInt.INT_MAX; lia].
  destruct (GetSmooth prop);
    [destruct (smoothing_outcome ext surf _ N (GetSmoothSteps prop))|].
  all: eexists _, _; split; [reflexivity|]; collapse.
  all: split; [apply lookup_insert_eq|]; fields; by split.
Qed.

Lemma SetActiveFrame_clamps_to_zero_witness :
  SetActiveFrame example_ext 1%positive 5 example_world
  = SetActiveFrame example_ext 1%positive 0 example_world
  /\ (loaded example_world 1%positive [0; 0; 0; 0]%float 4 1 -> 0 < 4 ->
      4 <= Z.of_nat (length [0; 0; 0; 0]%float) ->
      exists w' o',
        SetActiveFrame example_ext 1%positive 5 example_world = Some (tt, w')
        /\ overlays w' !! 1%positive = Some o'
        /\ m_nActiveFrame o' = 0
        /\ m_fDataUnsmoothed o' = Some (frame_slice [0; 0; 0; 0]%float 4 0)).
Proof.
  eapply (SetActiveFrame_clamps_to_zero example_ext example_world 1%positive).
  - vm_compute; reflexivity.
  - vm_compute; discriminate.
Defined.

(** A negative index is stored as it is, and the copy starts before the raw
    buffer. *)
Lemma SetActiveFrame_negative_index :
  result (InitializeData example_ext 1%positive
            (Some [1; 3; 2; 0; 5; 4; 7; 6]%float) 4 2 ;;;
          SetActiveFrame example_ext 1%positive (-1)) example_world = None
  /\ result (InitializeData example_ext 1%positive
               (Some [1; 3; 2; 0; 5; 4; 7; 6]%float) 4 2 ;;;
             SetActiveFrame example_ext 1%positive 0) example_world = Some tt.
Proof. split; vm_compute; reflexivity. Qed.

(** ** Range reporting *)

(** C2 (amended).  [GetRange] reports exactly [-1, 1] whenever
    compute-correlation mode is enabled, and otherwise reports the cached
    minimum and maximum.  After [SetActiveFrame] these are the minimum and
    maximum of the frame's slice, which is the unsmoothed buffer; it is the
    working buffer too while smoothing is disabled (with smoothing enabled the
    working buffer holds the smoothed values and the cached range is not
    recomputed from them). *)
Theorem GetRange_reports ext w this o :
  overlays w !! this = Some o ->
  (m_bComputeCorrelation o = true ->
   GetRange this w = Some (((-1)%float, 1%float), w))
  /\ (m_bComputeCorrelation o = false ->
      GetRange this w = Some ((m_dMinValue o, m_dMaxValue o), w))
  /\ (forall raw N F k x0,
        loaded w this raw N F -> m_bComputeCorrelation o = false ->
        0 < N -> 0 <= k < F -> Z.of_nat (length raw) = N * F -> N * F <= CInt.INT_MAX ->
        frame_slice raw N k !! 0%nat = Some x0 -> PrimFloat.is_nan x0 = false ->
        exists w' o' prop mn mx,
          SetActiveFrame ext this k w = Some (tt, w')
          /\ overlays w' !! this = Some o' /\ property_of w' this = Some prop
          /\ GetRange this w' = Some ((mn, mx), w')
          /\ m_fDataUnsmoothed o' = Some (frame_slice raw N k)
          /\ is_minimum mn (frame_slice raw N k)
          /\ is_maximum mx (frame_slice raw N k)
          /\ (GetSmooth prop = false -> m_fData o' = Some (frame_slice raw N k))).
Proof.
  intros Ho. split; [|split].
  - intros Hc. unfold GetRange. step. by rewrite Hc.
  - intros Hc. unfold GetRange. step. by rewrite Hc.
  - intros raw N F k x0
      (o1 & d & u & surf & prop & Ho1 & Hraw & Hd & Hu & Hdl & Hul & HN1 & HF1 & Hs & Hp)
      Hc HN Hk Hlen Hint Hx0 Hnan.
    rewrite Ho in Ho1. injection Ho1 as <-.
    assert (Hclamp : (if k >=? m_nNumOfFrames o then 0 else k) = k).
    { rewrite HF1. destruct (k >=? F) eqn:E; [|done]. apply Z.geb_le in E. lia. }
    pose proof (SetActiveFrame_run ext w this o raw d u surf prop k Ho Hraw Hd Hu) as Hrun.
    rewrite Hclamp, HN1 in Hrun. cbv zeta in Hrun.
    rewrite Hrun by first [done | lia | nia]. clear Hrun.
    assert (Hrange : is_maximum (fst (range_of (frame_slice raw N k))) (frame_slice raw N k)
                     /\ is_minimum (snd (range_of (frame_slice raw N k)))
                          (frame_slice raw N k)).
    { destruct (frame_slice raw N k) as [|y ys]; [done|].
      injection Hx0 as ->. by apply range_of_slice. }
    destruct Hrange as [Hmax Hmin].
    destruct (GetSmooth prop) eqn:Hsm;
      [destruct (smoothing_outcome ext surf _ N (GetSmoothSteps prop))|].
    all: eexists _, _, prop, _, _; split; [reflexivity|].
    all: unfold property_of, GetRange; collapse; rewrite lookup_insert_eq; fields.
    all: split; [reflexivity|]; split; [done|].
    all: step; fields; rewrite Hc.
    all: split; [reflexivity|]; split; [reflexivity|].
    all: split; [exact Hmin|]; split; [exact Hmax|]; intros ?; fields; congruence.
Qed.

(** The state [correlating_world] is the one the code reaches: enabling the
    mode on the sourced two-frame overlay. *)
Lemma correlating_world_enabled :
  SetComputeCorrelation product_ext 1%positive true sourced_world
  = Some (tt, correlating_world).
Proof. vm_compute. reflexivity. Qed.

Lemma GetRange_reports_witness :
  GetRange 1%positive correlating_world
  = Some (((-1)%float, 1%float), correlating_world)
  /\ GetRange 1%positive (two_frame_world true)
     = Some ((m_dMinValue two_frame_overlay, m_dMaxValue two_frame_overlay),
             two_frame_world true)
  /\ (exists w' o' prop mn mx,
        SetActiveFrame example_ext 1%positive 1 (two_frame_world false) = Some (tt, w')
        /\ overlays w' !! 1%positive = Some o' /\ property_of w' 1%positive = Some prop
        /\ GetRange 1%positive w' = Some ((mn, mx), w')
        /\ m_fDataUnsmoothed o' = Some (frame_slice [1; 3; 2; 0; 5; 4; 7; 6]%float 4 1)
        /\ is_minimum mn (frame_slice [1; 3; 2; 0; 5; 4; 7; 6]%float 4 1)
        /\ is_maximum mx (frame_slice [1; 3; 2; 0; 5; 4; 7; 6]%float 4 1)
        /\ (GetSmooth prop = false -> m_fData o' = Some (frame_slice [1; 3; 2; 0; 5; 4; 7; 6]%float 4 1)))
  /\ (exists w' o' prop mn mx,
        SetActiveFrame example_ext 1%positive 1 (two_frame_world true) = Some (tt, w')
        /\ overlays w' !! 1%positive = Some o' /\ property_of w' 1%positive = Some prop
        /\ GetRange 1%positive w' = Some ((mn, mx), w')
        /\ m_fDataUnsmoothed o' = Some (frame_slice [1; 3; 2; 0; 5; 4; 7; 6]%float 4 1)
        /\ is_minimum mn (frame_slice [1; 3; 2; 0; 5; 4; 7; 6]%float 4 1)
        /\ is_maximum mx (frame_slice [1; 3; 2; 0; 5; 4; 7; 6]%float 4 1)
        /\ (GetSmooth prop = false -> m_fData o' = Some (frame_slice [1; 3; 2; 0; 5; 4; 7; 6]%float 4 1))).
Proof.
  split.
  { apply (GetRange_reports example_ext correlating_world 1%positive correlating_overlay);
      reflexivity. }
  split.
  { apply (GetRange_reports example_ext (two_frame_world true) 1%positive
             two_frame_overlay); reflexivity. }
  split.
  - apply (GetRange_reports example_ext (two_frame_world false) 1%positive
             two_frame_overlay eq_refl) with (F := 2) (x0 := 5%float).
    + exists two_frame_overlay, [1; 3; 2; 0]%float, [1; 3; 2; 0]%float, (tetrahedron 0),
        {| GetSmooth := false; GetSmoothSteps := 1 |}.
      repeat split; reflexivity.
    + reflexivity.
    + lia.
    + lia.
    + reflexivity.
    + vm_compute; discriminate.
    + reflexivity.
    + reflexivity.
  - apply (GetRange_reports example_ext (two_frame_world true) 1%positive
             two_frame_overlay eq_refl) with (F := 2) (x0 := 5%float).
    + exists two_frame_overlay, [1; 3; 2; 0]%float, [1; 3; 2; 0]%float, (tetrahedron 0),
        {| GetSmooth := true; GetSmoothSteps := 1 |}.
      repeat split; reflexivity.
    + reflexivity.
    + lia.
    + lia.
    + reflexivity.
    + vm_compute; discriminate.
    + reflexivity.
    + reflexivity.
Defined.

(** With smoothing switched on, the working buffer holds the smoothed values
    while [GetRange] still reports the range of the unsmoothed frame. *)
Lemma GetRange_after_smoothing :
  result (InitializeData example_ext 1%positive (Some [0; 0; 0; 4]%float) 4 1 ;;;
          switch_smoothing true 1%positive ;;;
          UpdateSmooth example_ext 1%positive true ;;;
          let* range := GetRange 1%positive in
          let* o := deref 1%positive in
          ret (m_bComputeCorrelation o, range, m_fData o))
    example_world
  = Some (false, (0%float, 4%float), Some [1; 1; 1; 1]%float)
  /\ ~ is_minimum 0%float [1; 1; 1; 1]%float
  /\ ~ is_maximum 4%float [1; 1; 1; 1]%float.
Proof.
  split; [vm_compute; reflexivity|].
  split; intros [Hin _]; repeat (apply elem_of_cons in Hin as [Hin | Hin]; [discriminate|]);
    by apply elem_of_nil in Hin.
Qed.

Lemma example_world_constructed :
  new_SurfaceOverlay example_ext 1%positive (Some (tetrahedron 0)) empty_world
  = Some (tt, example_world).
Proof. vm_compute. reflexivity. Qed.

(** ** Smoothing *)

Section SmoothingFacts.

Variable ext : Externals.

Lemma set_m_fData_same o d : m_fData o = Some d -> set_m_fData (Some d) o = o.
Proof. destruct o. cbn. by intros ->. Qed.

Lemma overlays_with_smoothing b this w : overlays (with_smoothing b this w) = overlays w.
Proof.
  unfold with_smoothing. destruct (overlays w !! this) as [o|]; [|done].
  by destruct (properties w !! m_property o).
Qed.

Lemma properties_with_smoothing b this w o p :
  overlays w !! this = Some o -> properties w !! m_property o = Some p ->
  properties (with_smoothing b this w)
  = <[m_property o := {| GetSmooth := b; GetSmoothSteps := GetSmoothSteps p |}]>
      (properties w).
Proof. intros Ho Hp. unfold with_smoothing. by rewrite Ho, Hp. Qed.

Lemma ready_with_smoothing b this w q : ready w q -> ready (with_smoothing b this w) q.
Proof.
  intros (oq & dq & uq & surf & prop & Hq & Hd & Hu & Hdl & Hul & Hs & Hp).
  unfold ready. rewrite overlays_with_smoothing.
  unfold with_smoothing. destruct (overlays w !! this) as [o|]; [|by eauto 12].
  destruct (properties w !! m_property o) as [p|] eqn:Hpo; [|by eauto 12].
  destruct (decide (m_property o = m_property oq)) as [E|E].
  - eexists oq, dq, uq, surf, _. repeat split; try done.
    cbn. rewrite E. apply lookup_insert_eq.
  - eexists oq, dq, uq, surf, prop. repeat split; try done.
    cbn. by rewrite lookup_insert_ne.
Qed.

(** [UpdateSmooth(false)] on a ready overlay. *)
Lemma UpdateSmooth_untriggered_run w q oq dq uq surf prop :
  overlays w !! q = Some oq ->
  m_fData oq = Some dq -> m_fDataUnsmoothed oq = Some uq ->
  Z.of_nat (length dq) = m_nDataSize oq -> Z.of_nat (length uq) = m_nDataSize oq ->
  m_surface oq = Some surf -> properties w !! m_property oq = Some prop ->
  exists w' d',
    UpdateSmooth_untriggered ext q w = Some (tt, w')
    /\ overlays w' = <[q := set_m_fData (Some d') oq]> (overlays w)
    /\ properties w' = properties w
    /\ Z.of_nat (length d') = m_nDataSize oq
    /\ d' = (if GetSmooth prop then
               match smoothing_outcome ext surf uq (m_nDataSize oq) (GetSmoothSteps prop) with
               | Some sm => sm
               | None => dq
               end
             else uq).
Proof.
  intros Hq Hd Hu Hdl Hul Hs Hp.
  unfold UpdateSmooth_untriggered, surface_UpdateOverlay, emit_DataUpdated.
  step. destruct (GetSmooth prop) eqn:Hsm.
  - erewrite bind_run;
      [|by apply (SmoothData_default_run ext w q oq dq uq surf prop)].
    destruct (smoothing_outcome ext surf uq (m_nDataSize oq) (GetSmoothSteps prop))
      as [sm|] eqn:Hout.
    + repeat step. fields. rewrite Hs. repeat step. fields.
      destruct (signalsBlocked oq); eexists _, sm; (split; [reflexivity|]).
      all: split; [done|]; split; [done|]; split; [|done].
      all: eapply smoothing_outcome_length; [exact Hout | lia].
    + repeat step. rewrite Hs. repeat step.
      destruct (signalsBlocked oq); eexists _, dq; (split; [reflexivity|]).
      all: split; [|done].
      all: cbn; by rewrite (set_m_fData_same _ _ Hd), (insert_id _ _ _ Hq).
  - repeat step. rewrite Hd, Hu, memcpy_same_length by lia. repeat step.
    fields. rewrite Hs. repeat step. fields. collapse.
    destruct (signalsBlocked oq); eexists _, uq; (split; [reflexivity|]); done.
Qed.

(** [UpdateSmooth(true)] on a ready overlay whose paired overlay, if any,
    is ready: the working buffer becomes the smoothed values, or the
    unsmoothed snapshot when smoothing is off. *)
Lemma UpdateSmooth_run w this o d u surf prop :
  overlays w !! this = Some o ->
  m_fData o = Some d -> m_fDataUnsmoothed o = Some u ->
  Z.of_nat (length d) = m_nDataSize o -> Z.of_nat (length u) = m_nDataSize o ->
  m_surface o = Some surf -> properties w !! m_property o = Some prop ->
  paired_ready w this o ->
  exists w' d',
    UpdateSmooth ext this true w = Some (tt, w')
    /\ overlays w' !! this = Some (set_m_fData (Some d') o)
    /\ properties w' = properties w
    /\ Z.of_nat (length d') = m_nDataSize o
    /\ d' = (if GetSmooth prop then
               match smoothing_outcome ext surf u (m_nDataSize o) (GetSmoothSteps prop) with
               | Some sm => sm
               | None => d
               end
             else u)
    /\ paired_ready w' this (set_m_fData (Some d') o).
Proof.
  intros Ho Hd Hu Hdl Hul Hs Hp Hpair.
  destruct (UpdateSmooth_untriggered_run w this o d u surf prop)
    as (w1 & d1 & Hrun1 & Hov1 & Hpr1 & Hlen1 & Hd1); try done.
  unfold UpdateSmooth. erewrite bind_run by exact Hrun1.
  erewrite bind_deref by (rewrite Hov1; apply lookup_insert_eq).
  unfold paired_ready in *. fields.
  destruct (m_overlayPaired o) as [q|].
  - destruct Hpair as (Hne & oq & dq & uq & surfq & propq & Hq & Hdq & Huq & Hdlq
                       & Hulq & Hsq & Hpq).
    destruct (UpdateSmooth_untriggered_run w1 q oq dq uq surfq propq)
      as (w2 & d2 & Hrun2 & Hov2 & Hpr2 & Hlen2 & Hd2); try done.
    { rewrite Hov1. by rewrite lookup_insert_ne. }
    { by rewrite Hpr1. }
    exists w2, d1. split; [exact Hrun2|].
    split; [rewrite Hov2, Hov1, lookup_insert_ne by done; apply lookup_insert_eq|].
    split; [congruence|]. split; [done|]. split; [done|].
    split; [done|].
    exists (set_m_fData (Some d2) oq), d2, uq, surfq, propq.
    rewrite Hov2, lookup_insert_eq. fields. repeat split; try done. congruence.
  - exists w1, d1. split; [done|].
    split; [rewrite Hov1; apply lookup_insert_eq|]. done.
Qed.

Lemma paired_ready_with_smoothing b this w o :
  paired_ready w this o -> paired_ready (with_smoothing b this w) this o.
Proof.
  unfold paired_ready. destruct (m_overlayPaired o); [|done].
  intros [Hne Hr]. split; [done|]. by apply ready_with_smoothing.
Qed.

End SmoothingFacts.

(** Switching smoothing on overwrites the working buffer with the smoothed
    values; switching it off again copies the unsmoothed snapshot [u] back,
    whatever it holds.  The working buffer is restored to its former values
    [d] exactly when the snapshot had been taken from them ([u = d]). *)
Lemma UpdateSmooth_on_then_off ext w this o d u surf prop :
  overlays w !! this = Some o ->
  m_fData o = Some d -> m_fDataUnsmoothed o = Some u ->
  Z.of_nat (length d) = m_nDataSize o -> Z.of_nat (length u) = m_nDataSize o ->
  m_surface o = Some surf -> properties w !! m_property o = Some prop ->
  paired_ready w this o ->
  exists w1 o1 w2 o2,
    UpdateSmooth ext this true (with_smoothing true this w) = Some (tt, w1)
    /\ overlays w1 !! this = Some o1
    /\ m_fData o1 = Some match smoothing_outcome ext surf u (m_nDataSize o)
                               (GetSmoothSteps prop) with
                         | Some smoothed => smoothed
                         | None => d
                         end
    /\ m_fDataUnsmoothed o1 = Some u
    /\ UpdateSmooth ext this true (with_smoothing false this w1) = Some (tt, w2)
    /\ overlays w2 !! this = Some o2
    /\ m_fData o2 = Some u.
Proof.
  intros Ho Hd Hu Hdl Hul Hs Hp Hpair.
  destruct (UpdateSmooth_run ext (with_smoothing true this w) this o d u surf
              {| GetSmooth := true; GetSmoothSteps := GetSmoothSteps prop |})
    as (w1 & d1 & Hrun1 & Ho1 & Hpr1 & Hlen1 & Hd1 & Hpair1); try done.
  { by rewrite overlays_with_smoothing. }
  { rewrite (properties_with_smoothing _ _ _ _ _ Ho Hp). apply lookup_insert_eq. }
  { by apply paired_ready_with_smoothing. }
  cbn [GetSmooth GetSmoothSteps] in Hd1.
  assert (Hp1 : properties w1 !! m_property (set_m_fData (Some d1) o)
                = Some {| GetSmooth := true; GetSmoothSteps := GetSmoothSteps prop |}).
  { rewrite Hpr1, (properties_with_smoothing _ _ _ _ _ Ho Hp). apply lookup_insert_eq. }
  destruct (UpdateSmooth_run ext (with_smoothing false this w1) this
              (set_m_fData (Some d1) o) d1 u surf
              {| GetSmooth := false; GetSmoothSteps := GetSmoothSteps prop |})
    as (w2 & d2 & Hrun2 & Ho2 & Hpr2 & Hlen2 & Hd2 & Hpair2); try done.
  { by rewrite overlays_with_smoothing. }
  { rewrite (properties_with_smoothing _ _ _ _ _ Ho1 Hp1). apply lookup_insert_eq. }
  { by apply paired_ready_with_smoothing. }
  cbn [GetSmooth] in Hd2. subst d2.
  exists w1, (set_m_fData (Some d1) o), w2, (set_m_fData (Some u) (set_m_fData (Some d1) o)).
  fields. subst d1. repeat split; done.
Qed.

Lemma loaded_world_initialized :
  InitializeData example_ext 1%positive (Some [0; 0; 0; 4]%float) 4 1 example_world
  = Some (tt, loaded_world).
Proof. vm_compute. reflexivity. Qed.

(** The overlay loaded by [InitializeData(data, nvertices, nframes)] has its
    snapshot in step with its data: there the working buffer comes back. *)
Lemma UpdateSmooth_on_then_off_loaded :
  exists w1 o1 w2 o2,
    UpdateSmooth example_ext 1%positive true (with_smoothing true 1%positive loaded_world)
    = Some (tt, w1)
    /\ overlays w1 !! 1%positive = Some o1
    /\ m_fData o1 = Some [1; 1; 1; 1]%float
    /\ UpdateSmooth example_ext 1%positive true (with_smoothing false 1%positive w1)
       = Some (tt, w2)
    /\ overlays w2 !! 1%positive = Some o2
    /\ m_fData o2 = m_fData loaded_overlay.
Proof.
  destruct (UpdateSmooth_on_then_off example_ext loaded_world 1%positive loaded_overlay
              [0; 0; 0; 4]%float [0; 0; 0; 4]%float (tetrahedron 0)
              {| GetSmooth := false; GetSmoothSteps := 1 |})
    as (w1 & o1 & w2 & o2 & H1 & H2 & H3 & _ & H5 & H6 & H7);
    try (vm_compute; reflexivity).
  exists w1, o1, w2, o2. by repeat split.
Qed.

(** C4.  The claim that switching smoothing on and then off restores the
    working buffer to its former values, evaluated on an overlay whose data
    was loaded from the mesh by the constructor ([InitializeData()]).  The
    constructor allocates the unsmoothed buffer and never fills it, so what
    comes back is the content of that fresh array, not the values [1, 2, 3, 4]
    the working buffer held. *)
Theorem UpdateSmooth_after_construction ext :
  result (new_SurfaceOverlay ext 1%positive (Some mesh_with_values) ;;;
          let* before := observe 1%positive m_fData in
          switch_smoothing true 1%positive ;;;
          UpdateSmooth ext 1%positive true ;;;
          switch_smoothing false 1%positive ;;;
          UpdateSmooth ext 1%positive true ;;;
          let* after := observe 1%positive m_fData in
          ret (before, after)) empty_world
  = Some (Some [1; 2; 3; 4]%float, Some (map (uninitialized ext) (seq 0 4))).
Proof.
  assert (Hnew : exists w o,
             new_SurfaceOverlay ext 1%positive (Some mesh_with_values) empty_world
             = Some (tt, w)
             /\ overlays w !! 1%positive = Some o
             /\ m_fData o = Some [1; 2; 3; 4]%float
             /\ m_fDataUnsmoothed o = Some (map (uninitialized ext) (seq 0 4))
             /\ m_nDataSize o = 4 /\ m_surface o = Some mesh_with_values
             /\ m_overlayPaired o = None
             /\ properties w !! m_property o = Some (new_SurfaceOverlayProperty ext)).
  { eexists _, _. split; [vm_compute; reflexivity|].
    split; [vm_compute; reflexivity|]. repeat split; vm_compute; reflexivity. }
  destruct Hnew as (w & o & Hnew & Ho & Hd & Hu & HN & Hs & Hpair & Hp).
  destruct (UpdateSmooth_on_then_off ext w 1%positive o [1; 2; 3; 4]%float
              (map (uninitialized ext) (seq 0 4)) mesh_with_values
              (new_SurfaceOverlayProperty ext))
    as (w1 & o1 & w2 & o2 & Hrun1 & Ho1 & _ & _ & Hrun2 & Ho2 & Hafter);
    try first [done | by rewrite HN, ?length_map | by (unfold paired_ready; rewrite Hpair)].
  unfold result.
  rewrite (bind_run _ _ _ _ _ Hnew), (bind_observe _ _ _ _ _ Ho).
  rewrite bind_switch_smoothing, (bind_run _ _ _ _ _ Hrun1).
  rewrite bind_switch_smoothing, (bind_run _ _ _ _ _ Hrun2).
  rewrite (bind_observe _ _ _ _ _ Ho2). by rewrite Hd, Hafter.
Qed.

(** C8.  When the intermediate volume cannot be allocated, or the smoothing
    operator returns no volume, [SmoothData] writes its diagnostic line and
    returns; no overlay has changed, so the working buffer is untouched. *)
Theorem SmoothData_failure_leaves_data ext w this nSteps_in data_out o :
  overlays w !! this = Some o ->
  (MRIallocSequence ext (m_nDataSize o) = false
   \/ exists u surf steps,
        m_fDataUnsmoothed o = Some u
        /\ 0 <= m_nDataSize o <= Z.of_nat (length u)
        /\ m_surface o = Some surf
        /\ requested_steps w this nSteps_in = Some steps
        /\ MRISsmoothMRI ext surf (take (Z.to_nat (m_nDataSize o)) u) steps = None) ->
  exists w',
    SmoothData ext this nSteps_in data_out w = Some (data_out, w')
    /\ cerr w' = "Can not allocate mri"%string :: cerr w
    /\ overlays w' = overlays w
    /\ result (observe this m_fData) w' = Some (m_fData o).
Proof.
  intros Ho Hfail. unfold SmoothData. step.
  assert (Hobs : forall c, result (observe this m_fData) (set_cerr c w) = Some (m_fData o)).
  { intros c. unfold result, observe. cbn. by rewrite Ho. }
  destruct (MRIallocSequence ext (m_nDataSize o)) eqn:Halloc; cbn [negb].
  - destruct Hfail as [? | (u & surf & steps & Hu & Hlen & Hs & Hsteps & Hnone)]; [done|].
    rewrite Hu, memcpy_whole by (rewrite ?repeat_length; lia). step.
    unfold requested_steps, property_of in Hsteps. rewrite Ho in Hsteps.
    destruct (nSteps_in <? 1).
    + destruct (properties w !! m_property o) as [prop|] eqn:Hp; [|done].
      injection Hsteps as <-. repeat step. rewrite Hs. step. rewrite Hnone.
      repeat step. eexists. split; [reflexivity|]. by cbn.
    + injection Hsteps as <-. repeat step. rewrite Hs. step. rewrite Hnone.
      repeat step. eexists. split; [reflexivity|]. by cbn.
  - repeat step. eexists. split; [reflexivity|]. by cbn.
Qed.

Lemma SmoothData_failure_leaves_data_witness :
  exists w',
    SmoothData out_of_memory_ext 1%positive (-1) None loaded_world = Some (None, w')
    /\ cerr w' = "Can not allocate mri"%string :: cerr loaded_world
    /\ overlays w' = overlays loaded_world
    /\ result (observe 1%positive m_fData) w' = Some (m_fData loaded_overlay).
Proof.
  apply (SmoothData_failure_leaves_data out_of_memory_ext loaded_world 1%positive (-1)
           None loaded_overlay).
  - vm_compute; reflexivity.
  - left. reflexivity.
Defined.

(** ** Compute-correlation mode without a usable source *)

(** C10.  [SetComputeCorrelation(true)] on an overlay that has no correlation
    source volume, or whose source volume has another frame count, sets the
    mode flag and changes nothing else: the working buffer keeps the values it
    had, and a subsequent [GetRange] reports [-1, 1]. *)
Theorem SetComputeCorrelation_without_source ext w this o :
  overlays w !! this = Some o ->
  (m_volumeCorrelationSource o = None
   \/ exists vol, m_volumeCorrelationSource o = Some vol
                  /\ GetNumberOfFrames vol <> m_nNumOfFrames o) ->
  exists w' o',
    SetComputeCorrelation ext this true w = Some (tt, w')
    /\ w' = set_overlays (<[this := set_m_bComputeCorrelation true o]> (overlays w)) w
    /\ overlays w' !! this = Some o'
    /\ m_bComputeCorrelation o' = true
    /\ m_fData o' = m_fData o
    /\ GetRange this w' = Some (((-1)%float, 1%float), w').
Proof.
  intros Ho Hsrc. unfold SetComputeCorrelation, UpdateCorrelationCoefficient.
  do 2 step. fields.
  assert (Hrange : GetRange this
                     (set_overlays (<[this := set_m_bComputeCorrelation true o]> (overlays w)) w)
                   = Some (((-1)%float, 1%float),
                           set_overlays (<[this := set_m_bComputeCorrelation true o]>
                                           (overlays w)) w)).
  { unfold GetRange. by step. }
  destruct Hsrc as [-> | (vol & -> & Hne)].
  - eexists _, _. split; [reflexivity|]. split; [reflexivity|].
    split; [collapse; apply lookup_insert_eq|]. by fields.
  - replace (GetNumberOfFrames vol =? m_nNumOfFrames o) with false
      by (symmetry; by apply Z.eqb_neq).
    rewrite andb_false_r.
    eexists _, _. split; [reflexivity|]. split; [reflexivity|].
    split; [collapse; apply lookup_insert_eq|]. by fields.
Qed.

Lemma SetComputeCorrelation_without_source_witness :
  exists w' o',
    SetComputeCorrelation example_ext 1%positive true loaded_world = Some (tt, w')
    /\ w' = set_overlays (<[1%positive := set_m_bComputeCorrelation true loaded_overlay]>
                            (overlays loaded_world)) loaded_world
    /\ overlays w' !! 1%positive = Some o'
    /\ m_bComputeCorrelation o' = true
    /\ m_fData o' = m_fData loaded_overlay
    /\ GetRange 1%positive w' = Some (((-1)%float, 1%float), w').
Proof.
  apply (SetComputeCorrelation_without_source example_ext loaded_world 1%positive
           loaded_overlay).
  - vm_compute; reflexivity.
  - left. reflexivity.
Defined.

(** ** Loading correlation data *)

(** C3.  If the header of the file cannot be read, or its dimensions do not
    fit the surface (width other than twice the vertex count, height neither 1
    nor twice the vertex count, frame count neither 1 nor twice the vertex
    count), or the volume cannot be read, [LoadCorrelationData] returns
    [false] and leaves every overlay and every volume as it was: the
    correlation matrix pointer and the correlation-data and ready flags are
    unchanged.  (Twice the vertex count is taken within the range of [int].) *)
Theorem LoadCorrelationData_failure ext w this filename o :
  overlays w !! this = Some o ->
  CInt.in_range (m_nDataSize o * 2) ->
  (MRIreadHeader ext filename = None
   \/ (exists header, MRIreadHeader ext filename = Some header
                      /\ ~ dimensions_match header (m_nDataSize o))
   \/ MRIread ext filename = None) ->
  exists w',
    LoadCorrelationData ext this filename w = Some (false, w')
    /\ overlays w' = overlays w /\ volumes w' = volumes w
    /\ result (observe this (fun o => (m_mriCorrelation o, m_bCorrelationData o,
                                       m_bCorrelationDataReady o))) w'
       = Some (m_mriCorrelation o, m_bCorrelationData o, m_bCorrelationDataReady o).
Proof.
  intros Ho Hrange Hfail. unfold LoadCorrelationData.
  assert (Hobs : forall c,
             result (observe this (fun o => (m_mriCorrelation o, m_bCorrelationData o,
                                             m_bCorrelationDataReady o))) (set_cerr c w)
             = Some (m_mriCorrelation o, m_bCorrelationData o, m_bCorrelationDataReady o)).
  { intros c. unfold result, observe. cbn. by rewrite Ho. }
  destruct (MRIreadHeader ext filename) as [header|] eqn:Hheader.
  - step. unfold CInt.mul. rewrite (wrap_in_range _ Hrange).
    destruct (negb (width header =? m_nDataSize o * 2)
              || negb (height header =? 1) && negb (height header =? m_nDataSize o * 2)
              || negb (nframes header =? 1) && negb (nframes header =? m_nDataSize o * 2))
      eqn:Hcheck.
    + repeat step. eexists. split; [reflexivity|]. by cbn.
    + destruct (MRIread ext filename) as [mri|] eqn:Hread.
      * exfalso. destruct Hfail as [? | [(header' & Heq & Hno) | ?]]; [done| |done].
        injection Heq as <-. apply Hno. unfold dimensions_match.
        apply orb_false_elim in Hcheck as [Hcheck Hframes].
        apply orb_false_elim in Hcheck as [Hwidth Hheight].
        apply negb_false_iff, Z.eqb_eq in Hwidth.
        apply andb_false_iff in Hheight, Hframes.
        rewrite !negb_false_iff, !Z.eqb_eq in Hheight, Hframes. lia.
      * repeat step. eexists. split; [reflexivity|]. by cbn.
  - repeat step. eexists. split; [reflexivity|]. by cbn.
Qed.

Lemma LoadCorrelationData_failure_witness :
  exists w',
    LoadCorrelationData one_file_ext 1%positive "overlay.mgh" loaded_world
    = Some (false, w')
    /\ overlays w' = overlays loaded_world /\ volumes w' = volumes loaded_world
    /\ result (observe 1%positive (fun o => (m_mriCorrelation o, m_bCorrelationData o,
                                             m_bCorrelationDataReady o))) w'
       = Some (m_mriCorrelation loaded_overlay, m_bCorrelationData loaded_overlay,
               m_bCorrelationDataReady loaded_overlay).
Proof.
  apply (LoadCorrelationData_failure one_file_ext loaded_world 1%positive "overlay.mgh"
           loaded_overlay).
  - vm_compute; reflexivity.
  - vm_compute. split; discriminate.
  - right; left. eexists. split; [reflexivity|].
    unfold dimensions_match. cbn. lia.
Defined.

(** ** The loops of UpdateCorrelationCoefficient *)

Lemma write_nat (l : list float) (i : nat) (x : float) :
  (i < length l)%nat -> write (Some l) (Z.of_nat i) x = Some (<[i := x]> l).
Proof.
  intros H. unfold write.
  replace ((0 <=? Z.of_nat i) && (Z.of_nat i <? Z.of_nat (length l))) with true
    by (symmetry; rewrite andb_true_iff, Z.leb_le, Z.ltb_lt; lia).
  by rewrite Nat2Z.id.
Qed.

Lemma fetch_frames_lookup vol (n : nat) :
  forall (f : nat) (l : list float),
    (f + n <= length l)%nat ->
    exists l',
      fetch_frames vol (Z.of_nat f) n (Some l) = Some (Some l')
      /\ length l' = length l
      /\ forall i, l' !! i = if decide (f <= i < f + n)%nat
                             then Some (cursor_voxel_frame vol (Z.of_nat i))
                             else l !! i.
Proof.
  induction n as [|n IH]; intros f l Hlen.
  - exists l. split; [done|]. split; [done|]. intros i. case_decide; [lia | done].
  - cbn [fetch_frames]. rewrite write_nat by lia.
    destruct (IH (S f) (<[f := cursor_voxel_frame vol (Z.of_nat f)]> l))
      as (l' & Hrun & Hlen' & Hlook); [rewrite length_insert; lia|].
    exists l'. replace (Z.of_nat f + 1) with (Z.of_nat (S f)) by lia.
    split; [done|]. split; [by rewrite Hlen', length_insert|].
    intros i. rewrite Hlook. repeat case_decide; try lia; try done.
    + assert (i = f) as -> by lia. apply list_lookup_insert_eq. lia.
    + apply list_lookup_insert_ne. lia.
Qed.

Lemma fetch_frames_whole vol (F : Z) (src : list float) :
  Z.of_nat (length src) = F ->
  fetch_frames vol 0 (Z.to_nat F) (Some src) = Some (Some (source_signal vol F)).
Proof.
  intros Hlen.
  destruct (fetch_frames_lookup vol (Z.to_nat F) 0 src) as (l' & Hrun & Hlen' & Hlook);
    [lia|].
  change (Z.of_nat 0) with 0 in Hrun. rewrite Hrun. do 2 f_equal.
  apply list_eq. intros i. rewrite Hlook. unfold source_signal.
  rewrite list_lookup_fmap. case_decide.
  - by rewrite lookup_seq_lt by lia.
  - rewrite lookup_seq_ge by lia. cbn. apply lookup_ge_None. lia.
Qed.

Lemma gather_loop_lookup (raw : list float) (N F : Z) (i : nat) (n : nat) :
  0 < N -> (i < Z.to_nat N)%nat ->
  Z.of_nat (length raw) = N * F -> N * F <= CInt.INT_MAX ->
  forall (j : nat) (buf : list float),
    (j + n <= length buf)%nat -> Z.of_nat (j + n) <= F ->
    exists b,
      gather_loop (Some raw) N (Z.of_nat i) (Z.of_nat j) n (Some buf) = Some (Some b)
      /\ length b = length buf
      /\ forall k, b !! k = if decide (j <= k < j + n)%nat
                            then Some (default 0%float (raw !! (i + k * Z.to_nat N)%nat))
                            else buf !! k.
Proof.
  intros HN Hi Hraw Hint. induction n as [|n IH]; intros j buf Hlen HF.
  - exists buf. split; [done|]. split; [done|]. intros k. case_decide; [lia | done].
  - cbn [gather_loop]. unfold CInt.mul, CInt.add.
    assert (Hidx : 0 <= Z.of_nat i + Z.of_nat j * N < N * F) by nia.
    rewrite (wrap_in_range (Z.of_nat j * N))
      by (unfold CInt.in_range, CInt.INT_MIN; nia).
    rewrite wrap_in_range by (unfold CInt.in_range, CInt.INT_MIN; nia).
    replace (Z.of_nat i + Z.of_nat j * N) with (Z.of_nat (i + j * Z.to_nat N)) by nia.
    rewrite read_nat.
    destruct (lookup_lt_is_Some_2 raw (i + j * Z.to_nat N)) as [x Hx]; [nia|].
    rewrite Hx, write_nat by lia.
    destruct (IH (S j) (<[j := x]> buf)) as (b & Hrun & Hlen' & Hlook);
      [rewrite length_insert; lia | lia |].
    exists b. replace (Z.of_nat j + 1) with (Z.of_nat (S j)) by lia.
    split; [done|]. split; [by rewrite Hlen', length_insert|].
    intros k. rewrite Hlook. repeat case_decide; try lia; try done.
    + assert (k = j) as -> by lia. rewrite Hx. apply list_lookup_insert_eq. lia.
    + apply list_lookup_insert_ne. lia.
Qed.

Lemma gather_loop_whole (raw : list float) (N F : Z) (i : nat) (buf : list float) :
  0 < N -> (i < Z.to_nat N)%nat ->
  Z.of_nat (length raw) = N * F -> N * F <= CInt.INT_MAX ->
  Z.of_nat (length buf) = F ->
  gather_loop (Some raw) N (Z.of_nat i) 0 (Z.to_nat F) (Some buf)
  = Some (Some (vertex_signal raw N F i)).
Proof.
  intros HN Hi Hraw Hint Hbuf.
  destruct (gather_loop_lookup raw N F i (Z.to_nat F) HN Hi Hraw Hint 0 buf)
    as (b & Hrun & Hlen & Hlook); [lia | lia |].
  change (Z.of_nat 0) with 0 in Hrun. rewrite Hrun. do 2 f_equal.
  apply list_eq. intros k. rewrite Hlook. unfold vertex_signal.
  rewrite list_lookup_fmap. case_decide.
  - by rewrite lookup_seq_lt by lia.
  - rewrite lookup_seq_ge by lia. cbn. apply lookup_ge_None. lia.
Qed.

Lemma coefficient_loop_lookup cc (raw src : list float) (N F : Z) (n : nat) :
  0 < N -> Z.of_nat (length raw) = N * F -> N * F <= CInt.INT_MAX ->
  forall (i : nat) (buf data : list float),
    Z.of_nat (length buf) = F ->
    (i + n <= length data)%nat -> (i + n <= Z.to_nat N)%nat ->
    exists b d,
      coefficient_loop cc (Some raw) (Some src) N F (Z.of_nat i) n (Some buf) (Some data)
      = Some (Some b, Some d)
      /\ Z.of_nat (length b) = F /\ length d = length data
      /\ forall k, d !! k = if decide (i <= k < i + n)%nat
                            then Some (cc src (vertex_signal raw N F k) F)
                            else data !! k.
Proof.
  intros HN Hraw Hint. induction n as [|n IH]; intros i buf data Hbuf Hdata HiN.
  - exists buf, data. split; [done|]. split; [done|]. split; [done|].
    intros k. case_decide; [lia | done].
  - cbn [coefficient_loop].
    rewrite (gather_loop_whole raw N F i buf) by first [done | lia].
    cbn [contents]. rewrite write_nat by lia.
    destruct (IH (S i) (vertex_signal raw N F i)
                (<[i := cc src (vertex_signal raw N F i) F]> data))
      as (b & d & Hrun & Hb & Hd & Hlook).
    { unfold vertex_signal. rewrite length_map, length_seq.
      assert (0 <= F) by nia. lia. }
    { rewrite length_insert. lia. }
    { lia. }
    exists b, d. replace (Z.of_nat i + 1) with (Z.of_nat (S i)) by lia.
    split; [done|]. split; [done|]. split; [by rewrite Hd, length_insert|].
    intros k. rewrite Hlook. repeat case_decide; try lia; try done.
    + assert (k = i) as -> by lia. apply list_lookup_insert_eq. lia.
    + apply list_lookup_insert_ne. lia.
Qed.

Lemma coefficient_loop_whole ext vol (raw buf data : list float) (N F : Z) :
  0 < N -> Z.of_nat (length raw) = N * F -> N * F <= CInt.INT_MAX ->
  Z.of_nat (length buf) = F -> Z.of_nat (length data) = N ->
  exists b,
    coefficient_loop (CalculateCorrelationCoefficient ext) (Some raw)
      (Some (source_signal vol F)) N F 0 (Z.to_nat N) (Some buf) (Some data)
    = Some (Some b, Some (correlation_values ext vol raw N F))
    /\ Z.of_nat (length b) = F.
Proof.
  intros HN Hraw Hint Hbuf Hdata.
  destruct (coefficient_loop_lookup (CalculateCorrelationCoefficient ext) raw
              (source_signal vol F) N F (Z.to_nat N) HN Hraw Hint 0 buf data)
    as (b & d & Hrun & Hb & Hd & Hlook); [done | lia | lia |].
  exists b. change (Z.of_nat 0) with 0 in Hrun. rewrite Hrun. split; [|done].
  do 3 f_equal. apply list_eq. intros k. rewrite Hlook. unfold correlation_values.
  rewrite list_lookup_fmap. case_decide.
  - by rewrite lookup_seq_lt by lia.
  - rewrite lookup_seq_ge by lia. cbn. apply lookup_ge_None. lia.
Qed.

Lemma correlation_values_length ext vol raw N F :
  0 <= N -> Z.of_nat (length (correlation_values ext vol raw N F)) = N.
Proof. intros HN. unfold correlation_values. rewrite length_map, length_seq. lia. Qed.

(** ** Compute-correlation mode *)

Section ComputeCorrelationFacts.

Variable ext : Externals.

(** [UpdateCorrelationCoefficient] in compute-correlation mode with a source
    volume of the overlay's frame count. *)
Lemma UpdateCorrelationCoefficient_run w this o raw d u surf prop vol src buf :
  overlays w !! this = Some o ->
  m_fDataRaw o = Some raw -> m_fData o = Some d -> m_fDataUnsmoothed o = Some u ->
  Z.of_nat (length d) = m_nDataSize o -> Z.of_nat (length u) = m_nDataSize o ->
  m_surface o = Some surf -> properties w !! m_property o = Some prop ->
  0 < m_nDataSize o ->
  Z.of_nat (length raw) = m_nDataSize o * m_nNumOfFrames o ->
  m_nDataSize o * m_nNumOfFrames o <= CInt.INT_MAX ->
  m_bComputeCorrelation o = true ->
  m_volumeCorrelationSource o = Some vol ->
  GetNumberOfFrames vol = m_nNumOfFrames o ->
  m_fCorrelationSourceData o = Some src ->
  Z.of_nat (length src) = m_nNumOfFrames o ->
  m_fCorrelationDataBuffer o = Some buf ->
  Z.of_nat (length buf) = m_nNumOfFrames o ->
  let values := correlation_values ext vol raw (m_nDataSize o) (m_nNumOfFrames o) in
  exists w' o',
    UpdateCorrelationCoefficient ext this w = Some (tt, w')
    /\ overlays w' !! this = Some o'
    /\ m_fDataUnsmoothed o' = Some values
    /\ m_fData o'
       = Some (if GetSmooth prop then
                 match smoothing_outcome ext surf values (m_nDataSize o)
                         (GetSmoothSteps prop) with
                 | Some smoothed => smoothed
                 | None => values
                 end
               else values)
    /\ m_fDataRaw o' = Some raw
    /\ m_bComputeCorrelation o' = true
    /\ properties w' = properties w.
Proof.
  intros Ho Hraw Hd Hu Hdl Hul Hs Hp HN Hlen Hint Hc Hvol HF Hsrc Hsrcl Hbuf Hbufl values.
  unfold UpdateCorrelationCoefficient, surface_UpdateOverlay, emit_DataUpdated.
  step. rewrite Hvol, Hc, HF, Z.eqb_refl. cbn [andb].
  rewrite Hsrc, fetch_frames_whole by lia. do 3 step. fields.
  rewrite Hraw, Hbuf, Hd.
  destruct (coefficient_loop_whole ext vol raw buf d (m_nDataSize o) (m_nNumOfFrames o))
    as (b & Hloop & Hb); try done.
  rewrite Hloop. fold values. repeat step. fields. cbn [fst snd]. collapse.
  assert (Hvl : Z.of_nat (length values) = m_nDataSize o)
    by (apply correlation_values_length; lia).
  rewrite Hu, memcpy_same_length by lia. do 2 step. collapse.
  match goal with
  | |- context [<[this := ?x]> (overlays w)] => set (o1 := x)
  end.
  erewrite bind_GetProperty; [|lookup_solver|unfold o1; fields; lookup_solver].
  destruct (GetSmooth prop).
  - erewrite bind_run; cycle 1.
    { apply (SmoothData_default_run ext _ this o1 values values surf prop);
        first [lookup_solver | unfold o1; fields; first [reflexivity | lia | eassumption]]. }
    replace (m_nDataSize o1) with (m_nDataSize o) by reflexivity.
    destruct (smoothing_outcome ext surf values (m_nDataSize o) (GetSmoothSteps prop)).
    + repeat step. unfold o1. fields. rewrite Hs. repeat step. fields.
      destruct (signalsBlocked o); eexists _, _; (split; [reflexivity|]); collapse.
      all: rewrite lookup_insert_eq; split; [reflexivity|]; by fields.
    + repeat step. unfold o1. fields. rewrite Hs. repeat step. fields.
      destruct (signalsBlocked o); eexists _, _; (split; [reflexivity|]); collapse.
      all: rewrite lookup_insert_eq; split; [reflexivity|]; by fields.
  - repeat step. unfold o1. fields. rewrite Hs. repeat step. fields.
    destruct (signalsBlocked o); eexists _, _; (split; [reflexivity|]); collapse.
    all: rewrite lookup_insert_eq; split; [reflexivity|]; by fields.
Qed.

End ComputeCorrelationFacts.

(** C7 (amended).  On an overlay with loaded multi-frame data, enabling
    compute-correlation mode while a source volume with the overlay's frame
    count is set recomputes every vertex value at once, as the coefficient of
    the vertex's frames against the source's frames; disabling the mode
    selects the active frame again.  In both cases the values are in the
    unsmoothed buffer, and in the working buffer too while smoothing is
    disabled (with smoothing enabled the working buffer holds their smoothed
    version). *)
Theorem SetComputeCorrelation_toggles ext w this o prop raw N F :
  overlays w !! this = Some o -> property_of w this = Some prop ->
  loaded w this raw N F ->
  0 < N -> 1 <= F -> Z.of_nat (length raw) = N * F -> N * F <= CInt.INT_MAX ->
  (forall vol src buf,
      m_volumeCorrelationSource o = Some vol -> GetNumberOfFrames vol = F ->
      m_fCorrelationSourceData o = Some src -> Z.of_nat (length src) = F ->
      m_fCorrelationDataBuffer o = Some buf -> Z.of_nat (length buf) = F ->
      exists w' o',
        SetComputeCorrelation ext this true w = Some (tt, w')
        /\ overlays w' !! this = Some o'
        /\ m_bComputeCorrelation o' = true
        /\ m_fDataUnsmoothed o' = Some (correlation_values ext vol raw N F)
        /\ (GetSmooth prop = false ->
            m_fData o' = Some (correlation_values ext vol raw N F)))
  /\ (0 <= m_nActiveFrame o < F ->
      exists w' o',
        SetComputeCorrelation ext this false w = Some (tt, w')
        /\ overlays w' !! this = Some o'
        /\ m_bComputeCorrelation o' = false
        /\ m_fDataUnsmoothed o' = Some (frame_slice raw N (m_nActiveFrame o))
        /\ (GetSmooth prop = false ->
            m_fData o' = Some (frame_slice raw N (m_nActiveFrame o)))).
Proof.
  intros Ho Hprop
    (o1 & d & u & surf & prop1 & Ho1 & Hraw & Hd & Hu & Hdl & Hul & HN1 & HF1 & Hs & Hp)
    HN HF Hlen Hint.
  rewrite Ho in Ho1. injection Ho1 as <-.
  unfold property_of in Hprop. rewrite Ho, Hp in Hprop. injection Hprop as ->.
  split.
  - intros vol src buf Hvol Hframes Hsrc Hsrcl Hbuf Hbufl.
    unfold SetComputeCorrelation. step.
    destruct (UpdateCorrelationCoefficient_run ext
                (set_overlays (<[this := set_m_bComputeCorrelation true o]> (overlays w)) w)
                this (set_m_bComputeCorrelation true o) raw d u surf prop vol src buf)
      as (w' & o' & Hrun & Ho' & Hun & Hdata & _ & Hc & _);
      try first [lookup_solver | fields; first [done | lia | congruence]].
    fields. rewrite HN1, HF1 in *.
    exists w', o'. repeat split; try done.
    intros Hsm. by rewrite Hdata, Hsm.
  - intros Hactive. unfold SetComputeCorrelation. do 2 step. fields.
    pose proof (SetActiveFrame_run ext
                  (set_overlays (<[this := set_m_bComputeCorrelation false o]> (overlays w)) w)
                  this (set_m_bComputeCorrelation false o) raw d u surf prop
                  (m_nActiveFrame o)) as Hrun.
    fields. rewrite HN1, HF1 in Hrun.
    replace (m_nActiveFrame o >=? F) with false in Hrun
      by (symmetry; rewrite Z.geb_leb; apply Z.leb_gt; lia).
    cbv zeta in Hrun.
    rewrite Hrun by first [lookup_solver | done | lia | nia]. clear Hrun.
    destruct (GetSmooth prop);
      [destruct (smoothing_outcome ext surf _ N (GetSmoothSteps prop))|].
    all: eexists _, _; split; [reflexivity|]; collapse.
    all: split; [apply lookup_insert_eq|]; fields; by repeat split.
Qed.

Lemma SetComputeCorrelation_toggles_witness :
  (exists w' o',
      SetComputeCorrelation product_ext 1%positive true sourced_world = Some (tt, w')
      /\ overlays w' !! 1%positive = Some o'
      /\ m_bComputeCorrelation o' = true
      /\ m_fDataUnsmoothed o' = Some (correlation_values product_ext constant_volume [1; 3; 2; 0; 5; 4; 7; 6]%float 4 2)
      /\ (GetSmooth {| GetSmooth := false; GetSmoothSteps := 1 |} = false ->
          m_fData o' = Some (correlation_values product_ext constant_volume [1; 3; 2; 0; 5; 4; 7; 6]%float 4 2)))
  /\ correlation_values product_ext constant_volume [1; 3; 2; 0; 5; 4; 7; 6]%float 4 2 = [6; 7; 9; 6]%float
  /\ (exists w' o',
        SetComputeCorrelation product_ext 1%positive false correlating_world
        = Some (tt, w')
        /\ overlays w' !! 1%positive = Some o'
        /\ m_bComputeCorrelation o' = false
        /\ m_fDataUnsmoothed o'
           = Some (frame_slice [1; 3; 2; 0; 5; 4; 7; 6]%float 4 (m_nActiveFrame correlating_overlay))
        /\ (GetSmooth {| GetSmooth := false; GetSmoothSteps := 1 |} = false ->
            m_fData o' = Some (frame_slice [1; 3; 2; 0; 5; 4; 7; 6]%float 4 (m_nActiveFrame correlating_overlay))))
  /\ frame_slice [1; 3; 2; 0; 5; 4; 7; 6]%float 4 (m_nActiveFrame correlating_overlay) = [1; 3; 2; 0]%float.
Proof.
  split.
  { apply (SetComputeCorrelation_toggles product_ext sourced_world 1%positive
             sourced_overlay {| GetSmooth := false; GetSmoothSteps := 1 |} [1; 3; 2; 0; 5; 4; 7; 6]%float 4 2)
      with (src := [0; 0]%float) (buf := [0; 0]%float).
    - reflexivity.
    - reflexivity.
    - exists sourced_overlay, [1; 3; 2; 0]%float, [1; 3; 2; 0]%float, (tetrahedron 0),
        {| GetSmooth := false; GetSmoothSteps := 1 |}.
      repeat split; reflexivity.
    - lia.
    - lia.
    - reflexivity.
    - vm_compute; discriminate.
    - reflexivity.
    - reflexivity.
    - reflexivity.
    - reflexivity.
    - reflexivity.
    - reflexivity. }
  split; [vm_compute; reflexivity|].
  split; [|vm_compute; reflexivity].
  apply (SetComputeCorrelation_toggles product_ext correlating_world 1%positive
           correlating_overlay {| GetSmooth := false; GetSmoothSteps := 1 |} [1; 3; 2; 0; 5; 4; 7; 6]%float 4 2).
  - reflexivity.
  - reflexivity.
  - exists correlating_overlay, [6; 7; 9; 6]%float, [6; 7; 9; 6]%float, (tetrahedron 0),
      {| GetSmooth := false; GetSmoothSteps := 1 |}.
    repeat split; reflexivity.
  - lia.
  - lia.
  - reflexivity.
  - vm_compute; discriminate.
  - vm_compute. split; [discriminate | reflexivity].
Defined.

(** Two frames of data.  Without a source volume, enabling the mode leaves
    the working buffer as it was and notifies nobody; with smoothing switched
    on, disabling the mode leaves the smoothed frame, not the frame's slice,
    in the working buffer. *)
Lemma SetComputeCorrelation_no_source_or_smoothing :
  result (InitializeData example_ext 1%positive
            (Some [0; 0; 0; 4; 2; 2; 2; 2]%float) 4 2 ;;;
          let* before := observe 1%positive m_fData in
          let* notified := trace in
          SetComputeCorrelation example_ext 1%positive true ;;;
          let* after := observe 1%positive m_fData in
          let* notified' := trace in
          ret (before, after, length notified' - length notified)%nat)
    example_world
  = Some (Some [0; 0; 0; 4]%float, Some [0; 0; 0; 4]%float, 0%nat)
  /\ result (InitializeData example_ext 1%positive
               (Some [0; 0; 0; 4; 2; 2; 2; 2]%float) 4 2 ;;;
             switch_smoothing true 1%positive ;;;
             UpdateSmooth example_ext 1%positive true ;;;
             SetComputeCorrelation example_ext 1%positive true ;;;
             SetComputeCorrelation example_ext 1%positive false ;;;
             let* o := deref 1%positive in
             ret (m_nActiveFrame o, m_fData o, m_fDataUnsmoothed o))
       example_world
     = Some (0, Some [1; 1; 1; 1]%float,
             Some (frame_slice [0; 0; 0; 4; 2; 2; 2; 2]%float 4 0))
  /\ [1; 1; 1; 1]%float <> frame_slice [0; 0; 0; 4; 2; 2; 2; 2]%float 4 0.
Proof.
  split; [vm_compute; reflexivity|]. split; [vm_compute; reflexivity|].
  vm_compute. discriminate.
Qed.

(** ** The loop of UpdateCorrelationAtVertex *)

Lemma fill_loop_lookup (src : Z -> option float) (f : nat -> float) (n : nat) :
  forall (i : nat) (data : list float) (r : float * float),
    (forall k, (i <= k < i + n)%nat -> src (Z.of_nat k) = Some (f k)) ->
    (i + n <= length data)%nat ->
    exists d r',
      fill_loop src (Z.of_nat i) n (Some data) r = Some (Some d, r')
      /\ length d = length data
      /\ forall k, d !! k = if decide (i <= k < i + n)%nat then Some (f k) else data !! k.
Proof.
  induction n as [|n IH]; intros i data r Hsrc Hlen.
  - exists data, r. split; [done|]. split; [done|]. intros k. case_decide; [lia | done].
  - cbn [fill_loop]. rewrite Hsrc by lia. rewrite write_nat by lia.
    destruct (IH (S i) (<[i := f i]> data) (update_range (f i) r))
      as (d & r' & Hrun & Hd & Hlook).
    { intros k Hk. apply Hsrc. lia. }
    { rewrite length_insert. lia. }
    exists d, r'. replace (Z.of_nat i + 1) with (Z.of_nat (S i)) by lia.
    split; [done|]. split; [by rewrite Hd, length_insert|].
    intros k. rewrite Hlook. repeat case_decide; try lia; try done.
    + assert (k = i) as -> by lia. apply list_lookup_insert_eq. lia.
    + apply list_lookup_insert_ne. lia.
Qed.

Lemma fill_loop_whole (src : Z -> option float) (f : nat -> float) (N : Z)
    (data : list float) (r : float * float) :
  (forall k, (k < Z.to_nat N)%nat -> src (Z.of_nat k) = Some (f k)) ->
  Z.of_nat (length data) = N ->
  exists r', fill_loop src 0 (Z.to_nat N) (Some data) r
             = Some (Some (map f (seq 0 (Z.to_nat N))), r').
Proof.
  intros Hsrc Hlen.
  destruct (fill_loop_lookup src f (Z.to_nat N) 0 data r) as (d & r' & Hrun & Hd & Hlook).
  { intros k Hk. apply Hsrc. lia. }
  { lia. }
  exists r'. change (Z.of_nat 0) with 0 in Hrun. rewrite Hrun. do 3 f_equal.
  apply list_eq. intros k. rewrite Hlook, list_lookup_fmap. case_decide.
  - by rewrite lookup_seq_lt by lia.
  - rewrite lookup_seq_ge by lia. cbn. apply lookup_ge_None. lia.
Qed.

Lemma correlation_row_length mri N nVertex seedHemi ownHemi :
  0 <= N -> Z.of_nat (length (correlation_row mri N nVertex seedHemi ownHemi)) = N.
Proof. intros HN. unfold correlation_row. rewrite length_map, length_seq. lia. Qed.

(** Inside the volume the reads of the loop deliver the line. *)
Lemma correlation_reads mri N nVertex seedHemi ownHemi :
  0 < N -> row_in_volume mri N nVertex seedHemi ownHemi ->
  (if 1 <? height mri
   then MRIFseq_vox mri (CInt.add nVertex (CInt.mul seedHemi N)) (CInt.mul ownHemi N) 0 0
   else MRIFseq_vox mri (CInt.add nVertex (CInt.mul seedHemi N)) 0 0 (CInt.mul ownHemi N))
  <> None
  /\ forall k, (k < Z.to_nat N)%nat ->
      (if 1 <? height mri
       then MRIFseq_vox mri (CInt.add nVertex (CInt.mul seedHemi N))
              (CInt.add (Z.of_nat k) (CInt.mul ownHemi N)) 0 0
       else MRIFseq_vox mri (CInt.add nVertex (CInt.mul seedHemi N)) 0 0
              (CInt.add (Z.of_nat k) (CInt.mul ownHemi N)))
      = Some (if 1 <? height mri
              then voxels mri (nVertex + seedHemi * N) (Z.of_nat k + ownHemi * N) 0 0
              else voxels mri (nVertex + seedHemi * N) 0 0 (Z.of_nat k + ownHemi * N)).
Proof.
  intros HN (Hoff & Hrow & Hw & Hcol & Hcolmax & Hdepth & Hdims).
  unfold CInt.add, CInt.mul.
  rewrite (wrap_in_range (seedHemi * N)) by done.
  rewrite (wrap_in_range (ownHemi * N)) by (unfold CInt.in_range, CInt.INT_MIN; lia).
  rewrite (wrap_in_range (nVertex + seedHemi * N))
    by (unfold CInt.in_range, CInt.INT_MIN; lia).
  assert (Hvox : forall x y z f, 0 <= x < width mri -> 0 <= y < height mri ->
                                 0 <= z < depth mri -> 0 <= f < nframes mri ->
                                 MRIFseq_vox mri x y z f = Some (voxels mri x y z f)).
  { intros x y z f Hx Hy Hz Hf. unfold MRIFseq_vox.
    replace ((0 <=? x) && (x <? width mri) && (0 <=? y) && (y <? height mri)
             && (0 <=? z) && (z <? depth mri) && (0 <=? f) && (f <? nframes mri))
      with true; [done|].
    symmetry. rewrite !andb_true_iff, !Z.leb_le, !Z.ltb_lt. lia. }
  destruct (1 <? height mri) eqn:Hh.
  - apply Z.ltb_lt in Hh. split.
    + rewrite Hvox by lia. done.
    + intros k Hk.
      rewrite wrap_in_range by (unfold CInt.in_range, CInt.INT_MIN; lia).
      apply Hvox; lia.
  - split.
    + rewrite Hvox by lia. done.
    + intros k Hk.
      rewrite wrap_in_range by (unfold CInt.in_range, CInt.INT_MIN; lia).
      apply Hvox; lia.
Qed.

(** ** UpdateCorrelationAtVertex *)

Lemma bind_volume {B} m mri (k : MRI -> M B) w :
  volumes w !! m = Some mri -> bind (volume (Some m)) k w = k mri w.
Proof. intros H. unfold bind, volume. by rewrite H. Qed.

Lemma memcpy_prefix (d s : list float) (n : Z) :
  Z.of_nat (length s) = n -> n <= Z.of_nat (length d) ->
  memcpy (Some d) (Some s) n = Some (s ++ drop (Z.to_nat n) d).
Proof.
  intros Hs Hd. unfold memcpy.
  replace ((0 <=? n) && (n <=? Z.of_nat (length d)) && (n <=? Z.of_nat (length s)))
    with true by (symmetry; rewrite !andb_true_iff, !Z.leb_le; lia).
  by rewrite take_ge by lia.
Qed.

Section UpdateCorrelationAtVertexFacts.

Variable ext : Externals.

Hypothesis Reset_keeps_smoothing :
  forall p mx mn, GetSmooth (Reset ext p mx mn) = GetSmooth p.




End UpdateCorrelationAtVertexFacts.

Lemma paired_world_constructed :
  (new_SurfaceOverlay correlation_ext 1%positive (Some (tetrahedron 0)) ;;;
   new_SurfaceOverlay correlation_ext 2%positive (Some (tetrahedron 1)) ;;;
   LoadCorrelationData correlation_ext 1%positive "correlation.mgh" ;;;
   CopyCorrelationData 2%positive 1%positive) empty_world
  = Some (tt, paired_world).
Proof. vm_compute. reflexivity. Qed.



(** ** Destruction of paired overlays *)

(** C9.  For two overlays paired with each other that share a property
    object and a correlation matrix, destroying the first clears the second's
    back-reference and releases neither shared object; destroying the second,
    which then holds no pair pointer, releases each of them, once. *)
Theorem delete_paired_overlays w A B oA oB p prop m mri :
  A <> B ->
  overlays w !! A = Some oA -> overlays w !! B = Some oB ->
  m_overlayPaired oA = Some B -> m_overlayPaired oB = Some A ->
  m_property oA = p -> m_property oB = p -> properties w !! p = Some prop ->
  m_mriCorrelation oA = Some m -> m_mriCorrelation oB = Some m ->
  volumes w !! m = Some mri ->
  exists w1 oB1 w2,
    delete_SurfaceOverlay A w = Some (tt, w1)
    /\ overlays w1 !! A = None
    /\ overlays w1 !! B = Some oB1 /\ m_overlayPaired oB1 = None
    /\ released w1 = released w
    /\ properties w1 !! p = Some prop /\ volumes w1 !! m = Some mri
    /\ delete_SurfaceOverlay B w1 = Some (tt, w2)
    /\ overlays w2 !! B = None
    /\ released w2 = VolumeObject m :: PropertyObject p :: released w
    /\ properties w2 !! p = None /\ volumes w2 !! m = None.
Proof.
  intros HAB HoA HoB HpairA HpairB HpA HpB Hp HmA HmB Hm.
  eexists _, (set_m_overlayPaired None oB), _.
  split.
  { unfold delete_SurfaceOverlay. step. rewrite HpairA.
    erewrite bind_assign by exact HoB. reflexivity. }
  cbn. split; [apply lookup_delete_eq|].
  split; [by rewrite lookup_delete_ne, lookup_insert_eq by done|].
  split; [done|]. split; [done|]. split; [done|]. split; [done|].
  split.
  { unfold delete_SurfaceOverlay.
    erewrite bind_deref
      by (cbn; rewrite lookup_delete_ne, lookup_insert_eq by done; reflexivity).
    fields. rewrite HpB, HmB. unfold delete_property, MRIfree.
    rewrite !bind_bind. unfold bind at 1. cbn. rewrite Hp. cbn.
    unfold bind at 1. cbn. rewrite Hm. reflexivity. }
  cbn. split; [apply lookup_delete_eq|]. split; [done|].
  split; apply lookup_delete_eq.
Qed.

Lemma delete_paired_overlays_witness :
  exists w1 oB1 w2,
    delete_SurfaceOverlay 1%positive paired_world = Some (tt, w1)
    /\ overlays w1 !! 1%positive = None
    /\ overlays w1 !! 2%positive = Some oB1 /\ m_overlayPaired oB1 = None
    /\ released w1 = released paired_world
    /\ properties w1 !! 1%positive = Some {| GetSmooth := false; GetSmoothSteps := 1 |}
    /\ volumes w1 !! 3%positive = Some correlation_matrix
    /\ delete_SurfaceOverlay 2%positive w1 = Some (tt, w2)
    /\ overlays w2 !! 2%positive = None
    /\ released w2
       = VolumeObject 3%positive :: PropertyObject 1%positive :: released paired_world
    /\ properties w2 !! 1%positive = None /\ volumes w2 !! 3%positive = None.
Proof.
  apply (delete_paired_overlays paired_world 1%positive 2%positive paired_A paired_B
           1%positive {| GetSmooth := false; GetSmoothSteps := 1 |} 3%positive
           correlation_matrix).
  all: try (vm_compute; reflexivity).
  vm_compute; discriminate.
Defined.

(** * Further properties of the member functions *)

(** ** The range loop and NaN *)

Lemma ltb_nan_l x y : PrimFloat.is_nan x = true -> PrimFloat.ltb x y = false.
Proof.
  intros H. rewrite ltb_spec.
  assert (Hx : Prim2SF x = S754_nan).
  { destruct (Prim2SF x) eqn:E; try reflexivity.
    all: assert (PrimFloat.is_nan x = false) by (apply FloatOrder.is_nan_spec; congruence).
    all: congruence. }
  by rewrite Hx.
Qed.

Lemma ltb_nan_r x y : PrimFloat.is_nan y = true -> PrimFloat.ltb x y = false.
Proof.
  intros H. rewrite ltb_spec.
  assert (Hy : Prim2SF y = S754_nan).
  { destruct (Prim2SF y) eqn:E; try reflexivity.
    all: assert (PrimFloat.is_nan y = false) by (apply FloatOrder.is_nan_spec; congruence).
    all: congruence. }
  rewrite Hy. unfold SFltb, SFcompare. by destruct (Prim2SF x) as [| [] | |[] ? ?].
Qed.

Lemma update_range_nan x r : PrimFloat.is_nan x = true -> update_range x r = r.
Proof.
  intros H. unfold update_range, gtb. by rewrite ltb_nan_r, ltb_nan_l.
Qed.

Lemma update_range_from_nan x0 x :
  PrimFloat.is_nan x0 = true -> update_range x (x0, x0) = (x0, x0).
Proof.
  intros H. unfold update_range, gtb. cbn [fst snd]. by rewrite ltb_nan_l, ltb_nan_r.
Qed.

Lemma range_of_nan_first x0 xs :
  PrimFloat.is_nan x0 = true -> range_of (x0 :: xs) = (x0, x0).
Proof.
  intros H. unfold range_of.
  assert (Hall : forall l, foldl (fun r x => update_range x r) (x0, x0) l = (x0, x0)).
  { induction l as [|y l IH]; [done|]. cbn [foldl]. by rewrite update_range_from_nan. }
  apply Hall.
Qed.

(** X1.  The range loop passes over a NaN that is not the first value: the
    bounds it leaves are those of the buffer without it. *)
Theorem range_loop_skips_nan (x0 x : float) (xs ys : list float) :
  PrimFloat.is_nan x = true ->
  range_loop (Some (x0 :: xs ++ x :: ys)) 0 (length (x0 :: xs ++ x :: ys)) (x0, x0)
  = range_loop (Some (x0 :: xs ++ ys)) 0 (length (x0 :: xs ++ ys)) (x0, x0).
Proof.
  intros H. rewrite !range_loop_whole by done. unfold range_of.
  change (x0 :: xs ++ x :: ys) with ((x0 :: xs) ++ x :: ys).
  change (x0 :: xs ++ ys) with ((x0 :: xs) ++ ys).
  rewrite !foldl_app. cbn [foldl]. by rewrite (update_range_nan x).
Qed.

Lemma range_loop_skips_nan_witness :
  range_loop (Some [1; nan; 2]%float) 0 3 (1%float, 1%float)
  = range_loop (Some [1; 2]%float) 0 2 (1%float, 1%float).
Proof. apply (range_loop_skips_nan 1%float nan [] [2%float]). reflexivity. Defined.

(** ** Frame selection on a loaded overlay *)

Lemma SetActiveFrame_loaded ext w this raw N F k :
  loaded w this raw N F ->
  0 < N -> 0 <= k < F -> Z.of_nat (length raw) = N * F -> N * F <= CInt.INT_MAX ->
  exists o surf prop w',
    overlays w !! this = Some o /\ m_surface o = Some surf
    /\ properties w !! m_property o = Some prop
    /\ SetActiveFrame ext this k w = Some (tt, w')
    /\ properties w' = properties w /\ notifications w' = notifications w
    /\ volumes w' = volumes w /\ released w' = released w
    /\ overlays w'
       = <[this := smoothed_or ext surf prop (frame_slice raw N k) N
                     (frame_selected raw N k o)]> (overlays w)
    /\ loaded w' this raw N F.
Proof.
  intros (o & d & u & surf & prop & Ho & Hraw & Hd & Hu & Hdl & Hul & HN & HF & Hs & Hp)
    HNpos Hk Hlen Hint.
  exists o, surf, prop.
  pose proof (SetActiveFrame_run ext w this o raw d u surf prop k Ho Hraw Hd Hu) as Hrun.
  rewrite HN, HF in Hrun.
  replace (if k >=? F then 0 else k) with k in Hrun
    by (destruct (k >=? F) eqn:E; [apply Z.geb_le in E; lia | done]).
  cbv zeta in Hrun. rewrite Hrun by first [done | lia | nia]. clear Hrun.
  assert (Hsl : Z.of_nat (length (frame_slice raw N k)) = N)
    by (apply frame_slice_length; nia).
  fold (frame_selected raw N k o). unfold smoothed_or.
  eexists. split; [done|]. split; [done|]. split; [done|]. split; [reflexivity|].
  destruct (GetSmooth prop);
    [destruct (smoothing_outcome ext surf (frame_slice raw N k) N (GetSmoothSteps prop))
       as [sm|] eqn:Hsm|].
  all: cbn [properties notifications volumes released overlays set_overlays set_cerr].
  all: do 5 (split; [reflexivity|]).
  all: unfold loaded; cbn [overlays properties set_overlays set_cerr].
  all: rewrite lookup_insert_eq.
  all: do 5 eexists; split; [reflexivity|]; unfold frame_selected; fields.
  all: repeat split; try reflexivity; try lia; try eassumption.
  eapply smoothing_outcome_length; [exact Hsm | lia].
Qed.

Lemma read_Z (l : list float) (i : Z) : 0 <= i -> read (Some l) i = l !! Z.to_nat i.
Proof. intros H. rewrite <- (Z2Nat.id i) at 1 by done. apply read_nat. Qed.

Lemma smoothed_or_fields ext surf prop u N o :
  m_fDataUnsmoothed (smoothed_or ext surf prop u N o) = m_fDataUnsmoothed o
  /\ m_dMaxValue (smoothed_or ext surf prop u N o) = m_dMaxValue o
  /\ m_dMinValue (smoothed_or ext surf prop u N o) = m_dMinValue o
  /\ m_nActiveFrame (smoothed_or ext surf prop u N o) = m_nActiveFrame o
  /\ m_surface (smoothed_or ext surf prop u N o) = m_surface o
  /\ m_property (smoothed_or ext surf prop u N o) = m_property o
  /\ m_fDataRaw (smoothed_or ext surf prop u N o) = m_fDataRaw o.
Proof.
  unfold smoothed_or. destruct (GetSmooth prop); [|done].
  by destruct (smoothing_outcome ext surf u N (GetSmoothSteps prop)).
Qed.

Lemma smoothed_or_links ext surf prop u N o :
  m_overlayPaired (smoothed_or ext surf prop u N o) = m_overlayPaired o
  /\ signalsBlocked (smoothed_or ext surf prop u N o) = signalsBlocked o
  /\ m_nDataSize (smoothed_or ext surf prop u N o) = m_nDataSize o
  /\ m_bCorrelationData (smoothed_or ext surf prop u N o) = m_bCorrelationData o
  /\ m_bCorrelationDataReady (smoothed_or ext surf prop u N o) = m_bCorrelationDataReady o
  /\ m_mriCorrelation (smoothed_or ext surf prop u N o) = m_mriCorrelation o
  /\ m_bComputeCorrelation (smoothed_or ext surf prop u N o) = m_bComputeCorrelation o.
Proof.
  unfold smoothed_or. destruct (GetSmooth prop); [|done].
  by destruct (smoothing_outcome ext surf u N (GetSmoothSteps prop)).
Qed.

(** X2.  When the selected frame starts with a NaN, [SetActiveFrame] caches
    that NaN as both the minimum and the maximum, whatever the other values
    of the frame are. *)
Theorem SetActiveFrame_nan_first ext w this raw N F k x0 :
  loaded w this raw N F ->
  0 < N -> 0 <= k < F -> Z.of_nat (length raw) = N * F -> N * F <= CInt.INT_MAX ->
  frame_slice raw N k !! 0%nat = Some x0 -> PrimFloat.is_nan x0 = true ->
  exists w',
    SetActiveFrame ext this k w = Some (tt, w')
    /\ result (observe this (fun o => (m_dMinValue o, m_dMaxValue o))) w' = Some (x0, x0).
Proof.
  intros Hld HN Hk Hlen Hint Hx0 Hnan.
  destruct (SetActiveFrame_loaded ext w this raw N F k Hld HN Hk Hlen Hint)
    as (o & surf & prop & w' & Ho & Hs & Hp & Hrun & _ & _ & _ & _ & Hov & _).
  exists w'. split; [done|]. unfold result, observe. rewrite Hov, lookup_insert_eq.
  destruct (smoothed_or_fields ext surf prop (frame_slice raw N k) N
              (frame_selected raw N k o)) as (_ & -> & -> & _).
  unfold frame_selected. fields.
  destruct (frame_slice raw N k) as [|y ys]; [done|]. injection Hx0 as ->.
  by rewrite range_of_nan_first.
Qed.

Lemma SetActiveFrame_nan_first_witness :
  exists w',
    SetActiveFrame example_ext 1%positive 0
      (set_overlays {[1%positive := set_m_fDataRaw (Some [nan; 7; 0; 4]%float) loaded_overlay]}
         loaded_world) = Some (tt, w')
    /\ result (observe 1%positive (fun o => (m_dMinValue o, m_dMaxValue o))) w'
       = Some (nan, nan).
Proof.
  apply (SetActiveFrame_nan_first example_ext _ 1%positive [nan; 7; 0; 4]%float 4 1 0 nan).
  - exists (set_m_fDataRaw (Some [nan; 7; 0; 4]%float) loaded_overlay),
      [0; 0; 0; 4]%float, [0; 0; 0; 4]%float, (tetrahedron 0),
      {| GetSmooth := false; GetSmoothSteps := 1 |}.
    repeat split; vm_compute; reflexivity.
  - lia.
  - lia.
  - reflexivity.
  - vm_compute; discriminate.
  - reflexivity.
  - reflexivity.
Defined.

(** X3.  With the smoothing option on, [SetActiveFrame k] keeps the frame's
    own values in the unsmoothed buffer and takes the cached range from them,
    while the working buffer receives their smoothed version; when the
    smoother delivers nothing the working buffer holds the frame's values. *)
Theorem SetActiveFrame_with_smoothing ext w this raw N F k prop :
  loaded w this raw N F -> property_of w this = Some prop -> GetSmooth prop = true ->
  0 < N -> 0 <= k < F -> Z.of_nat (length raw) = N * F -> N * F <= CInt.INT_MAX ->
  exists w' o' surf,
    SetActiveFrame ext this k w = Some (tt, w')
    /\ overlays w' !! this = Some o' /\ m_surface o' = Some surf
    /\ m_nActiveFrame o' = k
    /\ m_fDataUnsmoothed o' = Some (frame_slice raw N k)
    /\ (m_dMaxValue o', m_dMinValue o') = range_of (frame_slice raw N k)
    /\ m_fData o'
       = Some match smoothing_outcome ext surf (frame_slice raw N k) N
                      (GetSmoothSteps prop) with
              | Some smoothed => smoothed
              | None => frame_slice raw N k
              end.
Proof.
  intros Hld Hprop Hsm HN Hk Hlen Hint.
  destruct (SetActiveFrame_loaded ext w this raw N F k Hld HN Hk Hlen Hint)
    as (o & surf & prop' & w' & Ho & Hs & Hp & Hrun & _ & _ & _ & _ & Hov & _).
  unfold property_of in Hprop. rewrite Ho, Hp in Hprop. injection Hprop as ->.
  eexists w', _, surf. split; [done|].
  split; [rewrite Hov; apply lookup_insert_eq|].
  unfold smoothed_or. rewrite Hsm.
  destruct (smoothing_outcome ext surf (frame_slice raw N k) N (GetSmoothSteps prop)).
  all: unfold frame_selected; fields; repeat split; try done.
  all: by destruct (range_of (frame_slice raw N k)).
Qed.

Lemma SetActiveFrame_with_smoothing_witness :
  exists w' o' surf,
    SetActiveFrame example_ext 1%positive 1 (two_frame_world true) = Some (tt, w')
    /\ overlays w' !! 1%positive = Some o' /\ m_surface o' = Some surf
    /\ m_nActiveFrame o' = 1
    /\ m_fDataUnsmoothed o' = Some (frame_slice [1; 3; 2; 0; 5; 4; 7; 6]%float 4 1)
    /\ (m_dMaxValue o', m_dMinValue o')
       = range_of (frame_slice [1; 3; 2; 0; 5; 4; 7; 6]%float 4 1)
    /\ m_fData o'
       = Some match smoothing_outcome example_ext surf
                      (frame_slice [1; 3; 2; 0; 5; 4; 7; 6]%float 4 1) 4
                      (GetSmoothSteps {| GetSmooth := true; GetSmoothSteps := 1 |}) with
              | Some smoothed => smoothed
              | None => frame_slice [1; 3; 2; 0; 5; 4; 7; 6]%float 4 1
              end.
Proof.
  apply (SetActiveFrame_with_smoothing example_ext (two_frame_world true) 1%positive
           [1; 3; 2; 0; 5; 4; 7; 6]%float 4 2 1).
  - exists two_frame_overlay, [1; 3; 2; 0]%float, [1; 3; 2; 0]%float, (tetrahedron 0),
      {| GetSmooth := true; GetSmoothSteps := 1 |}.
    repeat split; reflexivity.
  - reflexivity.
  - reflexivity.
  - lia.
  - lia.
  - reflexivity.
  - vm_compute; discriminate.
Defined.

Lemma frame_selected_twice ext surf prop u raw N j k o :
  frame_selected raw N k (smoothed_or ext surf prop u N (frame_selected raw N j o))
  = frame_selected raw N k o.
Proof.
  unfold smoothed_or, frame_selected.
  destruct (GetSmooth prop); [|by destruct o].
  destruct (smoothing_outcome ext surf u N (GetSmoothSteps prop)); by destruct o.
Qed.

(** X4.  The last frame selection wins.  Selecting frame [j] and then frame
    [k] leaves every overlay as selecting frame [k] at once does: the buffers
    and the cached range depend on the raw data and on [k] only, not on the
    frame shown before. *)
Theorem SetActiveFrame_last_wins ext w this raw N F j k :
  loaded w this raw N F ->
  0 < N -> 0 <= j < F -> 0 <= k < F ->
  Z.of_nat (length raw) = N * F -> N * F <= CInt.INT_MAX ->
  exists w1 w2 w2',
    SetActiveFrame ext this j w = Some (tt, w1)
    /\ SetActiveFrame ext this k w1 = Some (tt, w2)
    /\ SetActiveFrame ext this k w = Some (tt, w2')
    /\ overlays w2 = overlays w2'
    /\ properties w2 = properties w2' /\ notifications w2 = notifications w2'.
Proof.
  intros Hld HN Hj Hk Hlen Hint.
  destruct (SetActiveFrame_loaded ext w this raw N F j Hld HN Hj Hlen Hint)
    as (o & surf & prop & w1 & Ho & Hs & Hp & Hrun1 & Hpr1 & Hnot1 & _ & _ & Hov1 & Hld1).
  destruct (SetActiveFrame_loaded ext w1 this raw N F k Hld1 HN Hk Hlen Hint)
    as (o1 & surf1 & prop1 & w2 & Ho1 & Hs1 & Hp1 & Hrun2 & Hpr2 & Hnot2 & _ & _ & Hov2 & _).
  destruct (SetActiveFrame_loaded ext w this raw N F k Hld HN Hk Hlen Hint)
    as (o' & surf' & prop' & w2' & Ho' & Hs' & Hp' & Hrun' & Hpr' & Hnot' & _ & _ & Hov' & _).
  exists w1, w2, w2'. split; [done|]. split; [done|]. split; [done|].
  split; [|split; congruence].
  rewrite Ho in Ho'. injection Ho' as <-.
  rewrite Hs in Hs'. injection Hs' as <-. rewrite Hp in Hp'. injection Hp' as <-.
  rewrite Hov1, lookup_insert_eq in Ho1. injection Ho1 as <-.
  destruct (smoothed_or_fields ext surf prop (frame_slice raw N j) N
              (frame_selected raw N j o)) as (_ & _ & _ & _ & Hsf & Hpf & _).
  rewrite Hsf in Hs1. rewrite Hpf, Hpr1 in Hp1.
  unfold frame_selected in Hs1, Hp1. fields.
  rewrite Hs in Hs1. injection Hs1 as <-. rewrite Hp in Hp1. injection Hp1 as <-.
  rewrite Hov2, Hov', Hov1, insert_insert_eq. by rewrite frame_selected_twice.
Qed.

Lemma SetActiveFrame_last_wins_witness :
  exists w1 w2 w2',
    SetActiveFrame example_ext 1%positive 1 (two_frame_world true) = Some (tt, w1)
    /\ SetActiveFrame example_ext 1%positive 0 w1 = Some (tt, w2)
    /\ SetActiveFrame example_ext 1%positive 0 (two_frame_world true) = Some (tt, w2')
    /\ overlays w2 = overlays w2'
    /\ properties w2 = properties w2' /\ notifications w2 = notifications w2'.
Proof.
  apply (SetActiveFrame_last_wins example_ext (two_frame_world true) 1%positive
           [1; 3; 2; 0; 5; 4; 7; 6]%float 4 2 1 0).
  - exists two_frame_overlay, [1; 3; 2; 0]%float, [1; 3; 2; 0]%float, (tetrahedron 0),
      {| GetSmooth := true; GetSmoothSteps := 1 |}.
    repeat split; reflexivity.
  - lia.
  - lia.
  - lia.
  - reflexivity.
  - vm_compute; discriminate.
Defined.

(** X5.  With smoothing off, [GetDataAtVertex v] after [SetActiveFrame k]
    returns the raw value of vertex [v] in frame [k], [raw[k*N + v]]. *)
Theorem GetDataAtVertex_after_SetActiveFrame ext w this raw N F k v prop :
  loaded w this raw N F -> property_of w this = Some prop -> GetSmooth prop = false ->
  0 < N -> 0 <= k < F -> 0 <= v < N ->
  Z.of_nat (length raw) = N * F -> N * F <= CInt.INT_MAX ->
  exists x,
    raw !! Z.to_nat (k * N + v) = Some x
    /\ result (SetActiveFrame ext this k ;;; GetDataAtVertex this v) w = Some x.
Proof.
  intros Hld Hprop Hsm HN Hk Hv Hlen Hint.
  destruct (SetActiveFrame_loaded ext w this raw N F k Hld HN Hk Hlen Hint)
    as (o & surf & prop' & w' & Ho & Hs & Hp & Hrun & _ & _ & _ & _ & Hov & _).
  unfold property_of in Hprop. rewrite Ho, Hp in Hprop. injection Hprop as ->.
  destruct (lookup_lt_is_Some_2 raw (Z.to_nat (k * N + v))) as [x Hx]; [nia|].
  exists x. split; [done|].
  unfold result. rewrite (bind_run _ _ _ _ _ Hrun). unfold GetDataAtVertex.
  erewrite bind_deref by (rewrite Hov; apply lookup_insert_eq).
  unfold smoothed_or. rewrite Hsm. unfold frame_selected. fields.
  rewrite read_Z by lia.
  unfold frame_slice. rewrite lookup_take_lt by lia. rewrite lookup_drop.
  replace (Z.to_nat (k * N) + Z.to_nat v)%nat with (Z.to_nat (k * N + v)) by nia.
  by rewrite Hx.
Qed.

Lemma GetDataAtVertex_after_SetActiveFrame_witness :
  exists x,
    [1; 3; 2; 0; 5; 4; 7; 6]%float !! Z.to_nat (1 * 4 + 2) = Some x
    /\ result (SetActiveFrame example_ext 1%positive 1 ;;; GetDataAtVertex 1%positive 2)
         (two_frame_world false) = Some x.
Proof.
  apply (GetDataAtVertex_after_SetActiveFrame example_ext (two_frame_world false) 1%positive
           [1; 3; 2; 0; 5; 4; 7; 6]%float 4 2 1 2
           {| GetSmooth := false; GetSmoothSteps := 1 |}).
  - exists two_frame_overlay, [1; 3; 2; 0]%float, [1; 3; 2; 0]%float, (tetrahedron 0),
      {| GetSmooth := false; GetSmoothSteps := 1 |}.
    repeat split; reflexivity.
  - reflexivity.
  - reflexivity.
  - lia.
  - lia.
  - lia.
  - reflexivity.
  - vm_compute; discriminate.
Defined.

(** ** Smoothing *)

(** X6.  [SmoothData(nSteps, data_out)] with an output buffer writes the
    smoothed values there and changes nothing else: the working buffer, the
    diagnostic stream and every other object stay as they were.  The step
    count is the argument when it is at least 1 and the property's otherwise. *)
Theorem SmoothData_into_buffer ext w this o u surf out nSteps_in steps smoothed :
  overlays w !! this = Some o ->
  m_fDataUnsmoothed o = Some u -> Z.of_nat (length u) = m_nDataSize o ->
  m_surface o = Some surf ->
  m_nDataSize o <= Z.of_nat (length out) ->
  requested_steps w this nSteps_in = Some steps ->
  smoothing_outcome ext surf u (m_nDataSize o) steps = Some smoothed ->
  SmoothData ext this nSteps_in (Some out) w
  = Some (Some (smoothed ++ drop (Z.to_nat (m_nDataSize o)) out), w).
Proof.
  intros Ho Hu Hul Hs Hout Hsteps Hsm.
  assert (Hsml : Z.of_nat (length smoothed) = m_nDataSize o)
    by (eapply smoothing_outcome_length; [exact Hsm | lia]).
  unfold smoothing_outcome in Hsm. unfold SmoothData. step.
  destruct (MRIallocSequence ext (m_nDataSize o)); [|done]. cbn [negb].
  rewrite Hu, memcpy_same_length by (rewrite ?repeat_length; lia). step.
  destruct (MRISsmoothMRI ext surf u steps) as [f|] eqn:Hf; [|done].
  injection Hsm as Hsm.
  unfold requested_steps, property_of in Hsteps. rewrite Ho in Hsteps.
  destruct (nSteps_in <? 1).
  - destruct (properties w !! m_property o) as [prop|] eqn:Hp; [|done].
    injection Hsteps as <-. repeat step. rewrite Hs. step. rewrite Hf, Hsm.
    rewrite memcpy_prefix by lia. by repeat step.
  - injection Hsteps as <-. repeat step. rewrite Hs. step. rewrite Hf, Hsm.
    rewrite memcpy_prefix by lia. by repeat step.
Qed.

Lemma SmoothData_into_buffer_witness :
  SmoothData example_ext 1%positive 3 (Some [9; 9; 9; 9; 9]%float) loaded_world
  = Some (Some ([1; 1; 1; 1]%float ++ drop (Z.to_nat (m_nDataSize loaded_overlay))
                                        [9; 9; 9; 9; 9]%float), loaded_world).
Proof.
  apply (SmoothData_into_buffer example_ext loaded_world 1%positive loaded_overlay
           [0; 0; 0; 4]%float (tetrahedron 0) [9; 9; 9; 9; 9]%float 3 3 [1; 1; 1; 1]%float).
  - vm_compute; reflexivity.
  - reflexivity.
  - reflexivity.
  - reflexivity.
  - vm_compute; discriminate.
  - reflexivity.
  - vm_compute; reflexivity.
Defined.

(** X7.  Smoothing does not accumulate.  [SmoothData()] always starts from the
    unsmoothed snapshot, so calling it a second time leaves the same working
    buffer, and the same world, as calling it once. *)
Theorem SmoothData_twice ext w this o d u surf prop smoothed :
  overlays w !! this = Some o ->
  m_fData o = Some d -> m_fDataUnsmoothed o = Some u ->
  Z.of_nat (length d) = m_nDataSize o -> Z.of_nat (length u) = m_nDataSize o ->
  m_surface o = Some surf -> properties w !! m_property o = Some prop ->
  smoothing_outcome ext surf u (m_nDataSize o) (GetSmoothSteps prop) = Some smoothed ->
  (SmoothData_default ext this ;;; SmoothData_default ext this) w
  = SmoothData_default ext this w
  /\ result (SmoothData_default ext this ;;; observe this m_fData) w = Some (Some smoothed).
Proof.
  intros Ho Hd Hu Hdl Hul Hs Hp Hsm.
  assert (Hsml : Z.of_nat (length smoothed) = m_nDataSize o)
    by (eapply smoothing_outcome_length; [exact Hsm | lia]).
  pose proof (SmoothData_default_run ext w this o d u surf prop Ho Hd Hu Hdl Hul Hs Hp)
    as Hrun.
  rewrite Hsm in Hrun. split.
  - rewrite (bind_run _ _ _ _ _ Hrun), Hrun.
    rewrite (SmoothData_default_run ext _ this (set_m_fData (Some smoothed) o)
               smoothed u surf prop);
      [|first [lookup_solver | fields; first [reflexivity | lia | eassumption]]..].
    fields. rewrite Hsm. collapse. by destruct o.
  - unfold result. rewrite (bind_run _ _ _ _ _ Hrun). unfold observe.
    cbn [overlays set_overlays]. by rewrite lookup_insert_eq.
Qed.

Lemma SmoothData_twice_witness :
  (SmoothData_default example_ext 1%positive ;;; SmoothData_default example_ext 1%positive)
    loaded_world
  = SmoothData_default example_ext 1%positive loaded_world
  /\ result (SmoothData_default example_ext 1%positive ;;; observe 1%positive m_fData)
       loaded_world = Some (Some [1; 1; 1; 1]%float).
Proof.
  apply (SmoothData_twice example_ext loaded_world 1%positive loaded_overlay
           [0; 0; 0; 4]%float [0; 0; 0; 4]%float (tetrahedron 0)
           {| GetSmooth := false; GetSmoothSteps := 1 |} [1; 1; 1; 1]%float).
  all: vm_compute; reflexivity.
Defined.

Section UpdateSmoothTrace.

Variable ext : Externals.

(** [UpdateSmooth(false)] on a ready overlay, with what it announces. *)
Lemma UpdateSmooth_untriggered_trace w q oq dq uq surf prop :
  overlays w !! q = Some oq ->
  m_fData oq = Some dq -> m_fDataUnsmoothed oq = Some uq ->
  Z.of_nat (length dq) = m_nDataSize oq -> Z.of_nat (length uq) = m_nDataSize oq ->
  m_surface oq = Some surf -> properties w !! m_property oq = Some prop ->
  exists w',
    UpdateSmooth_untriggered ext q w = Some (tt, w')
    /\ overlays w'
       = <[q := set_m_fData
                  (Some (if GetSmooth prop then
                           match smoothing_outcome ext surf uq (m_nDataSize oq)
                                   (GetSmoothSteps prop) with
                           | Some sm => sm
                           | None => dq
                           end
                         else uq)) oq]> (overlays w)
    /\ properties w' = properties w
    /\ notifications w'
       = (if signalsBlocked oq then [] else [DataUpdated q])
         ++ SurfaceUpdateOverlay q :: notifications w.
Proof.
  intros Hq Hd Hu Hdl Hul Hs Hp.
  unfold UpdateSmooth_untriggered, surface_UpdateOverlay, emit_DataUpdated.
  step. destruct (GetSmooth prop) eqn:Hsm.
  - erewrite bind_run;
      [|by apply (SmoothData_default_run ext w q oq dq uq surf prop)].
    destruct (smoothing_outcome ext surf uq (m_nDataSize oq) (GetSmoothSteps prop))
      as [sm|] eqn:Hout.
    + repeat step. fields. rewrite Hs. repeat step. fields.
      destruct (signalsBlocked oq); eexists; (split; [reflexivity|]); done.
    + repeat step. rewrite Hs. repeat step.
      destruct (signalsBlocked oq); eexists; (split; [reflexivity|]).
      all: cbn; by rewrite (set_m_fData_same _ _ Hd), (insert_id _ _ _ Hq).
  - repeat step. rewrite Hd, Hu, memcpy_same_length by lia. repeat step.
    fields. rewrite Hs. repeat step. fields. collapse.
    destruct (signalsBlocked oq); eexists; (split; [reflexivity|]); done.
Qed.

End UpdateSmoothTrace.

(** X8.  [UpdateSmooth(true)] on an overlay [A] paired with [B] refreshes [A]
    and then [B], each from its own unsmoothed snapshot (smoothed when the
    option is on, copied back when it is off), and [B] does not call back:
    each of the two overlays redraws its mesh and announces its data once. *)
Theorem UpdateSmooth_refreshes_pair ext w A B oA oB dA uA dB uB surfA surfB propA propB :
  A <> B ->
  overlays w !! A = Some oA -> overlays w !! B = Some oB ->
  m_overlayPaired oA = Some B ->
  m_fData oA = Some dA -> m_fDataUnsmoothed oA = Some uA ->
  Z.of_nat (length dA) = m_nDataSize oA -> Z.of_nat (length uA) = m_nDataSize oA ->
  m_surface oA = Some surfA -> properties w !! m_property oA = Some propA ->
  m_fData oB = Some dB -> m_fDataUnsmoothed oB = Some uB ->
  Z.of_nat (length dB) = m_nDataSize oB -> Z.of_nat (length uB) = m_nDataSize oB ->
  m_surface oB = Some surfB -> properties w !! m_property oB = Some propB ->
  signalsBlocked oA = false -> signalsBlocked oB = false ->
  let refreshed (surf : LayerSurface) (prop : SurfaceOverlayProperty)
        (d u : list float) (N : Z) :=
    if GetSmooth prop then
      match smoothing_outcome ext surf u N (GetSmoothSteps prop) with
      | Some sm => sm
      | None => d
      end
    else u in
  exists w',
    UpdateSmooth ext A true w = Some (tt, w')
    /\ result (observe A m_fData) w'
       = Some (Some (refreshed surfA propA dA uA (m_nDataSize oA)))
    /\ result (observe B m_fData) w'
       = Some (Some (refreshed surfB propB dB uB (m_nDataSize oB)))
    /\ notifications w'
       = [DataUpdated B; SurfaceUpdateOverlay B; DataUpdated A; SurfaceUpdateOverlay A]
         ++ notifications w.
Proof.
  intros HAB HoA HoB Hpair HdA HuA HdlA HulA HsA HpA HdB HuB HdlB HulB HsB HpB HblA HblB
    refreshed.
  destruct (UpdateSmooth_untriggered_trace ext w A oA dA uA surfA propA)
    as (w1 & Hrun1 & Hov1 & Hpr1 & Hnot1); try done.
  destruct (UpdateSmooth_untriggered_trace ext w1 B oB dB uB surfB propB)
    as (w2 & Hrun2 & Hov2 & Hpr2 & Hnot2); try done.
  { rewrite Hov1. by rewrite lookup_insert_ne. }
  { by rewrite Hpr1. }
  exists w2. split.
  { unfold UpdateSmooth. rewrite (bind_run _ _ _ _ _ Hrun1).
    erewrite bind_deref by (rewrite Hov1; apply lookup_insert_eq).
    fields. by rewrite Hpair. }
  unfold result, observe. rewrite Hov2, Hov1.
  rewrite lookup_insert_ne, !lookup_insert_eq by done.
  split; [done|]. split; [done|].
  rewrite Hnot2, Hnot1, HblA, HblB. reflexivity.
Qed.

Lemma UpdateSmooth_refreshes_pair_witness :
  exists w',
    UpdateSmooth example_ext 1%positive true paired_world = Some (tt, w')
    /\ result (observe 1%positive m_fData) w' = Some (Some [0; 0; 0; 0]%float)
    /\ result (observe 2%positive m_fData) w' = Some (Some [0; 0; 0; 0]%float)
    /\ notifications w'
       = [DataUpdated 2%positive; SurfaceUpdateOverlay 2%positive;
          DataUpdated 1%positive; SurfaceUpdateOverlay 1%positive]
         ++ notifications paired_world.
Proof.
  apply (UpdateSmooth_refreshes_pair example_ext paired_world 1%positive 2%positive
           paired_A paired_B [0; 0; 0; 0]%float [0; 0; 0; 0]%float
           [0; 0; 0; 0]%float [0; 0; 0; 0]%float (tetrahedron 0) (tetrahedron 1)
           {| GetSmooth := false; GetSmoothSteps := 1 |}
           {| GetSmooth := false; GetSmoothSteps := 1 |}).
  all: try (vm_compute; reflexivity).
  vm_compute; discriminate.
Defined.

(** ** Construction *)

Lemma fill_loop_range (src : Z -> option float) (f : nat -> float) (n i : nat)
    (data : buffer) (r : float * float) d r' :
  (forall k, (i <= k < i + n)%nat -> src (Z.of_nat k) = Some (f k)) ->
  fill_loop src (Z.of_nat i) n data r = Some (d, r') ->
  r' = foldl (fun r x => update_range x r) r (map f (seq i n)).
Proof.
  revert i data r. induction n as [|n IH]; intros i data r Hsrc Hrun.
  - cbn in Hrun. by injection Hrun as _ <-.
  - cbn [fill_loop] in Hrun. rewrite Hsrc in Hrun by lia.
    destruct (write data (Z.of_nat i) (f i)) as [b|]; [|done].
    replace (Z.of_nat i + 1) with (Z.of_nat (S i)) in Hrun by lia.
    apply IH in Hrun; [|intros k Hk; apply Hsrc; lia]. by subst r'.
Qed.

Lemma map_lookup_seq (l : list float) (d : float) :
  map (fun k => default d (l !! k)) (seq 0 (length l)) = l.
Proof.
  apply list_eq. intros k. rewrite list_lookup_fmap.
  destruct (l !! k) as [x|] eqn:Hx.
  - rewrite lookup_seq_lt by (by eapply lookup_lt_Some). cbn. by rewrite Hx.
  - rewrite lookup_seq_ge by (by apply lookup_ge_None). done.
Qed.

(** The constructor on a mesh, with every member it sets and the two it
    leaves as they come: the unsmoothed buffer and the ready flag. *)
Lemma new_SurfaceOverlay_run ext w this surf :
  overlays w !! this = None ->
  0 < mris_nvertices surf ->
  Z.of_nat (length (mris_vertices_val surf)) = mris_nvertices surf ->
  exists w' o,
    new_SurfaceOverlay ext this (Some surf) w = Some (tt, w')
    /\ overlays w' = <[this := o]> (overlays w)
    /\ properties w' = <[next_object w := new_SurfaceOverlayProperty ext]> (properties w)
    /\ volumes w' = volumes w /\ released w' = released w
    /\ notifications w' = notifications w
    /\ m_property o = next_object w
    /\ m_surface o = Some surf
    /\ m_nDataSize o = mris_nvertices surf
    /\ m_fData o = Some (mris_vertices_val surf)
    /\ m_fDataRaw o = Some (mris_vertices_val surf)
    /\ m_fDataUnsmoothed o
       = Some (map (uninitialized ext) (seq 0 (Z.to_nat (mris_nvertices surf))))
    /\ (m_dMaxValue o, m_dMinValue o) = range_of (mris_vertices_val surf)
    /\ m_nNumOfFrames o = 1 /\ m_nActiveFrame o = 0
    /\ m_bCorrelationData o = false
    /\ m_bCorrelationDataReady o = uninitialized_bool ext
    /\ m_bComputeCorrelation o = false
    /\ m_overlayPaired o = None /\ m_mriCorrelation o = None
    /\ m_volumeCorrelationSource o = None.
Proof.
  intros Hfresh HN Hlen. set (vals := mris_vertices_val surf) in *.
  set (N := mris_nvertices surf) in *.
  unfold new_SurfaceOverlay. unfold bind at 1. rewrite Hfresh.
  unfold InitializeData_from_surface. repeat step. fields.
  repeat first [step | rewrite bind_new_float by lia]. fields. fold vals N.
  destruct (lookup_lt_is_Some_2 vals 0%nat) as [v0 Hv0]; [lia|].
  change 0 with (Z.of_nat 0) at 1. rewrite read_nat, Hv0. repeat step. fields.
  set (garbage := map (uninitialized ext) (seq 0 (Z.to_nat N))).
  assert (Hg : Z.of_nat (length garbage) = N)
    by (unfold garbage; rewrite length_map, length_seq; lia).
  assert (Hsrc : forall k, (k < Z.to_nat N)%nat ->
                           read (Some vals) (Z.of_nat k) = Some (default 0%float (vals !! k))).
  { intros k Hk. rewrite read_nat.
    destruct (lookup_lt_is_Some_2 vals k) as [x ->]; [lia | done]. }
  destruct (fill_loop_whole (read (Some vals)) (fun k => default 0%float (vals !! k)) N
              garbage (v0, v0) Hsrc Hg) as [r' Hfill].
  pose proof (fill_loop_range (read (Some vals)) (fun k => default 0%float (vals !! k))
                (Z.to_nat N) 0 (Some garbage) (v0, v0) _ r'
                (fun k Hk => Hsrc k ltac:(lia)) Hfill) as Hr.
  replace (Z.to_nat N) with (length vals) in Hfill, Hr by lia.
  rewrite map_lookup_seq in Hfill, Hr.
  replace (Z.to_nat N) with (length vals) by lia.
  rewrite Hfill. repeat step. fields. cbn [fst snd].
  rewrite memcpy_same_length by lia. repeat step.
  unfold new_property, allocate_address. rewrite !bind_bind. unfold bind at 1.
  unfold bind at 1. unfold assign. collapse. rewrite lookup_insert_eq.
  eexists _, _. split; [reflexivity|]. collapse. split; [reflexivity|].
  split; [reflexivity|]. fields.
  do 9 (split; [reflexivity|]).
  assert (Hrange : r' = range_of vals).
  { rewrite Hr. unfold range_of. destruct vals as [|y ys]; [done|].
    cbn in Hv0. by injection Hv0 as ->. }
  split; [rewrite Hrange; by destruct (range_of vals)|].
  by repeat split.
Qed.

(** X9.  The constructor on a mesh of [N > 0] vertices leaves an overlay of
    one frame whose working and raw buffers hold the mesh's per-vertex
    values and whose cached range is the one the range loop computes over
    them; it has no correlation data, no paired overlay, and a property
    object of its own, newly allocated. *)
Theorem new_SurfaceOverlay_from_mesh ext w this surf :
  overlays w !! this = None ->
  0 < mris_nvertices surf ->
  Z.of_nat (length (mris_vertices_val surf)) = mris_nvertices surf ->
  exists w' o,
    new_SurfaceOverlay ext this (Some surf) w = Some (tt, w')
    /\ overlays w' = <[this := o]> (overlays w)
    /\ properties w' = <[next_object w := new_SurfaceOverlayProperty ext]> (properties w)
    /\ m_property o = next_object w
    /\ m_surface o = Some surf
    /\ m_nDataSize o = mris_nvertices surf
    /\ m_fData o = Some (mris_vertices_val surf)
    /\ m_fDataRaw o = Some (mris_vertices_val surf)
    /\ (m_dMaxValue o, m_dMinValue o) = range_of (mris_vertices_val surf)
    /\ (forall v0, mris_vertices_val surf !! 0%nat = Some v0 ->
                   PrimFloat.is_nan v0 = false ->
         is_maximum (m_dMaxValue o) (mris_vertices_val surf)
         /\ is_minimum (m_dMinValue o) (mris_vertices_val surf))
    /\ m_nNumOfFrames o = 1 /\ m_nActiveFrame o = 0
    /\ m_bCorrelationData o = false /\ m_bComputeCorrelation o = false
    /\ m_overlayPaired o = None /\ m_mriCorrelation o = None
    /\ m_volumeCorrelationSource o = None.
Proof.
  intros Hfresh HN Hlen.
  destruct (new_SurfaceOverlay_run ext w this surf Hfresh HN Hlen)
    as (w' & o & Hrun & Hov & Hpr & _ & _ & _ & Hp & Hs & Hsize & Hd & Hraw & _ & Hrange
        & HF & Hframe & Hcd & _ & Hcc & Hpair & Hmri & Hsrc).
  exists w', o. do 9 (split; [done|]). split; [|done].
  intros v0 Hv0 Hnan.
  assert (Hmax : m_dMaxValue o = fst (range_of (mris_vertices_val surf)))
    by (by rewrite <- Hrange).
  assert (Hmin : m_dMinValue o = snd (range_of (mris_vertices_val surf)))
    by (by rewrite <- Hrange).
  rewrite Hmax, Hmin. unfold range_of.
  destruct (mris_vertices_val surf) as [|y ys]; [done|].
  cbn in Hv0. injection Hv0 as ->. apply (range_of_slice v0 ys Hnan).
Qed.

Lemma new_SurfaceOverlay_from_mesh_witness :
  exists w' o,
    new_SurfaceOverlay example_ext 1%positive (Some mesh_with_values) empty_world
    = Some (tt, w')
    /\ overlays w' = <[1%positive := o]> (overlays empty_world)
    /\ properties w'
       = <[next_object empty_world := new_SurfaceOverlayProperty example_ext]>
           (properties empty_world)
    /\ m_property o = next_object empty_world
    /\ m_surface o = Some mesh_with_values
    /\ m_nDataSize o = mris_nvertices mesh_with_values
    /\ m_fData o = Some (mris_vertices_val mesh_with_values)
    /\ m_fDataRaw o = Some (mris_vertices_val mesh_with_values)
    /\ (m_dMaxValue o, m_dMinValue o) = range_of (mris_vertices_val mesh_with_values)
    /\ (forall v0, mris_vertices_val mesh_with_values !! 0%nat = Some v0 ->
                   PrimFloat.is_nan v0 = false ->
         is_maximum (m_dMaxValue o) (mris_vertices_val mesh_with_values)
         /\ is_minimum (m_dMinValue o) (mris_vertices_val mesh_with_values))
    /\ m_nNumOfFrames o = 1 /\ m_nActiveFrame o = 0
    /\ m_bCorrelationData o = false /\ m_bComputeCorrelation o = false
    /\ m_overlayPaired o = None /\ m_mriCorrelation o = None
    /\ m_volumeCorrelationSource o = None.
Proof.
  apply (new_SurfaceOverlay_from_mesh example_ext empty_world 1%positive mesh_with_values).
  - reflexivity.
  - reflexivity.
  - reflexivity.
Defined.

(** ** Loading data *)

(** X10.  [InitializeData(data, N, F)] shows frame 0, resets the display
    property once, from the range of frame 0, and allocates the two work
    buffers of compute-correlation mode with one slot per frame, the source
    buffer zeroed.  It leaves the compute-correlation flag, the correlation
    flags and the pairing as they were. *)
Theorem InitializeData_resets ext w this o surf prop raw N F :
  overlays w !! this = Some o ->
  m_surface o = Some surf -> properties w !! m_property o = Some prop ->
  0 < N -> 0 <= F -> N <= Z.of_nat (length raw) ->
  let slice := frame_slice raw N 0 in
  exists w1 o1 buf,
    InitializeData ext this (Some raw) N F w = Some (tt, w1)
    /\ overlays w1 = <[this := o1]> (overlays w)
    /\ properties w1
       = <[m_property o := Reset ext prop (fst (range_of slice)) (snd (range_of slice))]>
           (properties w)
    /\ notifications w1 = notifications w
    /\ m_nActiveFrame o1 = 0 /\ m_nDataSize o1 = N /\ m_nNumOfFrames o1 = F
    /\ m_fDataRaw o1 = Some raw /\ m_fDataUnsmoothed o1 = Some slice
    /\ (m_dMaxValue o1, m_dMinValue o1) = range_of slice
    /\ m_fCorrelationSourceData o1 = Some (repeat 0%float (Z.to_nat F))
    /\ m_fCorrelationDataBuffer o1 = Some buf /\ Z.of_nat (length buf) = F
    /\ m_bComputeCorrelation o1 = m_bComputeCorrelation o
    /\ m_bCorrelationData o1 = m_bCorrelationData o
    /\ m_bCorrelationDataReady o1 = m_bCorrelationDataReady o
    /\ m_mriCorrelation o1 = m_mriCorrelation o
    /\ m_overlayPaired o1 = m_overlayPaired o
    /\ m_property o1 = m_property o.
Proof.
  intros Ho Hs Hp HN HF Hlen slice. unfold InitializeData.
  step. rewrite Hs. cbv beta iota.
  repeat first [step | rewrite bind_new_float by lia]. collapse.
  set (garbage := map (uninitialized ext) (seq 0 (Z.to_nat N))).
  assert (Hg : Z.of_nat (length garbage) = N)
    by (unfold garbage; rewrite length_map, length_seq; lia).
  match goal with
  | |- context [<[this := ?x]> (overlays w)] => set (o0 := x)
  end.
  erewrite bind_run; cycle 1.
  { apply (SetActiveFrame_run ext _ this o0 raw garbage garbage surf prop 0);
      try first [ lookup_solver
                | unfold o0; fields; first [reflexivity | lia | eassumption] ].
    all: unfold o0, CInt.INT_MAX; fields; destruct (0 >=? F); lia. }
  replace (0 <=? F) with true by (symmetry; apply Z.leb_le; lia).
  replace (m_nDataSize o0) with N by reflexivity.
  replace (if 0 >=? m_nNumOfFrames o0 then 0 else 0) with 0
    by (by destruct (0 >=? m_nNumOfFrames o0)).
  fold slice.
  destruct (GetSmooth prop);
    [destruct (smoothing_outcome ext surf slice N (GetSmoothSteps prop)) as [sm|] eqn:Hsm|].
  all: erewrite bind_property_Reset;
    [|lookup_solver|unfold o0; fields; lookup_solver].
  all: repeat first [step | rewrite bind_new_float by lia].
  all: unfold assign; collapse; rewrite lookup_insert_eq.
  all: eexists _, _, (map (uninitialized ext) (seq 0 (Z.to_nat F))).
  all: split; [reflexivity|]; collapse.
  all: split; [reflexivity|]; unfold o0; fields.
  all: split; [reflexivity|].
  all: repeat split; try reflexivity; try (by destruct (range_of slice)).
  all: rewrite length_map, length_seq; lia.
Qed.

Lemma InitializeData_resets_witness :
  exists w1 o1 buf,
    InitializeData example_ext 1%positive (Some [1; 3; 2; 0; 5; 4; 7; 6]%float) 4 2
      example_world = Some (tt, w1)
    /\ overlays w1 = <[1%positive := o1]> (overlays example_world)
    /\ properties w1
       = <[m_property example_overlay :=
             Reset example_ext {| GetSmooth := false; GetSmoothSteps := 1 |}
               (fst (range_of (frame_slice [1; 3; 2; 0; 5; 4; 7; 6]%float 4 0)))
               (snd (range_of (frame_slice [1; 3; 2; 0; 5; 4; 7; 6]%float 4 0)))]>
           (properties example_world)
    /\ notifications w1 = notifications example_world
    /\ m_nActiveFrame o1 = 0 /\ m_nDataSize o1 = 4 /\ m_nNumOfFrames o1 = 2
    /\ m_fDataRaw o1 = Some [1; 3; 2; 0; 5; 4; 7; 6]%float
    /\ m_fDataUnsmoothed o1 = Some (frame_slice [1; 3; 2; 0; 5; 4; 7; 6]%float 4 0)
    /\ (m_dMaxValue o1, m_dMinValue o1)
       = range_of (frame_slice [1; 3; 2; 0; 5; 4; 7; 6]%float 4 0)
    /\ m_fCorrelationSourceData o1 = Some (repeat 0%float (Z.to_nat 2))
    /\ m_fCorrelationDataBuffer o1 = Some buf /\ Z.of_nat (length buf) = 2
    /\ m_bComputeCorrelation o1 = m_bComputeCorrelation example_overlay
    /\ m_bCorrelationData o1 = m_bCorrelationData example_overlay
    /\ m_bCorrelationDataReady o1 = m_bCorrelationDataReady example_overlay
    /\ m_mriCorrelation o1 = m_mriCorrelation example_overlay
    /\ m_overlayPaired o1 = m_overlayPaired example_overlay
    /\ m_property o1 = m_property example_overlay.
Proof.
  apply (InitializeData_resets example_ext example_world 1%positive example_overlay
           (tetrahedron 0) {| GetSmooth := false; GetSmoothSteps := 1 |}
           [1; 3; 2; 0; 5; 4; 7; 6]%float 4 2).
  - reflexivity.
  - reflexivity.
  - reflexivity.
  - lia.
  - lia.
  - vm_compute; discriminate.
Defined.

(** ** Correlation data *)

Lemma dimensions_match_check (mri : MRI) (N : Z) :
  dimensions_match mri N ->
  negb (width mri =? N * 2)
  || negb (height mri =? 1) && negb (height mri =? N * 2)
  || negb (nframes mri =? 1) && negb (nframes mri =? N * 2) = false.
Proof.
  intros (Hw & Hh & Hf).
  rewrite !orb_false_iff, !andb_false_iff, !negb_false_iff, !Z.eqb_eq. lia.
Qed.

Lemma LoadCorrelationData_run ext w this filename o header mri :
  overlays w !! this = Some o ->
  CInt.in_range (m_nDataSize o * 2) ->
  MRIreadHeader ext filename = Some header ->
  dimensions_match header (m_nDataSize o) ->
  MRIread ext filename = Some mri ->
  LoadCorrelationData ext this filename w
  = Some (true,
          set_overlays
            (<[this := set_m_bCorrelationDataReady false
                         (set_m_bCorrelationData true
                            (set_m_mriCorrelation (Some (next_object w)) o))]> (overlays w))
            (set_volumes (<[next_object w := mri]> (volumes w))
               (set_next_object (Pos.succ (next_object w)) w))).
Proof.
  intros Ho Hrange Hheader Hdims Hread. unfold LoadCorrelationData.
  rewrite Hheader. step. unfold CInt.mul. rewrite (wrap_in_range _ Hrange).
  rewrite (dimensions_match_check _ _ Hdims), Hread.
  unfold new_volume, allocate_address. rewrite !bind_bind. unfold bind at 1.
  unfold bind at 1. repeat step. by collapse.
Qed.


(** X11.  When the header fits the surface and the volume is read,
    [LoadCorrelationData] returns [true], stores the volume as a new object
    and points the overlay to it, with the correlation-data flag set and the
    ready flag cleared.  It writes no diagnostic and announces nothing, the
    buffers are untouched, and it releases nothing: every volume that was
    allocated before, a matrix the overlay pointed to included, still is. *)
Theorem LoadCorrelationData_success ext w this filename o header mri :
  overlays w !! this = Some o ->
  CInt.in_range (m_nDataSize o * 2) ->
  MRIreadHeader ext filename = Some header ->
  dimensions_match header (m_nDataSize o) ->
  MRIread ext filename = Some mri ->
  volumes w !! next_object w = None ->
  exists w' o' m,
    LoadCorrelationData ext this filename w = Some (true, w')
    /\ overlays w' = <[this := o']> (overlays w)
    /\ m_mriCorrelation o' = Some m /\ volumes w' !! m = Some mri
    /\ m_bCorrelationData o' = true /\ m_bCorrelationDataReady o' = false
    /\ (m_fData o', m_fDataRaw o', m_fDataUnsmoothed o')
       = (m_fData o, m_fDataRaw o, m_fDataUnsmoothed o)
    /\ (forall a old, volumes w !! a = Some old -> volumes w' !! a = Some old)
    /\ released w' = released w /\ cerr w' = cerr w
    /\ notifications w' = notifications w /\ properties w' = properties w.
Proof.
  intros Ho Hrange Hheader Hdims Hread Hfresh.
  rewrite (LoadCorrelationData_run ext w this filename o header mri) by done.
  eexists _, _, (next_object w). split; [reflexivity|].
  cbn [overlays volumes released cerr notifications properties set_overlays set_volumes
       set_next_object].
  split; [reflexivity|]. fields.
  split; [reflexivity|]. split; [apply lookup_insert_eq|].
  do 3 (split; [reflexivity|]).
  split; [|done].
  intros a old Ha. rewrite lookup_insert_ne; [done|]. intros <-. congruence.
Qed.

Lemma LoadCorrelationData_success_witness :
  exists w' o' m,
    LoadCorrelationData correlation_ext 1%positive "correlation.mgh" example_world
    = Some (true, w')
    /\ overlays w' = <[1%positive := o']> (overlays example_world)
    /\ m_mriCorrelation o' = Some m /\ volumes w' !! m = Some correlation_matrix
    /\ m_bCorrelationData o' = true /\ m_bCorrelationDataReady o' = false
    /\ (m_fData o', m_fDataRaw o', m_fDataUnsmoothed o')
       = (m_fData example_overlay, m_fDataRaw example_overlay,
          m_fDataUnsmoothed example_overlay)
    /\ (forall a old, volumes example_world !! a = Some old -> volumes w' !! a = Some old)
    /\ released w' = released example_world /\ cerr w' = cerr example_world
    /\ notifications w' = notifications example_world
    /\ properties w' = properties example_world.
Proof.
  apply (LoadCorrelationData_success correlation_ext example_world 1%positive
           "correlation.mgh" example_overlay correlation_matrix correlation_matrix).
  - reflexivity.
  - vm_compute. split; discriminate.
  - reflexivity.
  - unfold dimensions_match. cbn. lia.
  - reflexivity.
  - reflexivity.
Defined.



Lemma CopyCorrelationData_run w this overlay o src prop :
  this <> overlay ->
  overlays w !! this = Some o -> overlays w !! overlay = Some src ->
  properties w !! m_property o = Some prop ->
  m_bCorrelationData src = true ->
  exists w',
    CopyCorrelationData this overlay w = Some (tt, w')
    /\ overlays w' !! this
       = Some (set_m_bCorrelationData true
                 (set_m_overlayPaired (Some overlay)
                    (set_m_mriCorrelation (m_mriCorrelation src)
                       (set_m_property (m_property src) o))))
    /\ overlays w' !! overlay = Some (set_m_overlayPaired (Some this) src)
    /\ (forall q, q <> this -> q <> overlay -> overlays w' !! q = overlays w !! q)
    /\ properties w' = delete (m_property o) (properties w)
    /\ released w' = PropertyObject (m_property o) :: released w
    /\ volumes w' = volumes w /\ notifications w' = notifications w.
Proof.
  intros Hne Ho Hsrc Hp Hhas. unfold CopyCorrelationData, HasCorrelationData.
  repeat step. rewrite Hhas. cbn [negb].
  step. unfold delete_property. unfold bind at 1. rewrite Hp.
  repeat step. collapse.
  erewrite bind_assign
    by (cbn [overlays set_overlays]; rewrite lookup_insert_ne by done; exact Hsrc).
  collapse. unfold assign. cbn [overlays set_overlays].
  rewrite lookup_insert_ne, lookup_insert_eq by done.
  eexists. split; [reflexivity|]. collapse.
  split; [apply lookup_insert_eq|].
  split; [by rewrite lookup_insert_ne, lookup_insert_eq|].
  split; [|done].
  intros q Hq1 Hq2. by rewrite !lookup_insert_ne.
Qed.

(** X13.  [CopyCorrelationData] does nothing when the other overlay has no
    correlation data.  Otherwise the receiver gives up its own property
    object, which is deleted, and shares the other overlay's property object
    and correlation matrix; the two overlays point to each other as a pair
    and the receiver is marked as having correlation data.  The receiver's
    ready flag and its buffers are not touched, and no volume is released. *)
Theorem CopyCorrelationData_pairs w this overlay o src prop :
  this <> overlay ->
  overlays w !! this = Some o -> overlays w !! overlay = Some src ->
  properties w !! m_property o = Some prop ->
  exists w',
    CopyCorrelationData this overlay w = Some (tt, w')
    /\ (m_bCorrelationData src = false -> w' = w)
    /\ (m_bCorrelationData src = true ->
        overlays w' !! this
        = Some (set_m_bCorrelationData true
                  (set_m_overlayPaired (Some overlay)
                     (set_m_mriCorrelation (m_mriCorrelation src)
                        (set_m_property (m_property src) o))))
        /\ overlays w' !! overlay = Some (set_m_overlayPaired (Some this) src)
        /\ (forall q, q <> this -> q <> overlay -> overlays w' !! q = overlays w !! q)
        /\ properties w' = delete (m_property o) (properties w)
        /\ released w' = PropertyObject (m_property o) :: released w
        /\ volumes w' = volumes w /\ notifications w' = notifications w).
Proof.
  intros Hne Ho Hsrc Hp. destruct (m_bCorrelationData src) eqn:Hhas.
  - destruct (CopyCorrelationData_run w this overlay o src prop Hne Ho Hsrc Hp Hhas)
      as (w' & Hrun & Hfacts).
    exists w'. split; [done|]. split; [done|]. by intros _.
  - exists w. split; [|by split].
    unfold CopyCorrelationData, HasCorrelationData. repeat step. by rewrite Hhas.
Qed.

Lemma CopyCorrelationData_pairs_witness :
  exists w',
    CopyCorrelationData 2%positive 1%positive unpaired_world = Some (tt, w')
    /\ (m_bCorrelationData unpaired_A = false -> w' = unpaired_world)
    /\ (m_bCorrelationData unpaired_A = true ->
        overlays w' !! 2%positive
        = Some (set_m_bCorrelationData true
                  (set_m_overlayPaired (Some 1%positive)
                     (set_m_mriCorrelation (m_mriCorrelation unpaired_A)
                        (set_m_property (m_property unpaired_A) unpaired_B))))
        /\ overlays w' !! 1%positive = Some (set_m_overlayPaired (Some 2%positive) unpaired_A)
        /\ (forall q, q <> 2%positive -> q <> 1%positive ->
                      overlays w' !! q = overlays unpaired_world !! q)
        /\ properties w' = delete (m_property unpaired_B) (properties unpaired_world)
        /\ released w' = PropertyObject (m_property unpaired_B) :: released unpaired_world
        /\ volumes w' = volumes unpaired_world
        /\ notifications w' = notifications unpaired_world).
Proof.
  apply (CopyCorrelationData_pairs unpaired_world 2%positive 1%positive unpaired_B
           unpaired_A {| GetSmooth := false; GetSmoothSteps := 1 |}).
  - discriminate.
  - reflexivity.
  - reflexivity.
  - reflexivity.
Defined.

(** ** Destruction *)

Lemma delete_SurfaceOverlay_paired w this o paired op :
  overlays w !! this = Some o -> m_overlayPaired o = Some paired ->
  overlays w !! paired = Some op ->
  delete_SurfaceOverlay this w
  = Some (tt, set_overlays
                (delete this (<[paired := set_m_overlayPaired None op]> (overlays w))) w).
Proof.
  intros Ho Hpair Hop. unfold delete_SurfaceOverlay. step. rewrite Hpair.
  erewrite bind_assign by exact Hop. reflexivity.
Qed.

Lemma delete_SurfaceOverlay_unpaired w this o prop :
  overlays w !! this = Some o -> m_overlayPaired o = None ->
  properties w !! m_property o = Some prop ->
  match m_mriCorrelation o with
  | Some m => is_Some (volumes w !! m)
  | None => True
  end ->
  delete_SurfaceOverlay this w
  = Some (tt, set_overlays (delete this (overlays w))
                (match m_mriCorrelation o with
                 | Some m =>
                     set_released (VolumeObject m :: PropertyObject (m_property o)
                                   :: released w)
                       (set_volumes (delete m (volumes w))
                          (set_properties (delete (m_property o) (properties w)) w))
                 | None =>
                     set_released (PropertyObject (m_property o) :: released w)
                       (set_properties (delete (m_property o) (properties w)) w)
                 end)).
Proof.
  intros Ho Hpair Hp Hm. unfold delete_SurfaceOverlay. step. rewrite Hpair.
  unfold delete_property, MRIfree. rewrite !bind_bind. unfold bind at 1. rewrite Hp.
  destruct (m_mriCorrelation o) as [m|].
  - destruct Hm as [mri Hm]. unfold bind at 1. cbn. by rewrite Hm.
  - reflexivity.
Qed.

(** X14.  The whole life of a pair.  [A] holds the correlation matrix and
    [B] holds none of its own.  After [B] has copied the correlation data of
    [A], destroying the two overlays, in either order, is defined and
    releases the shared property object and the correlation matrix once each;
    with the property object [B] gave up when it copied, the three objects the
    two overlays owned (the two property objects and the matrix) are each
    released exactly once, and nothing else is. *)
Theorem paired_overlays_lifecycle w A B oA oB propA propB m mri :
  A <> B ->
  overlays w !! A = Some oA -> overlays w !! B = Some oB ->
  m_property oA <> m_property oB ->
  properties w !! m_property oA = Some propA ->
  properties w !! m_property oB = Some propB ->
  m_bCorrelationData oA = true ->
  m_mriCorrelation oA = Some m -> volumes w !! m = Some mri ->
  m_mriCorrelation oB = None ->
  exists w1 w2,
    (CopyCorrelationData B A ;;; delete_SurfaceOverlay A ;;; delete_SurfaceOverlay B) w
    = Some (tt, w1)
    /\ (CopyCorrelationData B A ;;; delete_SurfaceOverlay B ;;; delete_SurfaceOverlay A) w
       = Some (tt, w2)
    /\ released w1
       = [VolumeObject m; PropertyObject (m_property oA); PropertyObject (m_property oB)]
         ++ released w
    /\ released w2 = released w1
    /\ overlays w1 = delete B (delete A (overlays w))
    /\ overlays w2 = delete A (delete B (overlays w))
    /\ properties w1 = delete (m_property oA) (delete (m_property oB) (properties w))
    /\ properties w2 = properties w1
    /\ volumes w1 = delete m (volumes w) /\ volumes w2 = volumes w1
    /\ (forall p, p = m_property oA \/ p = m_property oB -> properties w1 !! p = None)
    /\ (forall v, m_mriCorrelation oA = Some v \/ m_mriCorrelation oB = Some v ->
                  volumes w1 !! v = None).
Proof.
  intros HAB HoA HoB Hprops HpA HpB Hhas Hm Hmri HmB.
  destruct (CopyCorrelationData_run w B A oB oA propB)
    as (w' & Hcopy & HB & HA & Hothers & Hpr & Hrel & Hvol & _); try done.
  assert (HpA' : properties w' !! m_property oA = Some propA)
    by (rewrite Hpr; by rewrite lookup_delete_ne).
  assert (Hmri' : volumes w' !! m = Some mri) by by rewrite Hvol.
  assert (Hov : overlays w'
                = <[B := set_m_bCorrelationData true
                           (set_m_overlayPaired (Some A)
                              (set_m_mriCorrelation (m_mriCorrelation oA)
                                 (set_m_property (m_property oA) oB)))]>
                    (<[A := set_m_overlayPaired (Some B) oA]> (overlays w))).
  { apply map_eq. intros q.
    destruct (decide (q = B)) as [->|HqB]; [by rewrite lookup_insert_eq|].
    rewrite lookup_insert_ne by done.
    destruct (decide (q = A)) as [->|HqA]; [by rewrite lookup_insert_eq|].
    rewrite lookup_insert_ne by done. by apply Hothers. }
  eexists _, _. split.
  { rewrite (bind_run _ _ _ _ _ Hcopy).
    erewrite bind_run;
      [|eapply (delete_SurfaceOverlay_paired w' A); [exact HA | reflexivity | exact HB]].
    eapply (delete_SurfaceOverlay_unpaired _ B _ propA).
    - cbn [overlays set_overlays]. rewrite lookup_delete_ne by done. apply lookup_insert_eq.
    - reflexivity.
    - exact HpA'.
    - fields. rewrite Hm. by eexists. }
  split.
  { rewrite (bind_run _ _ _ _ _ Hcopy).
    erewrite bind_run;
      [|eapply (delete_SurfaceOverlay_paired w' B); [exact HB | reflexivity | exact HA]].
    eapply (delete_SurfaceOverlay_unpaired _ A _ propA).
    - cbn [overlays set_overlays]. rewrite lookup_delete_ne by done. apply lookup_insert_eq.
    - reflexivity.
    - exact HpA'.
    - fields. rewrite Hm. by eexists. }
  fields. rewrite Hm. cbn [released overlays properties volumes set_overlays set_released
                           set_volumes set_properties].
  rewrite Hrel, Hpr, Hvol, Hov.
  split; [done|]. split; [done|].
  split.
  { apply map_eq. intros q.
    destruct (decide (q = B)) as [->|HqB]; [by rewrite !lookup_delete_eq|].
    rewrite !(lookup_delete_ne _ B) by done.
    destruct (decide (q = A)) as [->|HqA]; [by rewrite !lookup_delete_eq|].
    rewrite !(lookup_delete_ne _ A) by done. by rewrite !lookup_insert_ne. }
  split.
  { apply map_eq. intros q.
    destruct (decide (q = A)) as [->|HqA]; [by rewrite !lookup_delete_eq|].
    rewrite !(lookup_delete_ne _ A) by done.
    destruct (decide (q = B)) as [->|HqB]; [by rewrite !lookup_delete_eq|].
    rewrite !(lookup_delete_ne _ B) by done. by rewrite !lookup_insert_ne. }
  do 4 (split; [done|]). split.
  - intros p [-> | ->]; [apply lookup_delete_eq|].
    rewrite lookup_delete_ne by done. apply lookup_delete_eq.
  - intros v [Hv | Hv]; [|congruence].
    assert (v = m) as -> by congruence. apply lookup_delete_eq.
Qed.

Lemma paired_overlays_lifecycle_witness :
  exists w1 w2,
    (CopyCorrelationData 2%positive 1%positive ;;; delete_SurfaceOverlay 1%positive ;;;
     delete_SurfaceOverlay 2%positive) unpaired_world = Some (tt, w1)
    /\ (CopyCorrelationData 2%positive 1%positive ;;; delete_SurfaceOverlay 2%positive ;;;
        delete_SurfaceOverlay 1%positive) unpaired_world = Some (tt, w2)
    /\ released w1
       = [VolumeObject 3%positive; PropertyObject (m_property unpaired_A);
          PropertyObject (m_property unpaired_B)] ++ released unpaired_world
    /\ released w2 = released w1
    /\ overlays w1 = delete 2%positive (delete 1%positive (overlays unpaired_world))
    /\ overlays w2 = delete 1%positive (delete 2%positive (overlays unpaired_world))
    /\ properties w1
       = delete (m_property unpaired_A)
           (delete (m_property unpaired_B) (properties unpaired_world))
    /\ properties w2 = properties w1
    /\ volumes w1 = delete 3%positive (volumes unpaired_world)
    /\ volumes w2 = volumes w1
    /\ (forall p, p = m_property unpaired_A \/ p = m_property unpaired_B ->
                  properties w1 !! p = None)
    /\ (forall v, m_mriCorrelation unpaired_A = Some v
                  \/ m_mriCorrelation unpaired_B = Some v ->
                  volumes w1 !! v = None).
Proof.
  apply (paired_overlays_lifecycle unpaired_world 1%positive 2%positive unpaired_A
           unpaired_B {| GetSmooth := false; GetSmoothSteps := 1 |}
           {| GetSmooth := false; GetSmoothSteps := 1 |} 3%positive correlation_matrix).
  all: try reflexivity.
  all: discriminate.
Defined.

(** ** Seeding the correlation display *)

Lemma correlation_first_read mri N nVertex seedHemi ownHemi :
  0 < N -> row_in_volume mri N nVertex seedHemi ownHemi ->
  (if 1 <? height mri
   then MRIFseq_vox mri (CInt.add nVertex (CInt.mul seedHemi N)) (CInt.mul ownHemi N) 0 0
   else MRIFseq_vox mri (CInt.add nVertex (CInt.mul seedHemi N)) 0 0 (CInt.mul ownHemi N))
  = correlation_row mri N nVertex seedHemi ownHemi !! 0%nat.
Proof.
  intros HN Hin.
  destruct (correlation_reads mri N nVertex seedHemi ownHemi HN Hin) as [_ Hreads].
  specialize (Hreads 0%nat ltac:(lia)).
  destruct Hin as (Hoff & Hrow & Hw & Hcol & Hcolmax & _).
  assert (Hadd : CInt.add (Z.of_nat 0) (CInt.mul ownHemi N) = CInt.mul ownHemi N).
  { unfold CInt.add, CInt.mul.
    rewrite (wrap_in_range (ownHemi * N)) by (unfold CInt.in_range, CInt.INT_MIN; lia).
    apply wrap_in_range. unfold CInt.in_range, CInt.INT_MIN. lia. }
  rewrite Hadd in Hreads. rewrite Hreads.
  unfold correlation_row. rewrite list_lookup_fmap, lookup_seq_lt by lia. reflexivity.
Qed.

Section SeedFacts.

Variable ext : Externals.

(** A call that goes no further than its own overlay, with the state it
    leaves. *)
Lemma UpdateCorrelationAtVertex_leaf w this o surf m mri raw d u prop nVertex
    nHemisphere fuel :
  overlays w !! this = Some o ->
  m_surface o = Some surf ->
  m_mriCorrelation o = Some m -> volumes w !! m = Some mri ->
  m_fDataRaw o = Some raw -> m_nDataSize o <= Z.of_nat (length raw) ->
  m_fData o = Some d -> Z.of_nat (length d) = m_nDataSize o ->
  m_fDataUnsmoothed o = Some u -> Z.of_nat (length u) = m_nDataSize o ->
  properties w !! m_property o = Some prop ->
  0 < m_nDataSize o ->
  let hemi := if nHemisphere =? -1 then GetHemisphere surf else nHemisphere in
  let row := correlation_row mri (m_nDataSize o) nVertex hemi (GetHemisphere surf) in
  row_in_volume mri (m_nDataSize o) nVertex hemi (GetHemisphere surf) ->
  hemi <> GetHemisphere surf \/ m_overlayPaired o = None ->
  exists w',
    UpdateCorrelationAtVertex ext (S fuel) this nVertex nHemisphere w = Some (tt, w')
    /\ overlays w'
       = <[this := set_m_bCorrelationDataReady true
                     (smoothed_or ext surf prop row (m_nDataSize o)
                        (set_m_fDataUnsmoothed (Some row)
                           (set_m_fDataRaw
                              (Some (row ++ drop (Z.to_nat (m_nDataSize o)) raw))
                              (set_m_dMinValue (snd (range_of row))
                                 (set_m_dMaxValue (fst (range_of row))
                                    (set_m_fData (Some row) o))))))]> (overlays w)
    /\ properties w'
       = (if ((m_dMaxValue o - m_dMinValue o)%float <=? 0)%float
          then <[m_property o := Reset ext prop (fst (range_of row)) (snd (range_of row))]>
                 (properties w)
          else properties w)
    /\ volumes w' = volumes w
    /\ notifications w'
       = (if signalsBlocked o then [] else [DataUpdated this])
         ++ SurfaceUpdateOverlay this :: notifications w.
Proof.
  intros Ho Hs Hm Hmri Hraw Hrawl Hd Hdl Hu Hul Hp HN hemi row Hin Hleaf.
  destruct (correlation_reads mri (m_nDataSize o) nVertex hemi (GetHemisphere surf) HN Hin)
    as [_ Hreads].
  pose proof (correlation_first_read mri (m_nDataSize o) nVertex hemi (GetHemisphere surf)
                HN Hin) as Hx0.
  fold row in Hx0.
  assert (Hrowl : Z.of_nat (length row) = m_nDataSize o)
    by (apply correlation_row_length; lia).
  destruct (lookup_lt_is_Some_2 row 0%nat) as [x0 Hrow0]; [lia|].
  rewrite Hrow0 in Hx0.
  set (src := fun i =>
                if 1 <? height mri
                then MRIFseq_vox mri (CInt.add nVertex (CInt.mul hemi (m_nDataSize o)))
                       (CInt.add i (CInt.mul (GetHemisphere surf) (m_nDataSize o))) 0 0
                else MRIFseq_vox mri (CInt.add nVertex (CInt.mul hemi (m_nDataSize o)))
                       0 0 (CInt.add i (CInt.mul (GetHemisphere surf) (m_nDataSize o)))).
  set (f := fun k : nat =>
              if 1 <? height mri
              then voxels mri (nVertex + hemi * m_nDataSize o)
                     (Z.of_nat k + GetHemisphere surf * m_nDataSize o) 0 0
              else voxels mri (nVertex + hemi * m_nDataSize o) 0 0
                     (Z.of_nat k + GetHemisphere surf * m_nDataSize o)).
  destruct (fill_loop_whole src f (m_nDataSize o) d (x0, x0) Hreads Hdl) as (r & Hfill).
  pose proof (fill_loop_range src f (Z.to_nat (m_nDataSize o)) 0 (Some d) (x0, x0) _ r
                (fun k Hk => Hreads k ltac:(lia)) Hfill) as Hr.
  change (map f (seq 0 (Z.to_nat (m_nDataSize o)))) with row in Hfill, Hr.
  assert (Hrange : r = range_of row).
  { rewrite Hr. unfold range_of. destruct row as [|y ys]; [done|].
    cbn in Hrow0. by injection Hrow0 as ->. }
  clear Hr. subst r.
  set (o0 := set_m_fDataUnsmoothed (Some row)
               (set_m_fDataRaw (Some (row ++ drop (Z.to_nat (m_nDataSize o)) raw))
                  (set_m_dMinValue (snd (range_of row))
                     (set_m_dMaxValue (fst (range_of row)) (set_m_fData (Some row) o))))).
  assert (Hpair : match m_overlayPaired o with
                  | Some paired =>
                      if hemi =? GetHemisphere surf then
                        blockSignals paired true ;;;
                        UpdateCorrelationAtVertex ext fuel paired nVertex hemi ;;;
                        blockSignals paired false
                      else ret tt
                  | None => ret tt
                  end = ret tt).
  { destruct Hleaf as [Hne | ->]; [|done].
    destruct (m_overlayPaired o); [|done].
    by replace (hemi =? GetHemisphere surf) with false by (symmetry; by apply Z.eqb_neq). }
  cbn [UpdateCorrelationAtVertex].
  step. rewrite Hs. step.
  fold hemi. rewrite Hm. rewrite (bind_volume _ _ _ _ Hmri).
  rewrite Hx0. step. fold src. rewrite Hd, Hfill. repeat step. fields. cbn [fst snd].
  rewrite Hraw, memcpy_prefix by lia. do 2 step.
  rewrite Hu, memcpy_same_length by lia. do 2 step. collapse. fold o0.
  erewrite bind_GetProperty; [|lookup_solver|unfold o0; fields; lookup_solver].
  assert (Hsmooth : exists c,
             forall k : unit -> M unit,
               bind (if GetSmooth prop then SmoothData_default ext this else ret tt) k
                 (set_overlays (<[this := o0]> (overlays w)) w)
               = k tt (set_cerr c
                         (set_overlays
                            (<[this := smoothed_or ext surf prop row (m_nDataSize o) o0]>
                               (overlays w)) w))).
  { unfold smoothed_or. destruct (GetSmooth prop) eqn:Hsm.
    - pose proof (SmoothData_default_run ext
                    (set_overlays (<[this := o0]> (overlays w)) w) this o0 row row surf prop)
        as Hrun.
      replace (m_nDataSize o0) with (m_nDataSize o) in Hrun by reflexivity.
      destruct (smoothing_outcome ext surf row (m_nDataSize o) (GetSmoothSteps prop))
        as [sm|] eqn:Hout.
      + exists (cerr w). intros k.
        erewrite bind_run; [|apply Hrun;
          first [lookup_solver | unfold o0; fields; first [reflexivity | lia | eassumption]]].
        by collapse.
      + exists ("Can not allocate mri"%string :: cerr w). intros k.
        erewrite bind_run; [|apply Hrun;
          first [lookup_solver | unfold o0; fields; first [reflexivity | lia | eassumption]]].
        reflexivity.
    - exists (cerr w). intros k. rewrite bind_ret. by destruct w. }
  destruct Hsmooth as (c & Hsmooth). rewrite Hsmooth. clear Hsmooth.
  destruct (smoothed_or_fields ext surf prop row (m_nDataSize o) o0)
    as (_ & Hmx & Hmn & _ & Hsf & Hpf & _).
  destruct (smoothed_or_links ext surf prop row (m_nDataSize o) o0)
    as (Hlink & Hbl & _).
  step. collapse.
  unfold surface_UpdateOverlay, emit_DataUpdated.
  destruct ((m_dMaxValue o - m_dMinValue o)%float <=? 0)%float.
  - erewrite bind_property_Reset;
      [|lookup_solver|fields; rewrite Hpf; unfold o0; fields; lookup_solver].
    fields. rewrite Hmx, Hmn, Hpf. unfold o0 at 1 2 3. fields.
    step. fields. rewrite Hlink. unfold o0 at 1. fields.
    rewrite Hpair. repeat step. fields. rewrite Hsf. unfold o0 at 1. fields.
    rewrite Hs. repeat step. fields. rewrite Hbl. unfold o0 at 1. fields.
    destruct (signalsBlocked o); eexists; (split; [reflexivity|]); done.
  - repeat step. fields. rewrite Hlink. unfold o0 at 1. fields.
    rewrite Hpair. repeat step. fields. rewrite Hsf. unfold o0 at 1. fields.
    rewrite Hs. repeat step. fields. rewrite Hbl. unfold o0 at 1. fields.
    destruct (signalsBlocked o); eexists; (split; [reflexivity|]); done.
Qed.

End SeedFacts.

(** X15.  [UpdateCorrelationAtVertex] on an overlay without a paired overlay
    marks the correlation data as ready, overwrites the first frame of the
    raw buffer with the seed's line of the matrix, and caches the range of
    that line.  The display property is reset, from the new range, exactly
    when the range cached before the call was empty or negative
    ([max - min <= 0]); otherwise no property object changes. *)
Theorem UpdateCorrelationAtVertex_seeds ext w this o surf m mri raw d u prop nVertex
    nHemisphere fuel :
  overlays w !! this = Some o ->
  m_surface o = Some surf ->
  m_mriCorrelation o = Some m -> volumes w !! m = Some mri ->
  m_fDataRaw o = Some raw -> m_nDataSize o <= Z.of_nat (length raw) ->
  m_fData o = Some d -> Z.of_nat (length d) = m_nDataSize o ->
  m_fDataUnsmoothed o = Some u -> Z.of_nat (length u) = m_nDataSize o ->
  properties w !! m_property o = Some prop ->
  0 < m_nDataSize o ->
  m_overlayPaired o = None ->
  let hemi := if nHemisphere =? -1 then GetHemisphere surf else nHemisphere in
  let row := correlation_row mri (m_nDataSize o) nVertex hemi (GetHemisphere surf) in
  row_in_volume mri (m_nDataSize o) nVertex hemi (GetHemisphere surf) ->
  exists w' o',
    UpdateCorrelationAtVertex ext (S fuel) this nVertex nHemisphere w = Some (tt, w')
    /\ overlays w' = <[this := o']> (overlays w)
    /\ m_bCorrelationDataReady o' = true
    /\ m_fDataRaw o' = Some (row ++ drop (Z.to_nat (m_nDataSize o)) raw)
    /\ m_fDataUnsmoothed o' = Some row
    /\ (m_dMaxValue o', m_dMinValue o') = range_of row
    /\ properties w'
       = (if ((m_dMaxValue o - m_dMinValue o)%float <=? 0)%float
          then <[m_property o := Reset ext prop (fst (range_of row)) (snd (range_of row))]>
                 (properties w)
          else properties w).
Proof.
  intros Ho Hs Hm Hmri Hraw Hrawl Hd Hdl Hu Hul Hp HN Hpair hemi row Hin.
  destruct (UpdateCorrelationAtVertex_leaf ext w this o surf m mri raw d u prop nVertex
              nHemisphere fuel) as (w' & Hrun & Hov & Hpr & _); try done.
  { by right. }
  match type of Hov with
  | context [smoothed_or ?a ?b ?c ?e ?f ?g] =>
      destruct (smoothed_or_fields a b c e f g) as (Hun & Hmx & Hmn & _ & _ & _ & Hrw)
  end.
  eexists w', _. split; [done|]. split; [exact Hov|].
  cbn [m_bCorrelationDataReady m_fDataRaw m_fDataUnsmoothed m_dMaxValue m_dMinValue
       set_m_bCorrelationDataReady].
  rewrite Hun, Hmx, Hmn, Hrw. fields.
  repeat split; try done. by destruct (range_of _).
Qed.

Lemma UpdateCorrelationAtVertex_seeds_witness :
  exists w' o',
    UpdateCorrelationAtVertex example_ext 1 1%positive 0 0 unpaired_world = Some (tt, w')
    /\ overlays w' = <[1%positive := o']> (overlays unpaired_world)
    /\ m_bCorrelationDataReady o' = true
    /\ m_fDataRaw o'
       = Some (correlation_row correlation_matrix 4 0 0 0
               ++ drop (Z.to_nat 4) [0; 0; 0; 0]%float)
    /\ m_fDataUnsmoothed o' = Some (correlation_row correlation_matrix 4 0 0 0)
    /\ (m_dMaxValue o', m_dMinValue o') = range_of (correlation_row correlation_matrix 4 0 0 0)
    /\ properties w'
       = (if ((m_dMaxValue unpaired_A - m_dMinValue unpaired_A)%float <=? 0)%float
          then <[m_property unpaired_A :=
                   Reset example_ext {| GetSmooth := false; GetSmoothSteps := 1 |}
                     (fst (range_of (correlation_row correlation_matrix 4 0 0 0)))
                     (snd (range_of (correlation_row correlation_matrix 4 0 0 0)))]>
                 (properties unpaired_world)
          else properties unpaired_world).
Proof.
  apply (UpdateCorrelationAtVertex_seeds example_ext unpaired_world 1%positive unpaired_A
           (tetrahedron 0) 3%positive correlation_matrix [0; 0; 0; 0]%float
           [0; 0; 0; 0]%float [0; 0; 0; 0]%float
           {| GetSmooth := false; GetSmoothSteps := 1 |} 0 0 0).
  all: try reflexivity.
  vm_compute. repeat split; first [reflexivity | discriminate].
Defined.

(** X16.  A seed on the other hemisphere is not passed on.  Called with a
    hemisphere that is not the mesh's own, [UpdateCorrelationAtVertex] updates
    its own overlay only: the paired overlay and every other overlay stay as
    they were, and the only announcements are this overlay's redraw and its
    [DataUpdated]. *)
Theorem UpdateCorrelationAtVertex_other_hemisphere ext w this o surf m mri raw d u prop
    nVertex nHemisphere fuel :
  overlays w !! this = Some o ->
  m_surface o = Some surf ->
  m_mriCorrelation o = Some m -> volumes w !! m = Some mri ->
  m_fDataRaw o = Some raw -> m_nDataSize o <= Z.of_nat (length raw) ->
  m_fData o = Some d -> Z.of_nat (length d) = m_nDataSize o ->
  m_fDataUnsmoothed o = Some u -> Z.of_nat (length u) = m_nDataSize o ->
  properties w !! m_property o = Some prop ->
  0 < m_nDataSize o ->
  nHemisphere <> -1 -> nHemisphere <> GetHemisphere surf ->
  row_in_volume mri (m_nDataSize o) nVertex nHemisphere (GetHemisphere surf) ->
  signalsBlocked o = false ->
  exists w',
    UpdateCorrelationAtVertex ext (S fuel) this nVertex nHemisphere w = Some (tt, w')
    /\ (forall q, q <> this -> overlays w' !! q = overlays w !! q)
    /\ result (observe this m_fDataUnsmoothed) w'
       = Some (Some (correlation_row mri (m_nDataSize o) nVertex nHemisphere
                       (GetHemisphere surf)))
    /\ notifications w' = DataUpdated this :: SurfaceUpdateOverlay this :: notifications w.
Proof.
  intros Ho Hs Hm Hmri Hraw Hrawl Hd Hdl Hu Hul Hp HN Hdef Hother Hin Hbl.
  assert (Hhemi : (if nHemisphere =? -1 then GetHemisphere surf else nHemisphere)
                  = nHemisphere)
    by (by replace (nHemisphere =? -1) with false by (symmetry; by apply Z.eqb_neq)).
  destruct (UpdateCorrelationAtVertex_leaf ext w this o surf m mri raw d u prop nVertex
              nHemisphere fuel) as (w' & Hrun & Hov & _ & _ & Hnot); try done.
  { by rewrite Hhemi. }
  { left. by rewrite Hhemi. }
  rewrite Hhemi in Hov. rewrite Hbl in Hnot.
  exists w'. split; [done|].
  split; [intros q Hq; by rewrite Hov, lookup_insert_ne|].
  split; [|done].
  match type of Hov with
  | context [smoothed_or ?a ?b ?c ?e ?f ?g] =>
      destruct (smoothed_or_fields a b c e f g) as (Hun & _)
  end.
  unfold result, observe. rewrite Hov, lookup_insert_eq.
  cbn [m_fDataUnsmoothed set_m_bCorrelationDataReady]. by rewrite Hun.
Qed.

Lemma UpdateCorrelationAtVertex_other_hemisphere_witness :
  exists w',
    UpdateCorrelationAtVertex example_ext 1 1%positive 0 1 paired_world = Some (tt, w')
    /\ (forall q, q <> 1%positive -> overlays w' !! q = overlays paired_world !! q)
    /\ result (observe 1%positive m_fDataUnsmoothed) w'
       = Some (Some (correlation_row correlation_matrix (m_nDataSize paired_A) 0 1
                       (GetHemisphere (tetrahedron 0))))
    /\ notifications w'
       = DataUpdated 1%positive :: SurfaceUpdateOverlay 1%positive
         :: notifications paired_world.
Proof.
  apply (UpdateCorrelationAtVertex_other_hemisphere example_ext paired_world 1%positive
           paired_A (tetrahedron 0) 3%positive correlation_matrix [0; 0; 0; 0]%float
           [0; 0; 0; 0]%float [0; 0; 0; 0]%float
           {| GetSmooth := false; GetSmoothSteps := 1 |} 0 1 0).
  all: try reflexivity.
  all: try discriminate.
  vm_compute. repeat split; first [reflexivity | discriminate].
Defined.

(** ** Colour mapping *)

Lemma smoothed_or_data ext surf prop u N o :
  m_fData o = Some u ->
  m_fData (smoothed_or ext surf prop u N o)
  = Some (if GetSmooth prop then
            match smoothing_outcome ext surf u N (GetSmoothSteps prop) with
            | Some smoothed => smoothed
            | None => u
            end
          else u).
Proof.
  intros Hd. unfold smoothed_or. destruct (GetSmooth prop); [|done].
  by destruct (smoothing_outcome ext surf u N (GetSmoothSteps prop)).
Qed.

(** X17.  Colour mapping waits for the first seed.  After a correlation matrix
    has been loaded, [MapOverlay] leaves the colour buffer as it is; once
    [UpdateCorrelationAtVertex] has filled the overlay, [MapOverlay] hands the
    working buffer and the vertex count to the property object's colour
    mapping. *)
Theorem MapOverlay_waits_for_seed ext color w this filename o header mri surf raw d u prop
    nVertex nHemisphere fuel colordata :
  overlays w !! this = Some o ->
  CInt.in_range (m_nDataSize o * 2) ->
  MRIreadHeader ext filename = Some header ->
  dimensions_match header (m_nDataSize o) ->
  MRIread ext filename = Some mri ->
  m_surface o = Some surf ->
  m_fDataRaw o = Some raw -> m_nDataSize o <= Z.of_nat (length raw) ->
  m_fData o = Some d -> Z.of_nat (length d) = m_nDataSize o ->
  m_fDataUnsmoothed o = Some u -> Z.of_nat (length u) = m_nDataSize o ->
  properties w !! m_property o = Some prop ->
  0 < m_nDataSize o ->
  m_overlayPaired o = None ->
  let hemi := if nHemisphere =? -1 then GetHemisphere surf else nHemisphere in
  let row := correlation_row mri (m_nDataSize o) nVertex hemi (GetHemisphere surf) in
  row_in_volume mri (m_nDataSize o) nVertex hemi (GetHemisphere surf) ->
  result (LoadCorrelationData ext this filename ;;;
          MapOverlay color this colordata) w = Some colordata
  /\ result (LoadCorrelationData ext this filename ;;;
             UpdateCorrelationAtVertex ext (S fuel) this nVertex nHemisphere ;;;
             MapOverlay color this colordata) w
     = Some (color
               (if ((m_dMaxValue o - m_dMinValue o)%float <=? 0)%float
                then Reset ext prop (fst (range_of row)) (snd (range_of row))
                else prop)
               (Some (if GetSmooth prop then
                        match smoothing_outcome ext surf row (m_nDataSize o)
                                (GetSmoothSteps prop) with
                        | Some smoothed => smoothed
                        | None => row
                        end
                      else row))
               colordata (m_nDataSize o)).
Proof.
  intros Ho Hrange Hheader Hdims Hread Hs Hraw Hrawl Hd Hdl Hu Hul Hp HN Hpair hemi row Hin.
  pose proof (LoadCorrelationData_run ext w this filename o header mri Ho Hrange Hheader
                Hdims Hread) as Hload.
  set (o1 := set_m_bCorrelationDataReady false
               (set_m_bCorrelationData true
                  (set_m_mriCorrelation (Some (next_object w)) o))) in Hload.
  match type of Hload with _ = Some (_, ?x) => set (w1 := x) in Hload end.
  assert (Ho1 : overlays w1 !! this = Some o1) by apply lookup_insert_eq.
  split.
  - unfold result. rewrite (bind_run _ _ _ _ _ Hload). unfold MapOverlay.
    by erewrite bind_deref by exact Ho1.
  - destruct (UpdateCorrelationAtVertex_leaf ext w1 this o1 surf (next_object w) mri raw d u
                prop nVertex nHemisphere fuel) as (w2 & Hrun & Hov & Hpr & _);
      try done.
    { apply lookup_insert_eq. }
    { by right. }
    unfold result. rewrite (bind_run _ _ _ _ _ Hload), (bind_run _ _ _ _ _ Hrun).
    unfold MapOverlay.
    erewrite bind_deref by (rewrite Hov; apply lookup_insert_eq).
    match type of Hov with
    | context [smoothed_or ?a ?b ?c ?e ?f ?g] =>
        destruct (smoothed_or_links a b c e f g) as (_ & _ & HN2 & Hcd & _);
        destruct (smoothed_or_fields a b c e f g) as (_ & _ & _ & _ & _ & Hpf & _);
        pose proof (smoothed_or_data a b c e f g eq_refl) as Hdata
    end.
    cbn [m_bCorrelationData m_bCorrelationDataReady set_m_bCorrelationDataReady].
    rewrite orb_true_r.
    unfold GetProperty.
    erewrite bind_bind, bind_deref by (rewrite Hov; apply lookup_insert_eq).
    cbn [m_property m_fData m_nDataSize set_m_bCorrelationDataReady].
    rewrite Hpf, HN2, Hdata. unfold o1. fields.
    unfold bind at 1. rewrite Hpr. unfold o1. fields.
    destruct ((m_dMaxValue o - m_dMinValue o)%float <=? 0)%float.
    + by rewrite lookup_insert_eq.
    + cbn [properties w1 set_overlays set_volumes set_next_object]. by rewrite Hp.
Qed.

Lemma MapOverlay_waits_for_seed_witness :
  result (LoadCorrelationData correlation_ext 1%positive "correlation.mgh" ;;;
          MapOverlay (fun _ _ _ _ => [Byte.xff]) 1%positive [Byte.x00]) example_world
  = Some [Byte.x00]
  /\ result (LoadCorrelationData correlation_ext 1%positive "correlation.mgh" ;;;
             UpdateCorrelationAtVertex correlation_ext 1 1%positive 0 (-1) ;;;
             MapOverlay (fun _ _ _ _ => [Byte.xff]) 1%positive [Byte.x00]) example_world
     = Some [Byte.xff].
Proof.
  apply (MapOverlay_waits_for_seed correlation_ext (fun _ _ _ _ => [Byte.xff])
           example_world 1%positive "correlation.mgh" example_overlay correlation_matrix
           correlation_matrix (tetrahedron 0) [0; 0; 0; 0]%float [0; 0; 0; 0]%float
           [0; 0; 0; 0]%float {| GetSmooth := false; GetSmoothSteps := 1 |} 0 (-1) 0
           [Byte.x00]).
  all: try reflexivity.
  all: try (vm_compute; repeat split; first [reflexivity | discriminate]).
  unfold dimensions_match. cbn. lia.
Defined.

(** ** Compute-correlation mode and its source volume *)

Lemma bind_UpdateCorrelationCoefficient_idle {B} ext this o (k : unit -> M B) w :
  overlays w !! this = Some o ->
  m_volumeCorrelationSource o = None \/ m_bComputeCorrelation o = false ->
  bind (UpdateCorrelationCoefficient ext this) k w = k tt w.
Proof.
  intros Ho Hidle. unfold UpdateCorrelationCoefficient.
  rewrite bind_bind. erewrite bind_deref by exact Ho.
  destruct Hidle as [-> | Hmode]; [by rewrite bind_ret|].
  destruct (m_volumeCorrelationSource o); [|by rewrite bind_ret].
  rewrite Hmode. cbn [andb]. by rewrite bind_ret.
Qed.

(** X18.  On an overlay that has no source volume yet and is not in
    compute-correlation mode, setting the source volume and enabling the mode
    can be done in either order: both orders leave the same world, and the
    coefficients are computed once, by whichever call comes second. *)
Theorem SetCorrelationSourceVolume_commutes ext w this o vol :
  overlays w !! this = Some o ->
  m_volumeCorrelationSource o = None -> m_bComputeCorrelation o = false ->
  (SetCorrelationSourceVolume ext this vol ;;; SetComputeCorrelation ext this true) w
  = (SetComputeCorrelation ext this true ;;; SetCorrelationSourceVolume ext this vol) w
  /\ (SetCorrelationSourceVolume ext this vol ;;; SetComputeCorrelation ext this true) w
     = UpdateCorrelationCoefficient ext this
         (set_overlays
            (<[this := set_m_bComputeCorrelation true
                         (set_m_volumeCorrelationSource (Some vol) o)]> (overlays w)) w).
Proof.
  intros Ho Hsrc Hmode.
  assert (Hleft : (SetCorrelationSourceVolume ext this vol ;;;
                   SetComputeCorrelation ext this true) w
                  = UpdateCorrelationCoefficient ext this
                      (set_overlays
                         (<[this := set_m_bComputeCorrelation true
                                      (set_m_volumeCorrelationSource (Some vol) o)]>
                            (overlays w)) w)).
  { unfold SetCorrelationSourceVolume, SetComputeCorrelation.
    rewrite !bind_bind. erewrite bind_assign by exact Ho.
    erewrite bind_UpdateCorrelationCoefficient_idle;
      [|lookup_solver|right; by fields].
    unfold bind at 1. unfold assign at 1. cbn [overlays set_overlays].
    rewrite lookup_insert_eq. by collapse. }
  split; [|exact Hleft].
  rewrite Hleft.
  unfold SetCorrelationSourceVolume, SetComputeCorrelation.
  rewrite !bind_bind. erewrite bind_assign by exact Ho.
  erewrite bind_UpdateCorrelationCoefficient_idle;
    [|lookup_solver|left; by fields].
  unfold bind at 1. unfold assign at 1. cbn [overlays set_overlays].
  rewrite lookup_insert_eq. collapse. by destruct o.
Qed.

Lemma SetCorrelationSourceVolume_commutes_witness :
  (SetCorrelationSourceVolume example_ext 1%positive
     {| GetNumberOfFrames := 1; cursor_voxel_frame := fun _ => 1%float |} ;;;
   SetComputeCorrelation example_ext 1%positive true) loaded_world
  = (SetComputeCorrelation example_ext 1%positive true ;;;
     SetCorrelationSourceVolume example_ext 1%positive
       {| GetNumberOfFrames := 1; cursor_voxel_frame := fun _ => 1%float |}) loaded_world
  /\ (SetCorrelationSourceVolume example_ext 1%positive
        {| GetNumberOfFrames := 1; cursor_voxel_frame := fun _ => 1%float |} ;;;
      SetComputeCorrelation example_ext 1%positive true) loaded_world
     = UpdateCorrelationCoefficient example_ext 1%positive
         (set_overlays
            (<[1%positive :=
                 set_m_bComputeCorrelation true
                   (set_m_volumeCorrelationSource
                      (Some {| GetNumberOfFrames := 1;
                               cursor_voxel_frame := fun _ => 1%float |}) loaded_overlay)]>
               (overlays loaded_world)) loaded_world).
Proof.
  apply (SetCorrelationSourceVolume_commutes example_ext loaded_world 1%positive
           loaded_overlay).
  - reflexivity.
  - reflexivity.
  - reflexivity.
Defined.

(** X19.  [SetActiveFrame] announces nothing.  On a loaded overlay it changes
    that overlay only: no redraw of the mesh is requested and no
    [DataUpdated] is sent, no property object or volume changes, and nothing
    is released. *)
Theorem SetActiveFrame_silent ext w this raw N F k :
  loaded w this raw N F ->
  0 < N -> 0 <= k < F -> Z.of_nat (length raw) = N * F -> N * F <= CInt.INT_MAX ->
  exists w',
    SetActiveFrame ext this k w = Some (tt, w')
    /\ notifications w' = notifications w
    /\ properties w' = properties w /\ volumes w' = volumes w
    /\ released w' = released w
    /\ forall q, q <> this -> overlays w' !! q = overlays w !! q.
Proof.
  intros Hld HN Hk Hlen Hint.
  destruct (SetActiveFrame_loaded ext w this raw N F k Hld HN Hk Hlen Hint)
    as (o & surf & prop & w' & _ & _ & _ & Hrun & Hpr & Hnot & Hvol & Hrel & Hov & _).
  exists w'. repeat split; try done.
  intros q Hq. by rewrite Hov, lookup_insert_ne.
Qed.

Lemma SetActiveFrame_silent_witness :
  exists w',
    SetActiveFrame example_ext 1%positive 1 (two_frame_world true) = Some (tt, w')
    /\ notifications w' = notifications (two_frame_world true)
    /\ properties w' = properties (two_frame_world true)
    /\ volumes w' = volumes (two_frame_world true)
    /\ released w' = released (two_frame_world true)
    /\ forall q, q <> 1%positive ->
                 overlays w' !! q = overlays (two_frame_world true) !! q.
Proof.
  apply (SetActiveFrame_silent example_ext (two_frame_world true) 1%positive
           [1; 3; 2; 0; 5; 4; 7; 6]%float 4 2 1).
  - exists two_frame_overlay, [1; 3; 2; 0]%float, [1; 3; 2; 0]%float, (tetrahedron 0),
      {| GetSmooth := true; GetSmoothSteps := 1 |}.
    repeat split; reflexivity.
  - lia.
  - lia.
  - reflexivity.
  - vm_compute; discriminate.
Defined.

(** ** Pairing more than once *)

(** X20.  [CopyCorrelationData] links the receiver and the other overlay only.
    When a third overlay [C] copies from [A] while [A] is paired with [B],
    [A] now points to [C] but [B] still points to [A]; if [A] is then
    destroyed before [B], the destructor of [B] writes through its pointer to
    the destroyed [A], which has no defined result. *)
Theorem CopyCorrelationData_keeps_old_partner w A B C oA oB oC propC :
  A <> B -> A <> C -> B <> C ->
  overlays w !! A = Some oA -> overlays w !! B = Some oB -> overlays w !! C = Some oC ->
  m_overlayPaired oA = Some B -> m_overlayPaired oB = Some A ->
  m_bCorrelationData oA = true ->
  properties w !! m_property oC = Some propC ->
  exists w',
    CopyCorrelationData C A w = Some (tt, w')
    /\ result (observe A m_overlayPaired) w' = Some (Some C)
    /\ result (observe C m_overlayPaired) w' = Some (Some A)
    /\ result (observe B m_overlayPaired) w' = Some (Some A)
    /\ (delete_SurfaceOverlay A ;;; delete_SurfaceOverlay B) w' = None.
Proof.
  intros HAB HAC HBC HoA HoB HoC HpairA HpairB Hhas HpC.
  destruct (CopyCorrelationData_run w C A oC oA propC)
    as (w' & Hcopy & HC' & HA' & Hothers & _); try done.
  assert (HB' : overlays w' !! B = Some oB) by (rewrite Hothers by done; exact HoB).
  exists w'. split; [done|].
  unfold result, observe. rewrite HA', HC', HB'. fields.
  split; [done|]. split; [done|]. split; [by rewrite HpairB|].
  erewrite bind_run;
    [|eapply (delete_SurfaceOverlay_paired w' A); [exact HA' | reflexivity | exact HC']].
  unfold delete_SurfaceOverlay.
  erewrite bind_deref; cycle 1.
  { cbn [overlays set_overlays]. rewrite lookup_delete_ne, lookup_insert_ne by done.
    exact HB'. }
  rewrite HpairB. unfold bind at 1. unfold assign. cbn [overlays set_overlays].
  by rewrite lookup_delete_eq.
Qed.

Lemma CopyCorrelationData_keeps_old_partner_witness :
  exists w',
    CopyCorrelationData 5%positive 1%positive
      (set_properties (<[5%positive := {| GetSmooth := false; GetSmoothSteps := 1 |}]>
                         (properties paired_world))
         (set_overlays (<[5%positive := set_m_property 5%positive unpaired_B]>
                          (overlays paired_world)) paired_world)) = Some (tt, w')
    /\ result (observe 1%positive m_overlayPaired) w' = Some (Some 5%positive)
    /\ result (observe 5%positive m_overlayPaired) w' = Some (Some 1%positive)
    /\ result (observe 2%positive m_overlayPaired) w' = Some (Some 1%positive)
    /\ (delete_SurfaceOverlay 1%positive ;;; delete_SurfaceOverlay 2%positive) w' = None.
Proof.
  apply (CopyCorrelationData_keeps_old_partner _ 1%positive 2%positive 5%positive
           paired_A paired_B (set_m_property 5%positive unpaired_B)
           {| GetSmooth := false; GetSmoothSteps := 1 |}).
  all: try reflexivity.
  all: discriminate.
Defined.

(** ** The ready flag of a copy *)

(** X21.  Neither the constructor nor [CopyCorrelationData] sets
    [m_bCorrelationDataReady].  On an overlay that is constructed and then
    copies the correlation data of another, the flag has the value its
    uninitialized member happened to hold, and this value alone decides
    whether [MapOverlay] maps the mesh values to colours or leaves the colour
    buffer as it is. *)
Theorem MapOverlay_after_copy ext color w A B oA surfB propA colordata :
  A <> B -> overlays w !! B = None -> overlays w !! A = Some oA ->
  m_bCorrelationData oA = true ->
  properties w !! m_property oA = Some propA -> m_property oA <> next_object w ->
  0 < mris_nvertices surfB ->
  Z.of_nat (length (mris_vertices_val surfB)) = mris_nvertices surfB ->
  result (new_SurfaceOverlay ext B (Some surfB) ;;;
          CopyCorrelationData B A ;;;
          let* ready := observe B m_bCorrelationDataReady in
          let* mapped := MapOverlay color B colordata in
          ret (ready, mapped)) w
  = Some (uninitialized_bool ext,
          if uninitialized_bool ext
          then color propA (Some (mris_vertices_val surfB)) colordata (mris_nvertices surfB)
          else colordata).
Proof.
  intros HAB HB HA Hhas HpA Hfresh HN Hlen.
  destruct (new_SurfaceOverlay_run ext w B surfB HB HN Hlen)
    as (w1 & o1 & Hnew & Hov1 & Hpr1 & _ & _ & _ & Hp1 & _ & Hsize & Hd & _ & _ & _ & _ & _
        & _ & Hready & _).
  destruct (CopyCorrelationData_run w1 B A o1 oA (new_SurfaceOverlayProperty ext))
    as (w2 & Hcopy & HB2 & _ & _ & Hpr2 & _); try done.
  { rewrite Hov1. apply lookup_insert_eq. }
  { rewrite Hov1. by rewrite lookup_insert_ne. }
  { rewrite Hpr1, Hp1. apply lookup_insert_eq. }
  unfold result.
  rewrite (bind_run _ _ _ _ _ Hnew), (bind_run _ _ _ _ _ Hcopy).
  rewrite (bind_observe _ _ _ _ _ HB2). unfold MapOverlay.
  rewrite bind_bind. erewrite bind_deref by exact HB2.
  fields. rewrite Hready. cbn [negb orb].
  destruct (uninitialized_bool ext); [|by rewrite !bind_ret].
  unfold GetProperty. rewrite !bind_bind. erewrite bind_deref by exact HB2.
  fields. unfold bind at 1.
  rewrite Hpr2, Hp1, Hpr1, lookup_delete_ne, lookup_insert_ne, HpA by done.
  rewrite !bind_ret. by rewrite Hd, Hsize.
Qed.

Lemma MapOverlay_after_copy_witness :
  result (new_SurfaceOverlay example_ext 2%positive (Some mesh_with_values) ;;;
          CopyCorrelationData 2%positive 1%positive ;;;
          let* ready := observe 2%positive m_bCorrelationDataReady in
          let* mapped := MapOverlay (fun _ _ _ _ => [Byte.xff]) 2%positive [Byte.x00] in
          ret (ready, mapped))
    (set_next_object 4%positive
       (set_overlays {[1%positive := unpaired_A]} unpaired_world))
  = Some (uninitialized_bool example_ext,
          if uninitialized_bool example_ext
          then (fun _ _ _ _ => [Byte.xff])
                 {| GetSmooth := false; GetSmoothSteps := 1 |}
                 (Some (mris_vertices_val mesh_with_values)) [Byte.x00]
                 (mris_nvertices mesh_with_values)
          else [Byte.x00]).
Proof.
  apply (MapOverlay_after_copy example_ext (fun _ _ _ _ => [Byte.xff]) _ 1%positive
           2%positive unpaired_A mesh_with_values
           {| GetSmooth := false; GetSmoothSteps := 1 |} [Byte.x00]).
  all: try reflexivity.
  all: discriminate.
Defined.

(** ** What the mode switch announces *)

Section ComputeCorrelationTrace.

Variable ext : Externals.

(** [UpdateCorrelationCoefficient] when it recomputes, with what it
    announces. *)
Lemma UpdateCorrelationCoefficient_trace w this o raw d u surf prop vol src buf :
  overlays w !! this = Some o ->
  m_fDataRaw o = Some raw -> m_fData o = Some d -> m_fDataUnsmoothed o = Some u ->
  Z.of_nat (length d) = m_nDataSize o -> Z.of_nat (length u) = m_nDataSize o ->
  m_surface o = Some surf -> properties w !! m_property o = Some prop ->
  0 < m_nDataSize o ->
  Z.of_nat (length raw) = m_nDataSize o * m_nNumOfFrames o ->
  m_nDataSize o * m_nNumOfFrames o <= CInt.INT_MAX ->
  m_bComputeCorrelation o = true ->
  m_volumeCorrelationSource o = Some vol ->
  GetNumberOfFrames vol = m_nNumOfFrames o ->
  m_fCorrelationSourceData o = Some src ->
  Z.of_nat (length src) = m_nNumOfFrames o ->
  m_fCorrelationDataBuffer o = Some buf ->
  Z.of_nat (length buf) = m_nNumOfFrames o ->
  exists w',
    UpdateCorrelationCoefficient ext this w = Some (tt, w')
    /\ notifications w'
       = (if signalsBlocked o then [] else [DataUpdated this])
         ++ SurfaceUpdateOverlay this :: notifications w
    /\ (forall q, q <> this -> overlays w' !! q = overlays w !! q)
    /\ result (observe this m_fDataUnsmoothed) w'
       = Some (Some (correlation_values ext vol raw (m_nDataSize o) (m_nNumOfFrames o))).
Proof.
  intros Ho Hraw Hd Hu Hdl Hul Hs Hp HN Hlen Hint Hc Hvol HF Hsrc Hsrcl Hbuf Hbufl.
  set (values := correlation_values ext vol raw (m_nDataSize o) (m_nNumOfFrames o)).
  unfold UpdateCorrelationCoefficient, surface_UpdateOverlay, emit_DataUpdated.
  step. rewrite Hvol, Hc, HF, Z.eqb_refl. cbn [andb].
  rewrite Hsrc, fetch_frames_whole by lia. do 3 step. fields.
  rewrite Hraw, Hbuf, Hd.
  destruct (coefficient_loop_whole ext vol raw buf d (m_nDataSize o) (m_nNumOfFrames o))
    as (b & Hloop & Hb); try done.
  rewrite Hloop. fold values. repeat step. fields. cbn [fst snd]. collapse.
  assert (Hvl : Z.of_nat (length values) = m_nDataSize o)
    by (apply correlation_values_length; lia).
  rewrite Hu, memcpy_same_length by lia. do 2 step. collapse.
  match goal with
  | |- context [<[this := ?x]> (overlays w)] => set (o1 := x)
  end.
  erewrite bind_GetProperty; [|lookup_solver|unfold o1; fields; lookup_solver].
  assert (Hothers : forall (x : SurfaceOverlay) q,
             q <> this -> <[this := x]> (overlays w) !! q = overlays w !! q)
    by (intros x q Hq; by rewrite lookup_insert_ne).
  destruct (GetSmooth prop).
  - erewrite bind_run; cycle 1.
    { apply (SmoothData_default_run ext _ this o1 values values surf prop);
        first [lookup_solver | unfold o1; fields; first [reflexivity | lia | eassumption]]. }
    replace (m_nDataSize o1) with (m_nDataSize o) by reflexivity.
    destruct (smoothing_outcome ext surf values (m_nDataSize o) (GetSmoothSteps prop)).
    + repeat step. unfold o1. fields. rewrite Hs. repeat step. fields.
      destruct (signalsBlocked o); eexists; (split; [reflexivity|]); collapse.
      all: split; [reflexivity|]; split; [apply Hothers|].
      all: unfold result, observe; cbn [overlays set_overlays set_notifications set_cerr].
      all: by rewrite lookup_insert_eq.
    + repeat step. unfold o1. fields. rewrite Hs. repeat step. fields.
      destruct (signalsBlocked o); eexists; (split; [reflexivity|]); collapse.
      all: split; [reflexivity|]; split; [apply Hothers|].
      all: unfold result, observe; cbn [overlays set_overlays set_notifications set_cerr].
      all: by rewrite lookup_insert_eq.
  - repeat step. unfold o1. fields. rewrite Hs. repeat step. fields.
    destruct (signalsBlocked o); eexists; (split; [reflexivity|]); collapse.
    all: split; [reflexivity|]; split; [apply Hothers|].
    all: unfold result, observe; cbn [overlays set_overlays set_notifications set_cerr].
    all: by rewrite lookup_insert_eq.
Qed.

End ComputeCorrelationTrace.

(** X22.  Enabling compute-correlation mode on an overlay whose source volume
    has the overlay's frame count requests one redraw of the mesh and sends
    one [DataUpdated]; disabling the mode shows the active frame again but
    announces nothing. *)
Theorem SetComputeCorrelation_announcements ext w this o raw d u surf prop vol src buf :
  overlays w !! this = Some o ->
  m_fDataRaw o = Some raw -> m_fData o = Some d -> m_fDataUnsmoothed o = Some u ->
  Z.of_nat (length d) = m_nDataSize o -> Z.of_nat (length u) = m_nDataSize o ->
  m_surface o = Some surf -> properties w !! m_property o = Some prop ->
  0 < m_nDataSize o ->
  Z.of_nat (length raw) = m_nDataSize o * m_nNumOfFrames o ->
  m_nDataSize o * m_nNumOfFrames o <= CInt.INT_MAX ->
  m_volumeCorrelationSource o = Some vol ->
  GetNumberOfFrames vol = m_nNumOfFrames o ->
  m_fCorrelationSourceData o = Some src ->
  Z.of_nat (length src) = m_nNumOfFrames o ->
  m_fCorrelationDataBuffer o = Some buf ->
  Z.of_nat (length buf) = m_nNumOfFrames o ->
  0 <= m_nActiveFrame o < m_nNumOfFrames o ->
  signalsBlocked o = false ->
  (exists w',
      SetComputeCorrelation ext this true w = Some (tt, w')
      /\ notifications w'
         = DataUpdated this :: SurfaceUpdateOverlay this :: notifications w)
  /\ (exists w',
         SetComputeCorrelation ext this false w = Some (tt, w')
         /\ notifications w' = notifications w
         /\ result (observe this m_fDataUnsmoothed) w'
            = Some (Some (frame_slice raw (m_nDataSize o) (m_nActiveFrame o)))).
Proof.
  intros Ho Hraw Hd Hu Hdl Hul Hs Hp HN Hlen Hint Hvol HF Hsrc Hsrcl Hbuf Hbufl Hk Hbl.
  split.
  - destruct (UpdateCorrelationCoefficient_trace ext
                (set_overlays (<[this := set_m_bComputeCorrelation true o]> (overlays w)) w)
                this (set_m_bComputeCorrelation true o) raw d u surf prop vol src buf)
      as (w' & Hrun & Hnot & _); try done.
    { apply lookup_insert_eq. }
    exists w'. unfold SetComputeCorrelation. erewrite bind_assign by exact Ho.
    split; [exact Hrun|]. rewrite Hnot. fields. by rewrite Hbl.
  - destruct (SetActiveFrame_loaded ext
                (set_overlays (<[this := set_m_bComputeCorrelation false o]> (overlays w)) w)
                this raw (m_nDataSize o) (m_nNumOfFrames o) (m_nActiveFrame o))
      as (o1 & surf1 & prop1 & w' & Ho1 & _ & _ & Hrun & _ & Hnot & _ & _ & Hov & _);
      try done.
    { exists (set_m_bComputeCorrelation false o), d, u, surf, prop.
      cbn [overlays set_overlays properties]. rewrite lookup_insert_eq. by fields. }
    exists w'. unfold SetComputeCorrelation. erewrite bind_assign by exact Ho.
    erewrite bind_deref by apply lookup_insert_eq. fields.
    split; [exact Hrun|]. split; [exact Hnot|].
    unfold result, observe. rewrite Hov, lookup_insert_eq.
    match goal with
    | |- context [smoothed_or ?a ?b ?c ?e ?f ?g] =>
        destruct (smoothed_or_fields a b c e f g) as (-> & _)
    end.
    reflexivity.
Qed.

Lemma SetComputeCorrelation_announcements_witness :
  (exists w',
      SetComputeCorrelation example_ext 1%positive true sourced_world = Some (tt, w')
      /\ notifications w'
         = DataUpdated 1%positive :: SurfaceUpdateOverlay 1%positive
           :: notifications sourced_world)
  /\ (exists w',
         SetComputeCorrelation example_ext 1%positive false sourced_world = Some (tt, w')
         /\ notifications w' = notifications sourced_world
         /\ result (observe 1%positive m_fDataUnsmoothed) w'
            = Some (Some (frame_slice [1; 3; 2; 0; 5; 4; 7; 6]%float
                            (m_nDataSize sourced_overlay)
                            (m_nActiveFrame sourced_overlay)))).
Proof.
  apply (SetComputeCorrelation_announcements example_ext sourced_world 1%positive
           sourced_overlay [1; 3; 2; 0; 5; 4; 7; 6]%float [1; 3; 2; 0]%float
           [1; 3; 2; 0]%float (tetrahedron 0) {| GetSmooth := false; GetSmoothSteps := 1 |}
           constant_volume [0; 0]%float [0; 0]%float).
  all: try reflexivity.
  all: try (vm_compute; discriminate).
  vm_compute. split; [discriminate | reflexivity].
Defined.
